(** * sysmon: task and system resource sampler (src/sysmon.c)

    A shallow embedding of the sampling engine of [sysmon.c] and the
    properties its specification states about it.

    Conventions of the embedding.
    - C integers are [Z]; [uint32_t] arithmetic wraps with [wrap_u32] and
      [int] arithmetic with [wrap_int] wherever the source computes.
    - [float] is IEEE-754 binary32, taken from the executable specification
      [SpecFloat] of the standard library with [prec = 24], [emax = 128]
      (round to nearest, ties to even).
    - The module state [self], the function-local statics and the set of
      live heap blocks form one [Program] record that every operation
      threads explicitly.
    - Everything the platform answers (kernel snapshots, allocator
      success, heap statistics, idle-task handles, the stack registry) is
      an input of the operation, collected in [CycleEnv] and [InitEnv].
    - Arrays are lists read with [!!] and written with [<[i := x]>].  An
      access that is out of bounds or goes through a NULL pointer is
      undefined in C; the embedding reads nothing and writes nothing
      there, and the invariants [table_inv], [scratch_wf] and [slots_wf]
      of the reachable states give the bounds within which the accesses
      of the sampler stay.
    - The configuration constants of the headers that are not part of the
      sources at hand ([CONFIG_SYSMON_SAMPLE_COUNT],
      [SYSMON_MAX_TRACKED_TASKS], [sizeof task_name],
      [sizeof (StackType_t)]) are parameters of the development; the
      struct layouts are read off the field accesses of [sysmon.c]. *)

From Stdlib Require Import ZArith Lia Bool List String Ascii.
From Stdlib Require Import Floats.SpecFloat.
From stdpp Require Import base option list gmap.

Open Scope Z_scope.

(** ** Machine integers *)

Definition UINT32_MAX : Z := 4294967295.
Definition INT_MAX : Z := 2147483647.

(** Reduction of a mathematical integer to [uint32_t]. *)
Definition wrap_u32 (z : Z) : Z := z mod 2 ^ 32.

(** Reduction of a mathematical integer to a 32-bit two's complement [int]. *)
Definition wrap_int (z : Z) : Z := (z + 2 ^ 31) mod 2 ^ 32 - 2 ^ 31.

Definition is_u32 (z : Z) : Prop := 0 <= z <= UINT32_MAX.

(** ** binary32 floating point *)

Definition float : Type := spec_float.
Definition prec : Z := 24.
Definition emax : Z := 128.

(** [(float)x] for an unsigned 32-bit [x]. *)
Definition f32_of_u32 (z : Z) : float := binary_normalize prec emax z 0 false.

Definition f32_add (x y : float) : float := SFadd prec emax x y.
Definition f32_sub (x y : float) : float := SFsub prec emax x y.
Definition f32_mul (x y : float) : float := SFmul prec emax x y.
Definition f32_div (x y : float) : float := SFdiv prec emax x y.
Definition f32_lt (x y : float) : bool := SFltb x y.
Definition f32_le (x y : float) : bool := SFleb x y.

(** The literals [0.0f], [100.0f] and [0.5f]. *)
Definition f32_0 : float := S754_zero false.
Definition f32_100 : float := S754_finite false 13107200 (-17).
Definition f32_half : float := S754_finite false 8388608 (-24).

(** The recurring expression [((float)a / (float)b) * 100.0f]. *)
Definition percent_of (a b : Z) : float :=
  f32_mul (f32_div (f32_of_u32 a) (f32_of_u32 b)) f32_100.

(** A float lies in the closed interval [0, 100] (IEEE comparisons). *)
Definition in_0_100 (x : float) : Prop :=
  f32_le f32_0 x = true /\ f32_le x f32_100 = true.

(** Shape of the outputs of rounding: result of [prec]-bit rounding when
    the rounded exponent stays in range, infinity otherwise. *)
Definition fin_or_inf (s : bool) (m : positive) (e : Z) : float :=
  if e <=? emax - prec then S754_finite s m e else S754_infinity s.

(** Invariant of [k] successive one-bit right shifts of the integer [M]:
    the mantissa is the quotient, and the round and sticky bits are both
    clear exactly when nothing was shifted out. *)
Definition shr_inv (M k : Z) (mrs : shr_record) : Prop :=
  shr_m mrs = M / 2 ^ k /\
  (orb (shr_r mrs) (shr_s mrs) = false <-> M mod 2 ^ k = 0).

(** The same shifts with the round and sticky bits told apart: the round
    bit says that at least half a unit was shifted out, and the sticky bit
    is clear exactly when nothing or exactly half a unit was. *)
Definition shr_bits (M k : Z) (mrs : shr_record) : Prop :=
  shr_m mrs = M / 2 ^ k /\
  shr_r mrs = (2 ^ k <=? 2 * (M mod 2 ^ k)) /\
  (shr_s mrs = false <-> (M mod 2 ^ k = 0 \/ 2 * (M mod 2 ^ k) = 2 ^ k)).

(** The integer that [(float)z] denotes for a positive unsigned 32-bit
    [z]: [z] itself below [2 ^ 24]; above, with [n] the number of bits in
    excess of 24, the multiple of [2 ^ n] nearest to [z], ties going to
    the even quotient. *)
Definition round_u32 (z : Z) : Z :=
  let n := Z.log2 z - 23 in
  if n <=? 0 then z
  else
    let q := z / 2 ^ n in
    let r := z mod 2 ^ n in
    (if (2 ^ n <? 2 * r) || ((2 * r =? 2 ^ n) && Z.odd q) then q + 1 else q) * 2 ^ n.

(** A finite float carries at most [prec] mantissa bits. *)
Definition f32_bounded (x : float) : Prop :=
  match x with S754_finite _ m _ => Zpos m < 2 ^ 24 | _ => True end.

(** [x] is a zero, or a positive finite float with a [prec]-bit mantissa
    that does not exceed [K * 2 ^ eK]. *)
Definition pos_le (K : positive) (eK : Z) (x : float) : Prop :=
  match x with
  | S754_zero _ => True
  | S754_finite false m e =>
      Zpos m < 2 ^ 24 /\ (e < eK \/ (e = eK /\ Zpos m <= Zpos K))
  | _ => False
  end.

(** Mantissa of [100.0f] (exponent -17) and of [200.0f] (exponent -16). *)
Definition C100 : positive := 13107200.

(** ** C strings

    A C string is the [string] of its characters before the terminator. *)

(** What [strncpy (dst, src, n)] leaves in a zero-filled [dst] whose last
    byte stays zero: the first [n] characters of [src]. *)
Fixpoint strncpy (n : nat) (src : string) : string :=
  match n, src with
  | S n', String c src' => String c (strncpy n' src')
  | _, _ => EmptyString
  end.

(** [strncmp (a, b, n) == 0]. *)
Fixpoint strncmp_eq (n : nat) (a b : string) : bool :=
  match n with
  | O => true
  | S n' =>
      match a, b with
      | EmptyString, EmptyString => true
      | String x a', String y b' =>
          if Ascii.eqb x y then strncmp_eq n' a' b' else false
      | _, _ => false
      end
  end.

(** ** Loops *)

(** [for (j = 0; j < n; j++) body (j)] over a threaded state. *)
Fixpoint for_loop {S : Type} (n : nat) (body : nat -> S -> S) (s : S) : S :=
  match n with
  | O => s
  | Datatypes.S k => body k (for_loop k body s)
  end.

(** First index [i] with [j <= i < j + k] at which [P] holds: a scanning
    loop that returns on its first hit. *)
Fixpoint find_from (P : nat -> bool) (j k : nat) : option nat :=
  match k with
  | O => None
  | Datatypes.S k' => if P j then Some j else find_from P (Datatypes.S j) k'
  end.

Definition find_index (n : nat) (P : nat -> bool) : option nat :=
  find_from P 0 n.

(** ** Data model *)

(** [TaskStatus_t] of the kernel, restricted to the fields the sampler
    reads.  Handles are addresses; a NULL name is [None]. *)
Record TaskStatus_t : Type := {
  xHandle : Z;
  pcTaskName : option string;
  xTaskNumber : Z;
  uxCurrentPriority : Z;
  uxBasePriority : Z;
  ulRunTimeCounter : Z;
  usStackHighWaterMark : Z
}.

(** One slot of the task table. *)
Record TaskUsageSample : Type := {
  task_name : string;
  is_active : bool;
  consecutive_zero_samples : Z;
  prev_run_time_ticks : Z;
  usage_percent_history : list float;
  stack_usage_bytes_history : list Z;
  stack_usage_percent_history : list float;
  write_index : Z;
  stack_high_water_mark : Z;
  stack_size_bytes : Z;
  task_id : Z;
  current_priority : Z;
  base_priority : Z;
  total_run_time_ticks : Z;
  core_id : Z
}.

(** A heap array: the address of its block and its cells. *)
Record buffer (A : Type) : Type := Buffer { base : positive; cells : list A }.
Arguments Buffer {A} _ _.
Arguments base {A} _.
Arguments cells {A} _.

(** The module state [self]. *)
Record SysMonState : Type := {
  tasks : option (buffer TaskUsageSample);
  task_status : option (buffer TaskStatus_t);
  task_capacity : Z;
  prev_total_run_time : Z;
  psram_seen : bool;
  series_write_index : Z;
  cpu_overall_percent : list float;
  cpu_core_percent_0 : list float;
  cpu_core_percent_1 : list float;
  dram_free : list Z;
  dram_min_free : list Z;
  dram_largest_block : list Z;
  dram_total : list Z;
  dram_used_percent : list float;
  psram_free : list Z;
  psram_total : list Z;
  psram_used_percent : list float;
  monitor_task_handle : option Z
}.

(** The whole program state: [self], the function-local statics of
    [_calculate_cpu_metrics] and [sysmon_monitor], and the live heap
    blocks. *)
Record Program : Type := {
  self : SysMonState;
  prev_idle_ticks_0 : Z;
  prev_idle_ticks_1 : Z;
  log_counter : Z;
  heap : gset positive
}.

(** ** The platform *)

(** Answer of one [uxTaskGetSystemState] call: the entries the kernel
    reports and the global run-time counter. *)
Record KernelAnswer : Type := {
  ka_entries : list TaskStatus_t;
  ka_total_run_time : Z
}.

(** Everything the platform answers during one iteration of the sampler:
    the two kernel snapshots (capacity probe and sample), the task count,
    the success of the three allocations, the idle-task handles of the
    two cores, the registered stack size of a task handle
    ([sysmon_stack_get_size], [None] for a handle that is not registered,
    which leaves the size at 0), and the heap figures of the internal and
    the external (SPIRAM) memory. *)
Record CycleEnv : Type := {
  probe : KernelAnswer;
  uxTaskGetNumberOfTasks : Z;
  calloc_tasks_ok : bool;
  malloc_status_ok : bool;
  snapshot : KernelAnswer;
  calloc_seen_ok : bool;
  idle_handle_0 : Z;
  idle_handle_1 : Z;
  stack_registry : Z -> option Z;
  internal_free : Z;
  internal_min_free : Z;
  internal_largest : Z;
  internal_total : Z;
  spiram_total : Z;
  spiram_free : Z
}.

(** What the platform answers during [sysmon_init]. *)
Record InitEnv : Type := {
  wifi_err : Z;
  http_err : Z;
  task_create : option Z
}.

Definition ESP_OK : Z := 0.
Definition ESP_FAIL : Z := -1.

(** [calloc]/[malloc]: on success a block that is not live becomes live. *)
Definition alloc (ok : bool) (h : gset positive) : option positive * gset positive :=
  if ok then (Some (fresh h), {[fresh h]} ∪ h) else (None, h).

(** [free]: releases the block; [free (NULL)] does nothing. *)
Definition free (ptr : option positive) (h : gset positive) : gset positive :=
  match ptr with
  | Some a => h ∖ {[a]}
  | None => h
  end.

(** The kernel snapshot call on an array of [size] entries: at most [size]
    entries are written to the front of the array, and their number is
    returned. *)
Definition uxTaskGetSystemState (k : KernelAnswer) (buf : list TaskStatus_t)
    (size : Z) : list TaskStatus_t * Z :=
  let written := take (Z.to_nat size) (ka_entries k) in
  (written ++ drop (length written) buf, Z.of_nat (length written)).

(** ** Field updates *)

Definition set_storage (t : option (buffer TaskUsageSample))
    (st : option (buffer TaskStatus_t)) (cap : Z) (s : SysMonState) : SysMonState :=
  {| tasks := t; task_status := st; task_capacity := cap;
     prev_total_run_time := prev_total_run_time s;
     psram_seen := psram_seen s;
     series_write_index := series_write_index s;
     cpu_overall_percent := cpu_overall_percent s;
     cpu_core_percent_0 := cpu_core_percent_0 s;
     cpu_core_percent_1 := cpu_core_percent_1 s;
     dram_free := dram_free s;
     dram_min_free := dram_min_free s;
     dram_largest_block := dram_largest_block s;
     dram_total := dram_total s;
     dram_used_percent := dram_used_percent s;
     psram_free := psram_free s;
     psram_total := psram_total s;
     psram_used_percent := psram_used_percent s;
     monitor_task_handle := monitor_task_handle s |}.

Definition set_tasks (t : option (buffer TaskUsageSample)) (s : SysMonState) : SysMonState :=
  set_storage t (task_status s) (task_capacity s) s.

Definition set_task_status (st : option (buffer TaskStatus_t)) (s : SysMonState) : SysMonState :=
  set_storage (tasks s) st (task_capacity s) s.

Definition set_prev_total_run_time (v : Z) (s : SysMonState) : SysMonState :=
  {| tasks := tasks s; task_status := task_status s;
     task_capacity := task_capacity s;
     prev_total_run_time := v;
     psram_seen := psram_seen s;
     series_write_index := series_write_index s;
     cpu_overall_percent := cpu_overall_percent s;
     cpu_core_percent_0 := cpu_core_percent_0 s;
     cpu_core_percent_1 := cpu_core_percent_1 s;
     dram_free := dram_free s;
     dram_min_free := dram_min_free s;
     dram_largest_block := dram_largest_block s;
     dram_total := dram_total s;
     dram_used_percent := dram_used_percent s;
     psram_free := psram_free s;
     psram_total := psram_total s;
     psram_used_percent := psram_used_percent s;
     monitor_task_handle := monitor_task_handle s |}.

Definition set_psram_seen (v : bool) (s : SysMonState) : SysMonState :=
  {| tasks := tasks s; task_status := task_status s;
     task_capacity := task_capacity s;
     prev_total_run_time := prev_total_run_time s;
     psram_seen := v;
     series_write_index := series_write_index s;
     cpu_overall_percent := cpu_overall_percent s;
     cpu_core_percent_0 := cpu_core_percent_0 s;
     cpu_core_percent_1 := cpu_core_percent_1 s;
     dram_free := dram_free s;
     dram_min_free := dram_min_free s;
     dram_largest_block := dram_largest_block s;
     dram_total := dram_total s;
     dram_used_percent := dram_used_percent s;
     psram_free := psram_free s;
     psram_total := psram_total s;
     psram_used_percent := psram_used_percent s;
     monitor_task_handle := monitor_task_handle s |}.

Definition set_monitor_task_handle (v : option Z) (s : SysMonState) : SysMonState :=
  {| tasks := tasks s; task_status := task_status s;
     task_capacity := task_capacity s;
     prev_total_run_time := prev_total_run_time s;
     psram_seen := psram_seen s;
     series_write_index := series_write_index s;
     cpu_overall_percent := cpu_overall_percent s;
     cpu_core_percent_0 := cpu_core_percent_0 s;
     cpu_core_percent_1 := cpu_core_percent_1 s;
     dram_free := dram_free s;
     dram_min_free := dram_min_free s;
     dram_largest_block := dram_largest_block s;
     dram_total := dram_total s;
     dram_used_percent := dram_used_percent s;
     psram_free := psram_free s;
     psram_total := psram_total s;
     psram_used_percent := psram_used_percent s;
     monitor_task_handle := v |}.

Definition set_self (s : SysMonState) (p : Program) : Program :=
  {| self := s;
     prev_idle_ticks_0 := prev_idle_ticks_0 p;
     prev_idle_ticks_1 := prev_idle_ticks_1 p;
     log_counter := log_counter p;
     heap := heap p |}.

Definition set_heap (h : gset positive) (p : Program) : Program :=
  {| self := self p;
     prev_idle_ticks_0 := prev_idle_ticks_0 p;
     prev_idle_ticks_1 := prev_idle_ticks_1 p;
     log_counter := log_counter p;
     heap := h |}.

(** The cells of the task table, empty for a NULL table. *)
Definition table (p : Program) : list TaskUsageSample :=
  match tasks (self p) with
  | Some tb => cells tb
  | None => []
  end.

(** Replace the cells of the task table, keeping its block. *)
Definition set_table (l : list TaskUsageSample) (p : Program) : Program :=
  match tasks (self p) with
  | Some tb => set_self (set_tasks (Some (Buffer (base tb) l)) (self p)) p
  | None => p
  end.

(** The cells of the scratch snapshot array, empty for a NULL array. *)
Definition scratch (p : Program) : list TaskStatus_t :=
  match task_status (self p) with
  | Some sb => cells sb
  | None => []
  end.

(** Block address and length of a heap array: what identifies the array
    apart from the contents of its cells. *)
Definition block_of {A : Type} (b : option (buffer A)) : option (positive * nat) :=
  match b with
  | Some x => Some (base x, length (cells x))
  | None => None
  end.

(** Outputs of [_collect_memory_stats]. *)
Record MemoryStats : Type := {
  ms_dram_free : Z;
  ms_dram_min_free : Z;
  ms_dram_largest : Z;
  ms_dram_total : Z;
  ms_dram_used_percent : float;
  ms_psram_free : Z;
  ms_psram_total : Z;
  ms_psram_used_percent : float
}.

(** Contents of freshly [malloc]ed snapshot cells.  They are indeterminate
    in C and are never read before the next kernel snapshot overwrites
    them; the embedding fixes them to a blank entry. *)
Definition blank_status : TaskStatus_t :=
  {| xHandle := 0; pcTaskName := None; xTaskNumber := 0;
     uxCurrentPriority := 0; uxBasePriority := 0;
     ulRunTimeCounter := 0; usStackHighWaterMark := 0 |}.

(** Lines 343-344: the idle run-time delta of one core. *)
Definition delta_idle (idle_ticks prev_idle_ticks : Z) : Z :=
  if idle_ticks >=? prev_idle_ticks then wrap_u32 (idle_ticks - prev_idle_ticks) else 0.

(** Lines 348-361 for one core: usage from the idle delta, clamped. *)
Definition core_usage (d_idle delta_total : Z) : float :=
  if 0 <? delta_total then
    let idle_percent := percent_of d_idle delta_total in
    let u := f32_sub f32_100 idle_percent in
    let u := if f32_lt u f32_0 then f32_0 else u in
    if f32_lt f32_100 u then f32_100 else u
  else f32_0.

(** Line 363. *)
Definition overall_usage (core_usage_0 core_usage_1 : float) : float :=
  f32_mul (f32_add core_usage_0 core_usage_1) f32_half.

(** Lines 327-338: the run-time counters of the two idle tasks among the
    first [num_returned] snapshot entries, 0 for an idle task that is not
    listed. *)
Definition idle_ticks (h0 h1 : Z) (num_returned : Z) (st : list TaskStatus_t) : Z * Z :=
  for_loop (Z.to_nat num_returned)
    (fun i acc =>
       match st !! i with
       | Some t =>
           if xHandle t =? h0 then (ulRunTimeCounter t, snd acc)
           else if xHandle t =? h1 then (fst acc, ulRunTimeCounter t)
           else acc
       | None => acc
       end)
    (0, 0).

(** ** Example platform answers

    Three tasks as the kernel lists them on a two-core target, a fourth
    one that fills a table of four slots, and the answers of the platform
    built from them. *)

Definition ex_entry (handle : Z) (name : string) (number counter : Z) : TaskStatus_t :=
  {| xHandle := handle; pcTaskName := Some name; xTaskNumber := number;
     uxCurrentPriority := 1; uxBasePriority := 1;
     ulRunTimeCounter := counter; usStackHighWaterMark := 1024 |}.

Definition ex_answer (idle0 idle1 main total : Z) : KernelAnswer :=
  {| ka_entries := [ex_entry 11 "IDLE0" 1 idle0; ex_entry 12 "IDLE1" 2 idle1;
                    ex_entry 13 "main" 3 main];
     ka_total_run_time := total |}.

Definition ex_answer_full : KernelAnswer :=
  {| ka_entries := [ex_entry 11 "IDLE0" 1 900; ex_entry 12 "IDLE1" 2 700;
                    ex_entry 13 "main" 3 350; ex_entry 14 "worker" 4 50];
     ka_total_run_time := 1100 |}.

Definition ex_cycle (probe_answer snapshot_answer : KernelAnswer)
    (tasks_ok status_ok : bool) : CycleEnv :=
  {| probe := probe_answer; uxTaskGetNumberOfTasks := 3;
     calloc_tasks_ok := tasks_ok; malloc_status_ok := status_ok;
     snapshot := snapshot_answer; calloc_seen_ok := true;
     idle_handle_0 := 11; idle_handle_1 := 12;
     stack_registry := fun h => if h =? 13 then Some 4096 else None;
     internal_free := 150000; internal_min_free := 120000;
     internal_largest := 65536; internal_total := 300000;
     spiram_total := 4194304; spiram_free := 4000000 |}.

(** A cycle in which idle delta 800 and 600 meet a total delta of 1000. *)
Definition ex_env : CycleEnv :=
  ex_cycle (ex_answer 800 600 300 1000) (ex_answer 800 600 300 1000) true true.

(** Two successive cycles around the overflow of the run-time counters:
    the total counter and the idle counter of core 0 stand at
    [UINT32_MAX - 2], and four ticks later both have wrapped to 1. *)
Definition ex_env_high : CycleEnv :=
  ex_cycle (ex_answer 4294967293 600 300 4294967293)
           (ex_answer 4294967293 600 300 4294967293) true true.

Definition ex_env_wrapped : CycleEnv :=
  ex_cycle (ex_answer 1 602 302 1) (ex_answer 1 602 302 1) true true.

(** A cycle that finds the table of four slots full and cannot allocate
    the new scratch array. *)
Definition ex_env_full_nomem : CycleEnv :=
  ex_cycle ex_answer_full ex_answer_full true false.

(** A cycle that finds the table of four slots full and grows it. *)
Definition ex_env_full : CycleEnv :=
  ex_cycle ex_answer_full ex_answer_full true true.

(** The first cycle, in which [tasks_seen] cannot be allocated. *)
Definition ex_env_noseen : CycleEnv :=
  {| probe := probe ex_env; uxTaskGetNumberOfTasks := uxTaskGetNumberOfTasks ex_env;
     calloc_tasks_ok := true; malloc_status_ok := true;
     snapshot := snapshot ex_env; calloc_seen_ok := false;
     idle_handle_0 := idle_handle_0 ex_env; idle_handle_1 := idle_handle_1 ex_env;
     stack_registry := stack_registry ex_env;
     internal_free := internal_free ex_env; internal_min_free := internal_min_free ex_env;
     internal_largest := internal_largest ex_env; internal_total := internal_total ex_env;
     spiram_total := spiram_total ex_env; spiram_free := spiram_free ex_env |}.

(** A cycle in which the kernel lists the two idle tasks only: the task
    [main] is gone. *)
Definition ex_env_main_gone : CycleEnv :=
  let idle_only :=
    {| ka_entries := [ex_entry 11 "IDLE0" 1 1700; ex_entry 12 "IDLE1" 2 1300];
       ka_total_run_time := 2000 |} in
  ex_cycle idle_only idle_only true true.

Definition ex_init : InitEnv :=
  {| wifi_err := ESP_OK; http_err := ESP_OK; task_create := Some 77 |}.

Section Sysmon.

Local Set Default Proof Using "Type".
Local Set Proof Using Clear Unused.

(** [CONFIG_SYSMON_SAMPLE_COUNT]: depth of every history buffer. *)
Variable CONFIG_SYSMON_SAMPLE_COUNT : Z.
(** [SYSMON_MAX_TRACKED_TASKS]: hard cap of the task table. *)
Variable SYSMON_MAX_TRACKED_TASKS : Z.
(** [sizeof (task_name)] of a slot. *)
Variable TASK_NAME_SIZE : nat.
(** [configMAX_TASK_NAME_LEN]: size of the name field of the kernel,
    terminator included. *)
Variable configMAX_TASK_NAME_LEN : nat.
(** [sizeof (StackType_t)]. *)
Variable STACK_TYPE_SIZE : Z.

(** The name field of a slot is at least as large as the name field of
    the kernel (the layout of the slot is in a header that is not part of
    the sources at hand). *)
Hypothesis name_field_size : (configMAX_TASK_NAME_LEN <= TASK_NAME_SIZE)%nat.

Definition zero_history {A : Type} (z : A) : list A :=
  replicate (Z.to_nat CONFIG_SYSMON_SAMPLE_COUNT) z.

(** A slot whose bytes are all zero ([calloc], [memset]). *)
Definition zero_slot : TaskUsageSample :=
  {| task_name := EmptyString;
     is_active := false;
     consecutive_zero_samples := 0;
     prev_run_time_ticks := 0;
     usage_percent_history := zero_history f32_0;
     stack_usage_bytes_history := zero_history 0;
     stack_usage_percent_history := zero_history f32_0;
     write_index := 0;
     stack_high_water_mark := 0;
     stack_size_bytes := 0;
     task_id := 0;
     current_priority := 0;
     base_priority := 0;
     total_run_time_ticks := 0;
     core_id := 0 |}.

(** [SysMonState self = { 0 }] and zero-initialised statics, nothing
    allocated. *)
Definition program_init : Program :=
  {| self :=
       {| tasks := None; task_status := None; task_capacity := 0;
          prev_total_run_time := 0;
          psram_seen := false;
          series_write_index := 0;
          cpu_overall_percent := zero_history f32_0;
          cpu_core_percent_0 := zero_history f32_0;
          cpu_core_percent_1 := zero_history f32_0;
          dram_free := zero_history 0;
          dram_min_free := zero_history 0;
          dram_largest_block := zero_history 0;
          dram_total := zero_history 0;
          dram_used_percent := zero_history f32_0;
          psram_free := zero_history 0;
          psram_total := zero_history 0;
          psram_used_percent := zero_history f32_0;
          monitor_task_handle := None |};
     prev_idle_ticks_0 := 0;
     prev_idle_ticks_1 := 0;
     log_counter := 0;
     heap := ∅ |}.

(** ** Capacity manager *)

(** Lines 124-134: copy the active slots of the old table to the same
    index of the new one. *)
Definition copy_active (old : list TaskUsageSample) (cap : Z)
    (new_tasks : list TaskUsageSample) : list TaskUsageSample :=
  for_loop (Z.to_nat cap)
    (fun j acc =>
       match old !! j with
       | Some t => if is_active t then <[j := t]> acc else acc
       | None => acc
       end)
    new_tasks.

(** Lines 89-104: the capacity asked for, from the observed task count. *)
Definition required_capacity (actual_task_count : Z) (buffer_was_full : bool) : Z :=
  let growth_percent := if buffer_was_full then 50 else 20 in
  let growth_buffer := Z.quot (wrap_int (actual_task_count * growth_percent)) 100 in
  let growth_buffer := if growth_buffer <? 1 then 1 else growth_buffer in
  let required := wrap_int (actual_task_count + growth_buffer) in
  if SYSMON_MAX_TRACKED_TASKS <? required then SYSMON_MAX_TRACKED_TASKS else required.

(** Lines 89-143: the growth decision, the two allocations and the
    hand-off, once the observed task count is known. *)
Definition grow_task_storage (env : CycleEnv) (p : Program)
    (actual_task_count : Z) (buffer_was_full : bool) : bool * Program :=
  let s := self p in
  let required := required_capacity actual_task_count buffer_was_full in
  if required <=? task_capacity s then (true, p)
  else
    match alloc (calloc_tasks_ok env) (heap p) with
    | (None, _) => (false, p)
    | (Some a_tasks, h1) =>
        match alloc (malloc_status_ok env) h1 with
        | (None, _) => (false, set_heap (free (Some a_tasks) h1) p)
        | (Some a_status, h2) =>
            let zeroed := replicate (Z.to_nat required) zero_slot in
            let new_tasks :=
              match tasks s with
              | Some tb => copy_active (cells tb) (task_capacity s) zeroed
              | None => zeroed
              end in
            let new_status := replicate (Z.to_nat required) blank_status in
            let h3 := free (base <$> task_status s) (free (base <$> tasks s) h2) in
            (true,
             set_heap h3
               (set_self
                  (set_storage (Some (Buffer a_tasks new_tasks))
                               (Some (Buffer a_status new_status)) required s) p))
        end
    end.

(** The state after the capacity probe of lines 68-72: the snapshot query
    has overwritten the front of the scratch array. *)
Definition probe_storage (env : CycleEnv) (p : Program) : Program :=
  match task_status (self p) with
  | Some sb =>
      if 0 <? task_capacity (self p) then
        set_self
          (set_task_status
             (Some (Buffer (base sb)
                (fst (uxTaskGetSystemState (probe env) (cells sb) (task_capacity (self p))))))
             (self p)) p
      else p
  | None => p
  end.

Definition _ensure_task_storage_capacity (env : CycleEnv) (p : Program) : bool * Program :=
  let cap := task_capacity (self p) in
  match task_status (self p) with
  | Some sb =>
      if 0 <? cap then
        let num := snd (uxTaskGetSystemState (probe env) (cells sb) cap) in
        let actual_task_count := wrap_int num in
        if actual_task_count <? cap then (true, probe_storage env p)
        else grow_task_storage env (probe_storage env p) actual_task_count
               (actual_task_count =? cap)
      else grow_task_storage env p (wrap_int (uxTaskGetNumberOfTasks env)) false
  | None => grow_task_storage env p (wrap_int (uxTaskGetNumberOfTasks env)) false
  end.

(** ** Raw sampler *)

(** Lines 165-174. *)
Definition delta_total_of (total_run_time prev : Z) : Z :=
  if total_run_time >=? prev then wrap_u32 (total_run_time - prev)
  else wrap_u32 (wrap_u32 (wrap_u32 (UINT32_MAX - prev) + total_run_time) + 1).

(** Returns [Some (num_returned, delta_total)] for [true] and [None] for
    [false]. *)
Definition _sample_task_states (env : CycleEnv) (p : Program) : option (Z * Z) * Program :=
  let s := self p in
  match task_status s with
  | Some sb =>
      let '(cells', num) :=
        uxTaskGetSystemState (snapshot env) (cells sb) (task_capacity s) in
      let total_run_time := ka_total_run_time (snapshot env) in
      let s1 := set_task_status (Some (Buffer (base sb) cells')) s in
      if num =? 0 then (None, set_self s1 p)
      else
        (Some (num, delta_total_of total_run_time (prev_total_run_time s)),
         set_self (set_prev_total_run_time total_run_time s1) p)
  | None => (None, p)
  end.

(** ** Identity and lifecycle resolver *)

Definition name_matches (tbl : list TaskUsageSample) (name : string) (j : nat) : bool :=
  match tbl !! j with
  | Some t => is_active t && strncmp_eq TASK_NAME_SIZE (task_name t) name
  | None => false
  end.

Definition slot_free (tbl : list TaskUsageSample) (j : nat) : bool :=
  match tbl !! j with
  | Some t => negb (is_active t)
  | None => false
  end.

(** Lines 204-207: the slot after [memset], [strncpy] and activation. *)
Definition new_slot (name : string) : TaskUsageSample :=
  {| task_name := strncpy (Nat.pred TASK_NAME_SIZE) name;
     is_active := true;
     consecutive_zero_samples := 0;
     prev_run_time_ticks := 0;
     usage_percent_history := zero_history f32_0;
     stack_usage_bytes_history := zero_history 0;
     stack_usage_percent_history := zero_history f32_0;
     write_index := 0;
     stack_high_water_mark := 0;
     stack_size_bytes := 0;
     task_id := 0;
     current_priority := 0;
     base_priority := 0;
     total_run_time_ticks := 0;
     core_id := 0 |}.

Definition _find_or_create_task_index (name : string) (p : Program) : Z * Program :=
  let n := Z.to_nat (task_capacity (self p)) in
  match find_index n (name_matches (table p) name) with
  | Some j => (Z.of_nat j, p)
  | None =>
      match find_index n (slot_free (table p)) with
      | Some j => (Z.of_nat j, set_table (<[j := new_slot name]> (table p)) p)
      | None => (-1, p)
      end
  end.

(** ** Per-task metrics *)

(** Lines 225-230. *)
Definition delta_task_of (run_time_counter prev_run_time : Z) : Z :=
  if run_time_counter >=? prev_run_time
  then wrap_u32 (run_time_counter - prev_run_time) else 0.

(** Line 234. *)
Definition usage_of (delta_task delta_total : Z) : float :=
  if 0 <? delta_total then percent_of delta_task delta_total else f32_0.

(** The body of [_update_task_history] on the slot it addresses. *)
Definition update_slot (env : CycleEnv) (ts : TaskStatus_t) (delta_total : Z)
    (t : TaskUsageSample) : TaskUsageSample :=
  let delta_task := delta_task_of (ulRunTimeCounter ts) (prev_run_time_ticks t) in
  let usage := usage_of delta_task delta_total in
  let w := Z.to_nat (write_index t) in
  let stack_hwm_bytes := wrap_u32 (usStackHighWaterMark ts * STACK_TYPE_SIZE) in
  let stack_size := match stack_registry env (xHandle ts) with
                    | Some v => v
                    | None => 0
                    end in
  let stack_used_bytes :=
    if (0 <? stack_size) && (stack_hwm_bytes <? stack_size)
    then wrap_u32 (stack_size - stack_hwm_bytes) else 0 in
  let stack_usage_percent :=
    if 0 <? stack_size then percent_of stack_used_bytes stack_size else f32_0 in
  {| task_name := task_name t;
     is_active := is_active t;
     consecutive_zero_samples := 0;
     prev_run_time_ticks := ulRunTimeCounter ts;
     usage_percent_history := <[w := usage]> (usage_percent_history t);
     stack_usage_bytes_history := <[w := stack_used_bytes]> (stack_usage_bytes_history t);
     stack_usage_percent_history :=
       <[w := stack_usage_percent]> (stack_usage_percent_history t);
     write_index := Z.rem (wrap_int (write_index t + 1)) CONFIG_SYSMON_SAMPLE_COUNT;
     stack_high_water_mark := usStackHighWaterMark ts;
     stack_size_bytes := stack_size;
     task_id := xTaskNumber ts;
     current_priority := uxCurrentPriority ts;
     base_priority := uxBasePriority ts;
     total_run_time_ticks := ulRunTimeCounter ts;
     core_id := -1 |}.

Definition _update_task_history (env : CycleEnv) (idx : Z) (ts : TaskStatus_t)
    (delta_total : Z) (p : Program) : Program :=
  if idx <? 0 then p
  else
    match table p !! Z.to_nat idx with
    | Some t => set_table (<[Z.to_nat idx := update_slot env ts delta_total t]> (table p)) p
    | None => p
    end.

(** ** Eviction *)

(** Lines 284-299 on one active slot that was not seen. *)
Definition miss_slot (t : TaskUsageSample) : TaskUsageSample :=
  let misses := wrap_int (consecutive_zero_samples t + 1) in
  let w := Z.to_nat (write_index t) in
  let evict := CONFIG_SYSMON_SAMPLE_COUNT <=? misses in
  {| task_name := task_name t;
     is_active := if evict then false else is_active t;
     consecutive_zero_samples := if evict then 0 else misses;
     prev_run_time_ticks := prev_run_time_ticks t;
     usage_percent_history := <[w := f32_0]> (usage_percent_history t);
     stack_usage_bytes_history := <[w := 0]> (stack_usage_bytes_history t);
     stack_usage_percent_history := <[w := f32_0]> (stack_usage_percent_history t);
     write_index := Z.rem (wrap_int (write_index t + 1)) CONFIG_SYSMON_SAMPLE_COUNT;
     stack_high_water_mark := stack_high_water_mark t;
     stack_size_bytes := stack_size_bytes t;
     task_id := task_id t;
     current_priority := current_priority t;
     base_priority := base_priority t;
     total_run_time_ticks := total_run_time_ticks t;
     core_id := core_id t |}.

(** One turn of the loop of [_process_deleted_tasks]. *)
Definition evict_slot (tasks_seen : list bool) (j : nat)
    (tbl : list TaskUsageSample) : list TaskUsageSample :=
  match tbl !! j, tasks_seen !! j with
  | Some t, Some seen =>
      if is_active t && negb seen then <[j := miss_slot t]> tbl else tbl
  | _, _ => tbl
  end.

Definition _process_deleted_tasks (tasks_seen : list bool) (p : Program) : Program :=
  set_table
    (for_loop (Z.to_nat (task_capacity (self p))) (evict_slot tasks_seen) (table p)) p.

(** ** Core and overall CPU usage *)

Definition _calculate_cpu_metrics (env : CycleEnv) (num_returned delta_total : Z)
    (p : Program) : (float * float * float) * Program :=
  let '(idle_ticks_0, idle_ticks_1) :=
    idle_ticks (idle_handle_0 env) (idle_handle_1 env) num_returned (scratch p) in
  let delta_idle_0 := delta_idle idle_ticks_0 (prev_idle_ticks_0 p) in
  let delta_idle_1 := delta_idle idle_ticks_1 (prev_idle_ticks_1 p) in
  let core_usage_0 := core_usage delta_idle_0 delta_total in
  let core_usage_1 := core_usage delta_idle_1 delta_total in
  ((core_usage_0, core_usage_1, overall_usage core_usage_0 core_usage_1),
   {| self := self p;
      prev_idle_ticks_0 := idle_ticks_0;
      prev_idle_ticks_1 := idle_ticks_1;
      log_counter := log_counter p;
      heap := heap p |}).

(** ** Heap statistics *)

Definition used_percent (total free_bytes : Z) : float :=
  let used := if free_bytes <? total then wrap_u32 (total - free_bytes) else 0 in
  if 0 <? total then percent_of used total else f32_0.

Definition _collect_memory_stats (env : CycleEnv) (p : Program) : MemoryStats * Program :=
  let p1 := if 0 <? spiram_total env
            then set_self (set_psram_seen true (self p)) p else p in
  ({| ms_dram_free := internal_free env;
      ms_dram_min_free := internal_min_free env;
      ms_dram_largest := internal_largest env;
      ms_dram_total := internal_total env;
      ms_dram_used_percent := used_percent (internal_total env) (internal_free env);
      ms_psram_free := spiram_free env;
      ms_psram_total := spiram_total env;
      ms_psram_used_percent := used_percent (spiram_total env) (spiram_free env) |},
   p1).

(** ** Global series *)

Definition _update_series_buffers (overall core_0 core_1 : float) (m : MemoryStats)
    (p : Program) : Program :=
  let s := self p in
  let w := Z.to_nat (series_write_index s) in
  set_self
    {| tasks := tasks s; task_status := task_status s;
       task_capacity := task_capacity s;
       prev_total_run_time := prev_total_run_time s;
       psram_seen := psram_seen s;
       series_write_index :=
         Z.rem (wrap_int (series_write_index s + 1)) CONFIG_SYSMON_SAMPLE_COUNT;
       cpu_overall_percent := <[w := overall]> (cpu_overall_percent s);
       cpu_core_percent_0 := <[w := core_0]> (cpu_core_percent_0 s);
       cpu_core_percent_1 := <[w := core_1]> (cpu_core_percent_1 s);
       dram_free := <[w := ms_dram_free m]> (dram_free s);
       dram_min_free := <[w := ms_dram_min_free m]> (dram_min_free s);
       dram_largest_block := <[w := ms_dram_largest m]> (dram_largest_block s);
       dram_total := <[w := ms_dram_total m]> (dram_total s);
       dram_used_percent := <[w := ms_dram_used_percent m]> (dram_used_percent s);
       psram_free := <[w := ms_psram_free m]> (psram_free s);
       psram_total := <[w := ms_psram_total m]> (psram_total s);
       psram_used_percent := <[w := ms_psram_used_percent m]> (psram_used_percent s);
       monitor_task_handle := monitor_task_handle s |} p.

(** ** The sampling loop *)

(** Lines 492-510 for the snapshot entry of index [i]: resolve the slot,
    update its history and mark it seen. *)
Definition track_task (env : CycleEnv) (delta_total : Z) (i : nat)
    (st : Program * list bool) : Program * list bool :=
  let '(p, tasks_seen) := st in
  match scratch p !! i with
  | Some t =>
      match pcTaskName t with
      | Some name =>
          let '(idx, p1) := _find_or_create_task_index name p in
          if idx =? -1 then (p1, tasks_seen)
          else (_update_task_history env idx t delta_total p1,
                <[Z.to_nat idx := true]> tasks_seen)
      | None => st
      end
  | None => st
  end.

(** One iteration of the [for (;;)] of [sysmon_monitor]; the delay between
    iterations is not modelled. *)
Definition sysmon_monitor_iteration (env : CycleEnv) (p : Program) : Program :=
  let '(ok, p1) := _ensure_task_storage_capacity env p in
  if negb ok then p1
  else
    match _sample_task_states env p1 with
    | (None, p2) => p2
    | (Some (num_returned, delta_total), p2) =>
        let p3 := {| self := self p2;
                     prev_idle_ticks_0 := prev_idle_ticks_0 p2;
                     prev_idle_ticks_1 := prev_idle_ticks_1 p2;
                     log_counter := wrap_int (log_counter p2 + 1);
                     heap := heap p2 |} in
        match alloc (calloc_seen_ok env) (heap p3) with
        | (None, _) => p3
        | (Some a_seen, h1) =>
            let seen0 := replicate (Z.to_nat (task_capacity (self p3))) false in
            let '(p4, tasks_seen) :=
              for_loop (Z.to_nat num_returned) (track_task env delta_total)
                       (set_heap h1 p3, seen0) in
            let p5 := _process_deleted_tasks tasks_seen p4 in
            let p6 := set_heap (free (Some a_seen) (heap p5)) p5 in
            let '(usage, p7) := _calculate_cpu_metrics env num_returned delta_total p6 in
            let '(core_0, core_1, overall) := usage in
            let '(m, p8) := _collect_memory_stats env p7 in
            _update_series_buffers overall core_0 core_1 m p8
        end
    end.

(** The loop over the successive answers of the platform. *)
Definition sysmon_monitor (envs : list CycleEnv) (p : Program) : Program :=
  fold_left (fun q env => sysmon_monitor_iteration env q) envs p.

(** ** Lifecycle *)

(** [sysmon_deinit]; the HTTP server, the deleted task and the stack
    registry own no part of [Program]. *)
Definition sysmon_deinit (p : Program) : Program :=
  let s := self p in
  {| self := set_prev_total_run_time 0
               (set_storage None None 0 (set_monitor_task_handle None s));
     prev_idle_ticks_0 := prev_idle_ticks_0 p;
     prev_idle_ticks_1 := prev_idle_ticks_1 p;
     log_counter := log_counter p;
     heap := free (base <$> task_status s) (free (base <$> tasks s) (heap p)) |}.

(** [sysmon_init], returning the error code. *)
Definition sysmon_init (env : InitEnv) (p : Program) : Z * Program :=
  if negb (wifi_err env =? ESP_OK) then (wifi_err env, p)
  else if negb (http_err env =? ESP_OK) then (http_err env, p)
  else
    match monitor_task_handle (self p) with
    | Some _ => (ESP_OK, p)
    | None =>
        match task_create env with
        | Some h => (ESP_OK, set_self (set_monitor_task_handle (Some h) (self p)) p)
        | None => (ESP_FAIL, p)
        end
    end.

(** ** Operations of the program and the states they reach *)

(** The kernel reports NUL-terminated names of at most
    [configMAX_TASK_NAME_LEN - 1] characters. *)
Definition kernel_name (name : string) : Prop :=
  (String.length name < configMAX_TASK_NAME_LEN)%nat.

(** A name that the name field of a slot holds with its terminator. *)
Definition name_fits (name : string) : Prop :=
  (String.length name < TASK_NAME_SIZE)%nat.

Definition entry_ok (t : TaskStatus_t) : Prop :=
  forall name, pcTaskName t = Some name -> kernel_name name.

Definition env_ok (env : CycleEnv) : Prop :=
  Forall entry_ok (ka_entries (probe env)) /\
  Forall entry_ok (ka_entries (snapshot env)).

Inductive Op : Type :=
  | OpInit (e : InitEnv)
  | OpDeinit
  | OpIteration (e : CycleEnv)
  | OpEnsureCapacity (e : CycleEnv)
  | OpSample (e : CycleEnv)
  | OpResolve (name : string)
  | OpUpdateHistory (e : CycleEnv) (idx : Z) (ts : TaskStatus_t) (delta_total : Z)
  | OpProcessDeleted (tasks_seen : list bool)
  | OpCpuMetrics (e : CycleEnv) (num_returned delta_total : Z)
  | OpMemoryStats (e : CycleEnv)
  | OpSeries (overall core_0 core_1 : float) (m : MemoryStats).

Definition exec (o : Op) (p : Program) : Program :=
  match o with
  | OpInit e => snd (sysmon_init e p)
  | OpDeinit => sysmon_deinit p
  | OpIteration e => sysmon_monitor_iteration e p
  | OpEnsureCapacity e => snd (_ensure_task_storage_capacity e p)
  | OpSample e => snd (_sample_task_states e p)
  | OpResolve name => snd (_find_or_create_task_index name p)
  | OpUpdateHistory e idx ts delta_total => _update_task_history e idx ts delta_total p
  | OpProcessDeleted tasks_seen => _process_deleted_tasks tasks_seen p
  | OpCpuMetrics e num_returned delta_total =>
      snd (_calculate_cpu_metrics e num_returned delta_total p)
  | OpMemoryStats e => snd (_collect_memory_stats e p)
  | OpSeries overall core_0 core_1 m => _update_series_buffers overall core_0 core_1 m p
  end.

Definition op_ok (o : Op) : Prop :=
  match o with
  | OpIteration e | OpEnsureCapacity e | OpSample e => env_ok e
  | OpResolve name => kernel_name name
  | _ => True
  end.

Definition run (ops : list Op) (p : Program) : Program :=
  fold_left (fun q o => exec o q) ops p.

(** States reached from the initial state by the operations of the
    program, in any order: the public entry points, whole iterations of
    the sampler, and each helper on its own (the points inside an
    iteration). *)
Inductive reachable : Program -> Prop :=
  | reachable_init : reachable program_init
  | reachable_step (o : Op) (p : Program) :
      op_ok o -> reachable p -> reachable (exec o p).

(** At most one active slot carries a given name. *)
Definition unique_active (tbl : list TaskUsageSample) : Prop :=
  forall i j ti tj,
    tbl !! i = Some ti -> tbl !! j = Some tj ->
    is_active ti = true -> is_active tj = true ->
    task_name ti = task_name tj -> i = j.

Definition names_fit (tbl : list TaskUsageSample) : Prop :=
  forall j t, tbl !! j = Some t -> is_active t = true -> name_fits (task_name t).

(** The invariant of the task storage. *)
Definition table_inv (p : Program) : Prop :=
  length (table p) = Z.to_nat (task_capacity (self p)) /\
  names_fit (table p) /\
  unique_active (table p) /\
  Forall entry_ok (scratch p).

(** The cursor and the three histories of a slot are in step with the
    history depth. *)
Definition slot_wf (t : TaskUsageSample) : Prop :=
  0 <= write_index t < CONFIG_SYSMON_SAMPLE_COUNT /\
  length (usage_percent_history t) = Z.to_nat CONFIG_SYSMON_SAMPLE_COUNT /\
  length (stack_usage_bytes_history t) = Z.to_nat CONFIG_SYSMON_SAMPLE_COUNT /\
  length (stack_usage_percent_history t) = Z.to_nat CONFIG_SYSMON_SAMPLE_COUNT.

(** Successive eviction passes, one per cycle. *)
Definition evict_run (seens : list (list bool)) (p : Program) : Program :=
  fold_left (fun q tasks_seen => _process_deleted_tasks tasks_seen q) seens p.


(** Effect of one eviction pass on the slot of index [j]. *)
Definition evicted (tasks_seen : list bool) (j : nat) (t : TaskUsageSample) : TaskUsageSample :=
  match tasks_seen !! j with
  | Some false => if is_active t then miss_slot t else t
  | _ => t
  end.

(** [tbl'] has the slots of [tbl] with the same names, none of them
    newly active. *)
Definition slots_shrink (tbl tbl' : list TaskUsageSample) : Prop :=
  length tbl' = length tbl /\
  forall j t', tbl' !! j = Some t' ->
    exists t, tbl !! j = Some t /\ task_name t' = task_name t /\
              (is_active t' = true -> is_active t = true).

(** The scratch array has as many cells as the table has slots. *)
Definition scratch_wf (p : Program) : Prop :=
  length (scratch p) = Z.to_nat (task_capacity (self p)).

(** Every slot of the table is in step with the history depth. *)
Definition slots_wf (p : Program) : Prop := Forall slot_wf (table p).

(** ** Heap, storage and series invariants *)

(** The block of a heap array, none for a NULL pointer. *)
Definition block_set {A : Type} (b : option (buffer A)) : gset positive :=
  match b with
  | Some x => {[base x]}
  | None => ∅
  end.

(** The live heap blocks are the table and the scratch array, which are
    two different blocks. *)
Definition heap_owned (p : Program) : Prop :=
  heap p = block_set (tasks (self p)) ∪ block_set (task_status (self p)) /\
  forall tb sb, tasks (self p) = Some tb -> task_status (self p) = Some sb ->
    base tb <> base sb.

(** Shape of the task storage: both arrays have [task_capacity] cells,
    the capacity is within its cap, and the pointers are NULL exactly when
    the capacity is 0. *)
Definition storage_wf (p : Program) : Prop :=
  0 <= task_capacity (self p) <= SYSMON_MAX_TRACKED_TASKS /\
  length (table p) = Z.to_nat (task_capacity (self p)) /\
  length (scratch p) = Z.to_nat (task_capacity (self p)) /\
  (tasks (self p) = None <-> task_capacity (self p) = 0) /\
  (task_status (self p) = None <-> task_capacity (self p) = 0).

(** The miss counter of a slot stays below the eviction threshold and is
    zero in an inactive slot. *)
Definition counter_wf (t : TaskUsageSample) : Prop :=
  0 <= consecutive_zero_samples t < CONFIG_SYSMON_SAMPLE_COUNT /\
  (is_active t = false -> consecutive_zero_samples t = 0).

(** The global series of [self]: the cursor and the eleven buffers. *)
Definition series_of (s : SysMonState) :=
  (series_write_index s,
   (cpu_overall_percent s, cpu_core_percent_0 s, cpu_core_percent_1 s),
   (dram_free s, dram_min_free s, dram_largest_block s, dram_total s,
    dram_used_percent s),
   (psram_free s, psram_total s, psram_used_percent s)).

(** The task [name] is tracked: an active slot carries the name, has no
    miss counted and is marked as seen. *)
Definition tracked (name : string) (tbl : list TaskUsageSample)
    (tasks_seen : list bool) : Prop :=
  exists j t, tbl !! j = Some t /\ is_active t = true /\ task_name t = name /\
              consecutive_zero_samples t = 0 /\ tasks_seen !! j = Some true.

(** No slot of the table is free. *)
Definition table_full (tbl : list TaskUsageSample) : Prop :=
  forall j t, tbl !! j = Some t -> is_active t = true.

(** The entries of a ring buffer [h] in the order they were written,
    oldest first: the write cursor [w] is the position of the oldest entry,
    the next one to be overwritten. *)
Definition chronological {A : Type} (w : Z) (h : list A) : list A :=
  drop (Z.to_nat w) h ++ take (Z.to_nat w) h.

(** The series cursor is inside the eleven series buffers of
    [CONFIG_SYSMON_SAMPLE_COUNT] entries. *)
Definition series_wf (s : SysMonState) : Prop :=
  let n := Z.to_nat CONFIG_SYSMON_SAMPLE_COUNT in
  0 <= series_write_index s < CONFIG_SYSMON_SAMPLE_COUNT /\
  (length (cpu_overall_percent s) = n /\ length (cpu_core_percent_0 s) = n /\
   length (cpu_core_percent_1 s) = n) /\
  (length (dram_free s) = n /\ length (dram_min_free s) = n /\
   length (dram_largest_block s) = n /\ length (dram_total s) = n /\
   length (dram_used_percent s) = n) /\
  (length (psram_free s) = n /\ length (psram_total s) = n /\
   length (psram_used_percent s) = n).

(** ** Recorded percentages *)

(** Steps 5 to 7 of an iteration (lines 516-531): the CPU metrics, the
    heap statistics and the write of both into the series. *)
Definition record_metrics (env : CycleEnv) (num_returned delta_total : Z)
    (p : Program) : Program :=
  let '(usage, p7) := _calculate_cpu_metrics env num_returned delta_total p in
  let '(core_0, core_1, overall) := usage in
  let '(m, p8) := _collect_memory_stats env p7 in
  _update_series_buffers overall core_0 core_1 m p8.

(** The heap figures the platform answers are unsigned 32-bit values. *)
Definition heap_figures_u32 (env : CycleEnv) : Prop :=
  is_u32 (internal_total env) /\ is_u32 (internal_free env) /\
  is_u32 (spiram_total env) /\ is_u32 (spiram_free env).

(** The registered stack sizes are unsigned 32-bit values. *)
Definition stack_sizes_u32 (env : CycleEnv) : Prop :=
  forall h v, stack_registry env h = Some v -> is_u32 v.

(** The platform answers used by an operation satisfy [E]. *)
Definition op_env (E : CycleEnv -> Prop) (o : Op) : Prop :=
  match o with
  | OpIteration e | OpEnsureCapacity e | OpSample e | OpUpdateHistory e _ _ _
  | OpCpuMetrics e _ _ | OpMemoryStats e => E e
  | _ => True
  end.

(** The operations a user of the module can cause: the two public entry
    points and whole iterations of the sampler, on platform answers that
    satisfy [E]. *)
Definition entry_point (E : CycleEnv -> Prop) (o : Op) : Prop :=
  match o with
  | OpInit _ | OpDeinit => True
  | OpIteration e => E e
  | _ => False
  end.

(** Every entry of the three CPU series lies in [0, 100]. *)
Definition cpu_series_ok (s : SysMonState) : Prop :=
  Forall in_0_100 (cpu_overall_percent s) /\
  Forall in_0_100 (cpu_core_percent_0 s) /\
  Forall in_0_100 (cpu_core_percent_1 s).

(** Every entry of the two memory percentage series lies in [0, 100]. *)
Definition mem_series_ok (s : SysMonState) : Prop :=
  Forall in_0_100 (dram_used_percent s) /\
  Forall in_0_100 (psram_used_percent s).

(** ** Cycles that miss a task *)

(** The iteration runs to its eviction pass (lines 459-513): the capacity
    step succeeds, the snapshot returns at least one task and
    [tasks_seen] is allocated. *)
Definition cycle_completes (env : CycleEnv) (p : Program) : bool :=
  let '(ok, p1) := _ensure_task_storage_capacity env p in
  ok && match fst (_sample_task_states env p1) with
        | Some _ => calloc_seen_ok env
        | None => false
        end.

(** No task that the kernel lists in the snapshot of the cycle has a name
    that compares equal to [name] over the name field (the comparison of
    line 193). *)
Definition not_listed (env : CycleEnv) (name : string) : bool :=
  forallb (fun ts => match pcTaskName ts with
                     | Some nm => negb (strncmp_eq TASK_NAME_SIZE name nm)
                     | None => true
                     end)
          (ka_entries (snapshot env)).

(** Each of the successive cycles [envs], from the state [p] on, runs to
    its eviction pass and has no task called [name] in its snapshot. *)
Fixpoint missed_cycles (name : string) (envs : list CycleEnv) (p : Program) : bool :=
  match envs with
  | [] => true
  | env :: rest =>
      cycle_completes env p && not_listed env name &&
      missed_cycles name rest (sysmon_monitor_iteration env p)
  end.

(** * Properties *)

(** ** Rounding to binary32 *)

Lemma digits2_size p : digits2_pos p = Pos.size p.
Proof. induction p; simpl; congruence. Qed.

(** [digits2_pos p] is the number of binary digits of [p]. *)
Lemma digits2_bounds p : 2 ^ (Zpos (digits2_pos p) - 1) <= Zpos p < 2 ^ Zpos (digits2_pos p).
Proof.
  rewrite digits2_size. split.
  - pose proof (Pos.size_le p) as H.
    assert (Hs : Zpos (2 ^ Pos.size p) = 2 ^ Zpos (Pos.size p)) by apply Pos2Z.inj_pow.
    assert (H2 : 2 ^ Zpos (Pos.size p) = 2 * 2 ^ (Zpos (Pos.size p) - 1)).
    { rewrite <- Z.pow_succ_r by lia. f_equal. lia. }
    lia.
  - pose proof (Pos.size_gt p) as H.
    assert (Hs : Zpos (2 ^ Pos.size p) = 2 ^ Zpos (Pos.size p)) by apply Pos2Z.inj_pow.
    lia.
Qed.

(** One right shift halves the mantissa, moves its low bit to the round
    bit and accumulates the old round bit into the sticky bit. *)
Lemma shr_1_spec m r s : 0 <= m ->
  shr_1 (Build_shr_record m r s) = Build_shr_record (m / 2) (Z.odd m) (r || s).
Proof.
  intros Hm. destruct m as [|p|p]; [reflexivity| |lia].
  destruct p as [p|p|]; cbn [shr_1].
  - f_equal. rewrite Pos2Z.inj_xI. apply Z.div_unique with 1; lia.
  - f_equal. rewrite Pos2Z.inj_xO. apply Z.div_unique with 0; lia.
  - reflexivity.
Qed.

Lemma shr_inv_step M k mrs : 0 <= M -> 0 <= k ->
  shr_inv M k mrs -> shr_inv M (k + 1) (shr_1 mrs).
Proof.
  intros HM Hk [Hm Hrs]. destruct mrs as [m r s]. cbn [shr_m shr_r shr_s] in *.
  assert (H2k : 0 < 2 ^ k) by (apply Z.pow_pos_nonneg; lia).
  assert (Hm0 : 0 <= m) by (subst m; apply Z.div_pos; lia).
  rewrite shr_1_spec by exact Hm0. unfold shr_inv. cbn [shr_m shr_r shr_s].
  rewrite Z.pow_add_r, Z.pow_1_r by lia.
  split.
  - subst m. rewrite Z.div_div by lia. reflexivity.
  - rewrite Z.rem_mul_r by lia. rewrite <- Hm.
    pose proof (Z.mod_pos_bound M (2 ^ k) H2k) as Hb.
    pose proof (Z.mod_pos_bound m 2 ltac:(lia)) as Hb2.
    rewrite Zodd_mod. 
    destruct (Z.eq_dec (m mod 2) 0) as [E|E].
    + rewrite E. simpl. rewrite Hrs. lia.
    + assert (m mod 2 = 1) as -> by lia. simpl. split; [discriminate|]. nia.
Qed.

(** [p] further shifts extend the shift invariant from [k] to [k + p]. *)
Lemma shr_inv_iter M p : 0 <= M -> forall k mrs, 0 <= k ->
  shr_inv M k mrs -> shr_inv M (k + Zpos p) (SpecFloat.iter_pos shr_1 p mrs).
Proof.
  intros HM. induction p as [p IH|p IH|]; intros k mrs Hk H; simpl.
  - replace (k + Zpos p~1) with (((k + 1) + Zpos p) + Zpos p) by lia.
    apply IH; [lia|]. apply IH; [lia|]. apply shr_inv_step; assumption.
  - replace (k + Zpos p~0) with ((k + Zpos p) + Zpos p) by lia.
    apply IH; [lia|]. apply IH; assumption.
  - apply shr_inv_step; assumption.
Qed.

Lemma shr_exact_spec M p : 0 <= M ->
  shr_inv M (Zpos p) (SpecFloat.iter_pos shr_1 p (Build_shr_record M false false)).
Proof.
  intros HM. change (Zpos p) with (0 + Zpos p) at 1. apply shr_inv_iter; [assumption|lia|].
  unfold shr_inv. simpl. rewrite Z.div_1_r, Z.mod_1_r. tauto.
Qed.

Lemma fexp_eq k : fexp prec emax k = Z.max (k - 24) (-149).
Proof. reflexivity. Qed.

Lemma digits2_le_of_lt p k : 0 <= k -> Zpos p < 2 ^ k -> Zpos (digits2_pos p) <= k.
Proof.
  intros Hk H. pose proof (digits2_bounds p) as [Hl _].
  destruct (Z_le_gt_dec (Zpos (digits2_pos p)) k) as [|Hgt]; [assumption|exfalso].
  assert (2 ^ k <= 2 ^ (Zpos (digits2_pos p) - 1)) by (apply Z.pow_le_mono_r; lia).
  lia.
Qed.

Lemma shr_fexp_noshift m e l :
  fexp prec emax (Zdigits2 m + e) - e <= 0 ->
  shr_fexp prec emax m e l = (shr_record_of_loc m l, e).
Proof.
  intros H. unfold shr_fexp, shr.
  destruct (fexp prec emax (Zdigits2 m + e) - e); try reflexivity. lia.
Qed.

Lemma shr_fexp_shift M e n :
  0 <= M -> n = fexp prec emax (Zdigits2 M + e) - e -> 0 < n ->
  exists mrs, shr_fexp prec emax M e loc_Exact = (mrs, e + n) /\ shr_inv M n mrs.
Proof.
  intros HM Hn Hpos. unfold shr_fexp, shr. rewrite <- Hn.
  destruct n as [|p|p]; try lia.
  eexists; split; [reflexivity|]. apply shr_exact_spec; assumption.
Qed.

Lemma round_nearest_even_cases m l :
  round_nearest_even m l = m \/ round_nearest_even m l = m + 1.
Proof.
  destruct l as [|[| |]]; simpl; auto. destruct (Z.even m); auto.
Qed.

(** Rounding an exact mantissa that already fits the format returns it
    unchanged. *)
Lemma bra_exact_small s M e :
  fexp prec emax (Zpos (digits2_pos M) + e) - e <= 0 ->
  binary_round_aux prec emax s (Zpos M) e loc_Exact = fin_or_inf s M e.
Proof.
  intros H. unfold binary_round_aux.
  rewrite shr_fexp_noshift by exact H. cbn [shr_record_of_loc shr_m loc_of_shr_record round_nearest_even].
  rewrite shr_fexp_noshift by exact H. reflexivity.
Qed.

(** Rounding an exact mantissa that must lose [n] bits: the result is the
    truncated mantissa or its successor (the truncated one when nothing
    is lost), renormalised to [2 ^ 23] one exponent higher when the
    successor reaches [2 ^ 24]. *)
Lemma bra_exact_shift s M e n :
  n = fexp prec emax (Zpos (digits2_pos M) + e) - e -> 0 < n ->
  exists m2, (m2 = Zpos M / 2 ^ n \/ m2 = Zpos M / 2 ^ n + 1) /\
    (Zpos M mod 2 ^ n = 0 -> m2 = Zpos M / 2 ^ n) /\
    0 <= m2 <= 2 ^ 24 /\
    binary_round_aux prec emax s (Zpos M) e loc_Exact =
      match m2 with
      | Z0 => S754_zero s
      | Zpos q => if m2 =? 2 ^ 24 then fin_or_inf s (2 ^ 23) (e + n + 1)
                  else fin_or_inf s q (e + n)
      | Zneg _ => S754_nan
      end.
Proof.
  intros Hn Hpos.
  destruct (shr_fexp_shift (Zpos M) e n ltac:(lia) Hn Hpos) as (mrs & Hshr & Hm & Hrs).
  assert (H2n : 0 < 2 ^ n) by (apply Z.pow_pos_nonneg; lia).
  assert (Hlt : Zpos M / 2 ^ n < 2 ^ 24).
  { apply Z.div_lt_upper_bound; [lia|].
    pose proof (digits2_bounds M) as [_ Hu].
    rewrite <- Z.pow_add_r by lia.
    eapply Z.lt_le_trans; [exact Hu|]. apply Z.pow_le_mono_r; [lia|].
    rewrite fexp_eq in Hn. lia. }
  assert (Hge : 0 <= Zpos M / 2 ^ n) by (apply Z.div_pos; lia).
  assert (He' : -149 <= e + n) by (rewrite fexp_eq in Hn; lia).
  set (m2 := round_nearest_even (shr_m mrs) (loc_of_shr_record mrs)).
  exists m2. 
  assert (Hc : m2 = Zpos M / 2 ^ n \/ m2 = Zpos M / 2 ^ n + 1).
  { unfold m2. rewrite <- Hm. apply round_nearest_even_cases. }
  split; [exact Hc|]. split.
  { intros Hz. apply Hrs in Hz. unfold m2. rewrite <- Hm.
    destruct mrs as [mm [|] [|]]; simpl in Hz; try discriminate. reflexivity. }
  split; [lia|].
  unfold binary_round_aux. rewrite Hshr. fold m2.
  destruct m2 as [|q|q] eqn:Eq; [| |lia].
  - rewrite shr_fexp_noshift; [reflexivity|]. simpl Zdigits2. rewrite fexp_eq. lia.
  - destruct (Z.eqb_spec (Zpos q) (2 ^ 24)) as [E|E].
    + assert (q = 16777216%positive) as -> by lia. unfold shr_fexp. rewrite fexp_eq.
      change (Zdigits2 16777216) with 25.
      replace (Z.max (25 + (e + n) - 24) (-149) - (e + n)) with 1 by lia.
      reflexivity.
    + rewrite shr_fexp_noshift; [reflexivity|]. simpl Zdigits2. rewrite fexp_eq.
      assert (Zpos (digits2_pos q) <= 24) by (apply digits2_le_of_lt; lia).
      lia.
Qed.

Lemma iter_shr_1_nonneg p : forall mrs, 0 <= shr_m mrs -> 0 <= shr_m (SpecFloat.iter_pos shr_1 p mrs).
Proof.
  assert (H1 : forall mrs, 0 <= shr_m mrs -> 0 <= shr_m (shr_1 mrs)).
  { intros [m r s] Hm. cbn [shr_m] in Hm. rewrite shr_1_spec by assumption.
    cbn [shr_m]. apply Z.div_pos; lia. }
  induction p as [p IH|p IH|]; intros mrs Hm; simpl; auto.
Qed.

Lemma shr_fexp_nonneg m e l : 0 <= m -> 0 <= shr_m (fst (shr_fexp prec emax m e l)).
Proof.
  intros Hm. unfold shr_fexp, shr.
  assert (H0 : 0 <= shr_m (shr_record_of_loc m l)) by (destruct l as [|[| |]]; exact Hm).
  destruct (fexp prec emax (Zdigits2 m + e) - e); cbn [fst]; try exact H0.
  apply iter_shr_1_nonneg, H0.
Qed.

(** Rounding a nonnegative mantissa never yields a NaN. *)
Lemma bra_not_nan s m e l : 0 <= m -> binary_round_aux prec emax s m e l <> S754_nan.
Proof.
  intros Hm. unfold binary_round_aux.
  pose proof (shr_fexp_nonneg m e l Hm) as H1.
  destruct (shr_fexp prec emax m e l) as [mrs1 e1]. cbn [fst] in H1.
  set (m2 := round_nearest_even (shr_m mrs1) (loc_of_shr_record mrs1)).
  assert (H2 : 0 <= m2).
  { unfold m2. destruct (round_nearest_even_cases (shr_m mrs1) (loc_of_shr_record mrs1)) as [-> | ->]; lia. }
  pose proof (shr_fexp_nonneg m2 e1 loc_Exact H2) as H3.
  destruct (shr_fexp prec emax m2 e1 loc_Exact) as [mrs2 e2]. cbn [fst] in H3.
  destruct (shr_m mrs2); [discriminate| |lia].
  destruct (e2 <=? emax - prec); discriminate.
Qed.

Lemma fin_or_inf_bounded s m e : Zpos m < 2 ^ 24 -> f32_bounded (fin_or_inf s m e).
Proof. intros H. unfold fin_or_inf. destruct (e <=? emax - prec); simpl; auto. Qed.

Lemma bra_exact_bounded s M e : f32_bounded (binary_round_aux prec emax s (Zpos M) e loc_Exact).
Proof.
  destruct (Z_le_gt_dec (fexp prec emax (Zpos (digits2_pos M) + e) - e) 0) as [Hn|Hn].
  - rewrite bra_exact_small by exact Hn. apply fin_or_inf_bounded.
    pose proof (digits2_bounds M) as [_ Hu]. rewrite fexp_eq in Hn.
    eapply Z.lt_le_trans; [exact Hu|]. apply Z.pow_le_mono_r; lia.
  - destruct (bra_exact_shift s M e _ eq_refl ltac:(lia)) as (m2 & _ & _ & Hb & ->).
    destruct m2 as [|q|q]; [exact I| |exact I].
    destruct (Z.eqb_spec (Zpos q) (2 ^ 24)); apply fin_or_inf_bounded; [reflexivity|lia].
Qed.

Lemma pos_iter_xO p d : Zpos (Pos.iter xO p d) = Zpos p * 2 ^ Zpos d.
Proof.
  induction d as [|d IH] using Pos.peano_ind.
  - simpl. lia.
  - rewrite Pos.iter_succ, Pos2Z.inj_xO, IH, Pos2Z.inj_succ, Z.pow_succ_r by lia. lia.
Qed.

Lemma shl_align_spec mx ex ex' :
  exists mz, shl_align mx ex ex' = (mz, Z.min ex ex') /\
             Zpos mz = Zpos mx * 2 ^ (ex - Z.min ex ex').
Proof.
  unfold shl_align. destruct (ex' - ex) as [|p|p] eqn:E.
  - exists mx. replace (Z.min ex ex') with ex by lia. rewrite Z.sub_diag. split; [reflexivity|simpl; lia].
  - exists mx. replace (Z.min ex ex') with ex by lia. rewrite Z.sub_diag. split; [reflexivity|simpl; lia].
  - eexists. replace (Z.min ex ex') with ex' by lia. split; [reflexivity|].
    rewrite pos_iter_xO. f_equal. f_equal. lia.
Qed.

Lemma binary_normalize_bounded z e sz : f32_bounded (binary_normalize prec emax z e sz).
Proof.
  destruct z as [|p|p]; simpl; auto; unfold binary_round;
    destruct (shl_align _ _ _) as [mz ez]; apply bra_exact_bounded.
Qed.

Lemma binary_normalize_not_nan z e sz : binary_normalize prec emax z e sz <> S754_nan.
Proof.
  destruct z as [|p|p]; simpl; try discriminate; unfold binary_round;
    destruct (shl_align _ _ _) as [mz ez]; apply bra_not_nan; lia.
Qed.

(** [pos_le] gives the two IEEE comparisons. *)
Lemma pos_le_SFleb K eK x : pos_le K eK x ->
  SFleb (S754_zero false) x = true /\ SFleb x (S754_finite false K eK) = true.
Proof.
  destruct x as [s|s| |[|] m e]; cbn [pos_le]; try contradiction.
  - intros _. split; reflexivity.
  - intros [_ H]. split; [reflexivity|]. unfold SFleb, SFcompare.
    destruct H as [H|[-> H]].
    + apply Z.compare_lt_iff in H. rewrite H. reflexivity.
    + rewrite Z.compare_refl. fold (Pos.compare m K).
      destruct (Pos.compare_spec m K); try reflexivity. lia.
Qed.

Lemma fin_or_inf_pos_le K eK m e : e <= 104 ->
  Zpos m < 2 ^ 24 -> (e < eK \/ (e = eK /\ Zpos m <= Zpos K)) ->
  pos_le K eK (fin_or_inf false m e).
Proof.
  intros He Hm H. unfold fin_or_inf. change (emax - prec) with 104.
  destruct (Z.leb_spec e 104); [|lia]. simpl. auto.
Qed.

(** Rounding is monotone against a representable bound: an exact value
    [M * 2 ^ e] that does not exceed [K * 2 ^ eK] rounds to a float that
    does not exceed it either. *)
Lemma bra_pos_le M e K eK :
  2 ^ 23 <= Zpos K < 2 ^ 24 -> -149 <= eK <= 104 -> e < eK ->
  Zpos M <= Zpos K * 2 ^ (eK - e) ->
  pos_le K eK (binary_round_aux prec emax false (Zpos M) e loc_Exact).
Proof.
  intros HK HeK He HM.
  destruct (Z_le_gt_dec (fexp prec emax (Zpos (digits2_pos M) + e) - e) 0) as [Hn|Hn].
  - rewrite bra_exact_small by exact Hn. apply fin_or_inf_pos_le; [lia| |lia].
    pose proof (digits2_bounds M) as [_ Hu]. rewrite fexp_eq in Hn.
    eapply Z.lt_le_trans; [exact Hu|]. apply Z.pow_le_mono_r; lia.
  - remember (fexp prec emax (Zpos (digits2_pos M) + e) - e) as n eqn:En.
    destruct (bra_exact_shift false M e n En ltac:(lia)) as (m2 & Hc & Hex & Hb & ->).
    rewrite fexp_eq in En.
    set (W := eK - e) in *.
    assert (H2W : 0 < 2 ^ W) by (apply Z.pow_pos_nonneg; lia).
    assert (H2n : 0 < 2 ^ n) by (apply Z.pow_pos_nonneg; lia).
    pose proof (digits2_bounds M) as [Hl _].
    destruct (Z_lt_le_dec W n) as [HWn|HWn].
    {
      exfalso.
      assert (Hd : W + 24 <= Zpos (digits2_pos M) - 1) by lia.
      assert (2 ^ (W + 24) <= 2 ^ (Zpos (digits2_pos M) - 1)) by (apply Z.pow_le_mono_r; lia).
      rewrite Z.pow_add_r in H by lia.
      assert (Zpos K * 2 ^ W < 2 ^ 24 * 2 ^ W) by (apply Z.mul_lt_mono_pos_r; lia).
      lia. }
    assert (HnW : n = W -> m2 <= Zpos K).
    { intros ->.
      assert (Hdiv : Zpos M / 2 ^ W <= Zpos K) by (apply Z.div_le_upper_bound; lia).
      destruct (Z.eq_dec (Zpos M / 2 ^ W) (Zpos K)) as [Eq|Neq]; [|lia].
      assert (Hmod : Zpos M mod 2 ^ W = 0).
      { pose proof (Z.div_mod (Zpos M) (2 ^ W) ltac:(lia)) as Hdm.
        pose proof (Z.mod_pos_bound (Zpos M) (2 ^ W) H2W). rewrite Eq in Hdm. lia. }
      rewrite (Hex Hmod). lia. }
    destruct m2 as [|q|q]; [exact I| |lia].
    destruct (Z.eqb_spec (Zpos q) (2 ^ 24)) as [E|E].
    + assert (n <> W) by (intros Hq; apply HnW in Hq; lia).
      apply fin_or_inf_pos_le; [lia|reflexivity|].
      destruct (Z.eq_dec (e + n + 1) eK); [right; split; [assumption|]|left; lia].
      change (Zpos (2 ^ 23)) with (2 ^ 23). lia.
    + apply fin_or_inf_pos_le; [lia|lia|].
      destruct (Z.eq_dec n W) as [Hq|Hne]; [right; split; [lia|auto]|left; lia].
Qed.

Lemma pos_le_weaken K e1 e2 x : e1 < e2 -> pos_le K e1 x -> pos_le K e2 x.
Proof.
  intros He. destruct x as [s|s| |[|] m e]; cbn [pos_le]; auto.
  intros [Hm H]. split; [exact Hm|]. left. lia.
Qed.

Lemma pos_le_100_scaled m e ez : ez <= e ->
  Zpos m < 2 ^ 24 -> (e < -17 \/ (e = -17 /\ Zpos m <= Zpos C100)) ->
  Zpos m * 2 ^ (e - ez) <= Zpos C100 * 2 ^ (-17 - ez).
Proof.
  intros Hez Hm [He|[-> Hle]].
  - assert (H1 : Zpos m * 2 ^ (e - ez) <= 2 ^ 24 * 2 ^ (e - ez)).
    { apply Z.mul_le_mono_nonneg_r; [apply Z.pow_nonneg|]; lia. }
    assert (H2 : 2 ^ 24 * 2 ^ (e - ez) <= 2 ^ 23 * 2 ^ (-17 - ez)).
    { rewrite <- !Z.pow_add_r by lia. apply Z.pow_le_mono_r; lia. }
    assert (H3 : 2 ^ 23 * 2 ^ (-17 - ez) <= Zpos C100 * 2 ^ (-17 - ez)).
    { apply Z.mul_le_mono_nonneg_r; [apply Z.pow_nonneg; lia|]. unfold C100. lia. }
    lia.
  - apply Z.mul_le_mono_nonneg_r; [apply Z.pow_nonneg; lia|]. exact Hle.
Qed.

Lemma shl_align_fst mx ex ez : ez <= ex ->
  Zpos (fst (shl_align mx ex ez)) = Zpos mx * 2 ^ (ex - ez).
Proof.
  intros H. destruct (shl_align_spec mx ex ez) as (mz & -> & Hmz).
  cbn [fst]. rewrite Hmz. replace (Z.min ex ez) with ez by lia. reflexivity.
Qed.

(** The sum of two floats of [0, 100] is a float of [0, 200]. *)
Lemma SFadd_le_200 a b :
  pos_le C100 (-17) a -> pos_le C100 (-17) b ->
  pos_le C100 (-16) (SFadd prec emax a b).
Proof.
  intros Ha Hb.
  destruct a as [sa|sa| |[|] ma ea]; cbn [pos_le] in Ha; try contradiction;
  destruct b as [sb|sb| |[|] mb eb]; cbn [pos_le] in Hb; try contradiction.
  - destruct sa, sb; exact I.
  - apply pos_le_weaken with (-17); [lia|exact Hb].
  - apply pos_le_weaken with (-17); [lia|exact Ha].
  - destruct Ha as [Hma Ha], Hb as [Hmb Hb].
    cbn [SFadd cond_Zopp]. set (ez := Z.min ea eb).
    rewrite !shl_align_fst by (unfold ez; lia).
    pose proof (pos_le_100_scaled ma ea ez ltac:(unfold ez; lia) Hma Ha) as Ba.
    pose proof (pos_le_100_scaled mb eb ez ltac:(unfold ez; lia) Hmb Hb) as Bb.
    assert (Hpa : 0 < Zpos ma * 2 ^ (ea - ez)) by (apply Z.mul_pos_pos; [lia|apply Z.pow_pos_nonneg; unfold ez; lia]).
    assert (Hpb : 0 < Zpos mb * 2 ^ (eb - ez)) by (apply Z.mul_pos_pos; [lia|apply Z.pow_pos_nonneg; unfold ez; lia]).
    destruct (Zpos ma * 2 ^ (ea - ez) + Zpos mb * 2 ^ (eb - ez)) as [|M|M] eqn:EM; try lia.
    cbn [binary_normalize]. unfold binary_round.
    destruct (shl_align_spec M ez (fexp prec emax (Zpos (digits2_pos M) + ez))) as (mz & -> & Hmz).
    set (e0 := Z.min ez _) in *.
    assert (He0 : e0 <= ez) by (unfold e0; lia).
    assert (Hez : ez <= -17) by (unfold ez; lia).
    apply bra_pos_le; [unfold C100; lia|lia|lia|].
    rewrite Hmz.
    replace (-16 - e0) with ((-17 - ez) + 1 + (ez - e0)) by lia.
    rewrite !Z.pow_add_r by lia. rewrite Z.pow_1_r.
    assert (0 <= 2 ^ (ez - e0)) by (apply Z.pow_nonneg; lia).
    assert (0 <= 2 ^ (-17 - ez)) by (apply Z.pow_nonneg; lia).
    nia.
Qed.

(** Half of a float of [0, 200] is a float of [0, 100]. *)
Lemma SFmul_half_le_100 x :
  pos_le C100 (-16) x ->
  pos_le C100 (-17) (SFmul prec emax x (S754_finite false 8388608 (-24))).
Proof.
  intros Hx. destruct x as [s|s| |[|] m e]; cbn [pos_le] in Hx; try contradiction.
  - exact I.
  - destruct Hx as [Hm Hx]. cbn [SFmul xorb].
    apply bra_pos_le; [unfold C100; lia|lia|lia|].
    rewrite Pos2Z.inj_mul. change (Zpos 8388608) with (2 ^ 23).
    destruct Hx as [He|[-> Hle]].
    + assert (H1 : Zpos m * 2 ^ 23 <= 2 ^ 24 * 2 ^ 23) by lia.
      assert (H2 : 2 ^ 23 * 2 ^ 24 <= Zpos C100 * 2 ^ 24) by (unfold C100; lia).
      assert (H3 : Zpos C100 * 2 ^ 24 <= Zpos C100 * 2 ^ (-17 - (e + -24))).
      { apply Z.mul_le_mono_nonneg_l; [lia|]. apply Z.pow_le_mono_r; lia. }
      lia.
    + change (-17 - (-16 + -24)) with 23. lia.
Qed.

(** A positive [uint32_t] converts to a positive finite float. *)
Lemma f32_of_u32_finite z : 0 < z < 2 ^ 32 ->
  exists m e, f32_of_u32 z = S754_finite false m e.
Proof.
  intros Hz. destruct z as [|p|p]; try lia.
  unfold f32_of_u32. cbn [binary_normalize]. unfold binary_round.
  destruct (shl_align_spec p 0 (fexp prec emax (Zpos (digits2_pos p) + 0))) as (mz & -> & Hmz).
  rewrite fexp_eq in *. set (e0 := Z.min 0 _) in *.
  pose proof (digits2_bounds p) as [Hpl Hpu].
  assert (Hdp : 1 <= Zpos (digits2_pos p) <= 32).
  { split; [lia|]. apply digits2_le_of_lt; lia. }
  assert (He0 : -23 <= e0 <= 0) by (unfold e0; lia).
  assert (Hmzu : Zpos mz < 2 ^ 55).
  { rewrite Hmz. assert (2 ^ (0 - e0) <= 2 ^ 23) by (apply Z.pow_le_mono_r; lia).
    assert (0 < 2 ^ (0 - e0)) by (apply Z.pow_pos_nonneg; lia).
    change (2 ^ 55) with (2 ^ 32 * 2 ^ 23). nia. }
  assert (Hdz : Zpos (digits2_pos mz) <= 55) by (apply digits2_le_of_lt; lia).
  destruct (Z_le_gt_dec (fexp prec emax (Zpos (digits2_pos mz) + e0) - e0) 0) as [Hn|Hn].
  - rewrite bra_exact_small by exact Hn. unfold fin_or_inf. change (emax - prec) with 104.
    destruct (Z.leb_spec e0 104); [|lia]. eauto.
  - remember (fexp prec emax (Zpos (digits2_pos mz) + e0) - e0) as n eqn:En.
    destruct (bra_exact_shift false mz e0 n En ltac:(lia)) as (m2 & Hc & _ & Hb & ->).
    rewrite fexp_eq in En.
    assert (Hn' : n = Zpos (digits2_pos mz) - 24) by lia.
    assert (Hm1 : 1 <= Zpos mz / 2 ^ n).
    { apply Z.div_le_lower_bound; [apply Z.pow_pos_nonneg; lia|].
      pose proof (digits2_bounds mz) as [Hl _].
      assert (2 ^ n <= 2 ^ (Zpos (digits2_pos mz) - 1)) by (apply Z.pow_le_mono_r; lia).
      lia. }
    destruct m2 as [|q|q]; try lia.
    unfold fin_or_inf. change (emax - prec) with 104.
    destruct (Z.eqb_spec (Zpos q) (2 ^ 24)).
    + destruct (Z.leb_spec (e0 + n + 1) 104); [|lia]. eauto.
    + destruct (Z.leb_spec (e0 + n) 104); [|lia]. eauto.
Qed.

(** ** Core usage stays within [0, 100] *)

Lemma f32_of_u32_shape z : 0 <= z < 2 ^ 32 ->
  f32_of_u32 z = S754_zero false \/ exists m e, f32_of_u32 z = S754_finite false m e.
Proof.
  intros Hz. destruct (Z.eq_dec z 0) as [->|Hne]; [left; reflexivity|].
  right. apply f32_of_u32_finite. lia.
Qed.

Lemma SFdiv_core_binary_nonneg mx ex my ey :
  0 <= fst (fst (SFdiv_core_binary prec emax (Zpos mx) ex (Zpos my) ey)).
Proof.
  unfold SFdiv_core_binary.
  set (s := ex - ey - _).
  set (m' := match s with Z0 => Zpos mx | Zpos _ => Z.shiftl (Zpos mx) s | Zneg _ => 0 end).
  assert (Hm' : 0 <= m').
  { unfold m'. destruct s; try lia. apply Z.shiftl_nonneg. lia. }
  pose proof (Z.div_pos m' (Zpos my) Hm' ltac:(lia)) as Hq.
  unfold Z.div in Hq. destruct (Z.div_eucl m' (Zpos my)) as [q r]. exact Hq.
Qed.

Lemma f32_div_not_nan x y :
  (x = S754_zero false \/ exists m e, x = S754_finite false m e) ->
  (exists m e, y = S754_finite false m e) ->
  f32_div x y <> S754_nan.
Proof.
  intros [->|(mx & ex & ->)] (my & ey & ->); unfold f32_div; cbn [SFdiv]; [discriminate|].
  pose proof (SFdiv_core_binary_nonneg mx ex my ey) as Hq.
  destruct (SFdiv_core_binary prec emax (Zpos mx) ex (Zpos my) ey) as [[mz ez] lz].
  apply bra_not_nan. exact Hq.
Qed.

Lemma f32_mul_100_not_nan q : q <> S754_nan -> f32_mul q f32_100 <> S754_nan.
Proof.
  intros Hq. destruct q as [s|s| |s m e]; unfold f32_mul, f32_100; cbn [SFmul];
    try discriminate; [contradiction|].
  apply bra_not_nan. lia.
Qed.

(** [((float)a / (float)b) * 100.0f] is not a NaN for [b > 0]. *)
Lemma percent_of_not_nan a b : 0 <= a < 2 ^ 32 -> 0 < b < 2 ^ 32 ->
  percent_of a b <> S754_nan.
Proof.
  intros Ha Hb. unfold percent_of. apply f32_mul_100_not_nan, f32_div_not_nan.
  - apply f32_of_u32_shape, Ha.
  - apply f32_of_u32_finite, Hb.
Qed.

Lemma f32_sub_100_shape x : x <> S754_nan ->
  f32_sub f32_100 x <> S754_nan /\ f32_bounded (f32_sub f32_100 x).
Proof.
  intros Hx. destruct x as [s|s| |s m e]; unfold f32_sub, f32_100; cbn [SFsub].
  - split; [discriminate|]. cbn [f32_bounded]. lia.
  - split; [discriminate|exact I].
  - contradiction.
  - split; [apply binary_normalize_not_nan|apply binary_normalize_bounded].
Qed.

(** The two clamping tests of lines 358-361. *)
Lemma clamp_pos_le u : u <> S754_nan -> f32_bounded u ->
  pos_le C100 (-17)
    (let u1 := if f32_lt u f32_0 then f32_0 else u in
     if f32_lt f32_100 u1 then f32_100 else u1).
Proof.
  intros Hn Hb. destruct u as [s|s| |s m e]; [| |contradiction|].
  - destruct s; exact I.
  - destruct s; cbn; [exact I|]. unfold C100. lia.
  - destruct s; [exact I|].
    cbv beta zeta. change (f32_lt (S754_finite false m e) f32_0) with false.
    cbv iota. unfold f32_lt, f32_100, SFltb, SFcompare.
    cbn [f32_bounded] in Hb.
    destruct (Z.compare_spec (-17) e) as [He|He|He].
    + fold (Pos.compare 13107200 m).
      destruct (Pos.compare_spec 13107200 m) as [Hm|Hm|Hm]; cbn [pos_le]; unfold C100.
      * split; [exact Hb|right; split; [congruence|rewrite <- Hm; apply Z.le_refl]].
      * split; [reflexivity|right; split; [reflexivity|apply Z.le_refl]].
      * split; [exact Hb|right; split; [congruence|apply Pos2Z.pos_le_pos, Pos.lt_le_incl, Hm]].
    + cbn [pos_le]. unfold C100. split; [lia|right; lia].
    + cbn [pos_le]. split; [lia|left; lia].
Qed.

Lemma wrap_u32_range z : 0 <= wrap_u32 z < 2 ^ 32.
Proof. unfold wrap_u32. apply Z.mod_pos_bound. lia. Qed.

Lemma delta_idle_range idle prev : 0 <= delta_idle idle prev < 2 ^ 32.
Proof.
  unfold delta_idle. destruct (idle >=? prev); [apply wrap_u32_range|lia].
Qed.

(** The clamped usage of one core. *)
Lemma core_usage_pos_le d_idle delta_total :
  0 <= d_idle < 2 ^ 32 -> 0 <= delta_total < 2 ^ 32 ->
  pos_le C100 (-17) (core_usage d_idle delta_total).
Proof.
  intros Hi Ht. unfold core_usage.
  destruct (Z.ltb_spec 0 delta_total) as [Hpos|Hz]; [|exact I].
  destruct (f32_sub_100_shape (percent_of d_idle delta_total)) as [Hn Hb].
  { apply percent_of_not_nan; lia. }
  apply clamp_pos_le; assumption.
Qed.

Lemma pos_le_in_0_100 x : pos_le C100 (-17) x -> in_0_100 x.
Proof. intros H. apply (pos_le_SFleb C100 (-17) x H). Qed.

Lemma overall_usage_pos_le c0 c1 :
  pos_le C100 (-17) c0 -> pos_le C100 (-17) c1 ->
  pos_le C100 (-17) (overall_usage c0 c1).
Proof.
  intros H0 H1. unfold overall_usage, f32_mul, f32_add, f32_half.
  apply SFmul_half_le_100, SFadd_le_200; assumption.
Qed.

(** C8: for arbitrary unsigned 32-bit idle and total deltas (whatever the
    snapshot, the idle handles and the carried idle counters are), both
    per-core usages produced by [_calculate_cpu_metrics] lie in [0, 100],
    they are [0.0f] when [delta_total] is 0, and the overall usage is the
    average [(core_usage_0 + core_usage_1) * 0.5f], which lies in [0, 100]
    as well. *)
Theorem cpu_usage_within_0_100 env num_returned delta_total p c0 c1 overall p' :
  is_u32 delta_total ->
  _calculate_cpu_metrics env num_returned delta_total p = ((c0, c1, overall), p') ->
  in_0_100 c0 /\ in_0_100 c1 /\
  (delta_total = 0 -> c0 = f32_0 /\ c1 = f32_0) /\
  overall = f32_mul (f32_add c0 c1) f32_half /\
  in_0_100 overall.
Proof.
  intros Ht H. unfold _calculate_cpu_metrics in H.
  destruct (idle_ticks _ _ _ _) as [i0 i1]. injection H as <- <- <- _.
  assert (Hd : 0 <= delta_total < 2 ^ 32) by (unfold is_u32, UINT32_MAX in Ht; lia).
  pose proof (core_usage_pos_le _ _ (delta_idle_range i0 (prev_idle_ticks_0 p)) Hd) as H0.
  pose proof (core_usage_pos_le _ _ (delta_idle_range i1 (prev_idle_ticks_1 p)) Hd) as H1.
  split; [apply pos_le_in_0_100, H0|].
  split; [apply pos_le_in_0_100, H1|].
  split; [intros ->; split; reflexivity|].
  split; [reflexivity|].
  apply pos_le_in_0_100, overall_usage_pos_le; assumption.
Qed.

(** ** Counter deltas *)

Lemma wrap_u32_small z : 0 <= z < 2 ^ 32 -> wrap_u32 z = z.
Proof. intros H. unfold wrap_u32. apply Z.mod_small. exact H. Qed.

Lemma delta_total_of_spec now prev : is_u32 now -> is_u32 prev ->
  delta_total_of now prev =
    if prev <=? now then now - prev else (UINT32_MAX - prev) + now + 1.
Proof.
  unfold delta_total_of, is_u32, UINT32_MAX. intros Hn Hp.
  destruct (Z.geb_spec now prev) as [H|H]; destruct (Z.leb_spec prev now) as [H'|H']; try lia.
  - apply wrap_u32_small. lia.
  - rewrite (wrap_u32_small (4294967295 - prev)) by lia.
    rewrite (wrap_u32_small (4294967295 - prev + now)) by lia.
    apply wrap_u32_small. lia.
Qed.

Lemma sample_delta_spec env p num_returned delta_total p' :
  is_u32 (prev_total_run_time (self p)) ->
  is_u32 (ka_total_run_time (snapshot env)) ->
  _sample_task_states env p = (Some (num_returned, delta_total), p') ->
  delta_total =
    (if prev_total_run_time (self p) <=? ka_total_run_time (snapshot env)
     then ka_total_run_time (snapshot env) - prev_total_run_time (self p)
     else (UINT32_MAX - prev_total_run_time (self p))
          + ka_total_run_time (snapshot env) + 1) /\
  prev_total_run_time (self p') = ka_total_run_time (snapshot env).
Proof.
  intros Hp Hn H. unfold _sample_task_states in H.
  destruct (task_status (self p)) as [sb|]; [|discriminate].
  destruct (uxTaskGetSystemState _ _ _) as [cells' num].
  destruct (num =? 0); [discriminate|].
  injection H as <- <- <-.
  rewrite (delta_total_of_spec _ _ Hn Hp). split; reflexivity.
Qed.

(** C2: a successful sample returns [total_now - total_prev] when the
    counter did not decrease and [(UINT32_MAX - total_prev) + total_now + 1]
    when it did, [total_prev] being the reading kept by the previous
    successful sample; the reading is then kept, so that the next
    successful sample differences its own reading against it by the same
    rule.  With [total_prev = UINT32_MAX - 2] and [total_now = 1] the delta
    is 4. *)
Theorem sample_delta_total_wraparound env p num_returned delta_total p' :
  is_u32 (prev_total_run_time (self p)) ->
  is_u32 (ka_total_run_time (snapshot env)) ->
  _sample_task_states env p = (Some (num_returned, delta_total), p') ->
  (prev_total_run_time (self p) <= ka_total_run_time (snapshot env) ->
   delta_total = ka_total_run_time (snapshot env) - prev_total_run_time (self p)) /\
  (ka_total_run_time (snapshot env) < prev_total_run_time (self p) ->
   delta_total =
     (UINT32_MAX - prev_total_run_time (self p)) + ka_total_run_time (snapshot env) + 1) /\
  prev_total_run_time (self p') = ka_total_run_time (snapshot env) /\
  (forall env2 num2 delta2 p2,
     is_u32 (ka_total_run_time (snapshot env2)) ->
     _sample_task_states env2 p' = (Some (num2, delta2), p2) ->
     delta2 =
       if ka_total_run_time (snapshot env) <=? ka_total_run_time (snapshot env2)
       then ka_total_run_time (snapshot env2) - ka_total_run_time (snapshot env)
       else (UINT32_MAX - ka_total_run_time (snapshot env))
            + ka_total_run_time (snapshot env2) + 1) /\
  delta_total_of 1 (UINT32_MAX - 2) = 4.
Proof.
  intros Hp Hn H.
  destruct (sample_delta_spec env p num_returned delta_total p' Hp Hn H) as [Hd Hprev].
  split; [|split; [|split; [|split]]].
  - intros Hle. rewrite Hd. destruct (Z.leb_spec (prev_total_run_time (self p))
      (ka_total_run_time (snapshot env))); [reflexivity|lia].
  - intros Hlt. rewrite Hd. destruct (Z.leb_spec (prev_total_run_time (self p))
      (ka_total_run_time (snapshot env))); [lia|reflexivity].
  - exact Hprev.
  - intros env2 num2 delta2 p2 Hn2 H2.
    rewrite <- Hprev in Hn |- *.
    exact (proj1 (sample_delta_spec env2 p' num2 delta2 p2 Hn Hn2 H2)).
  - reflexivity.
Qed.

Lemma delta_idle_spec idle prev : is_u32 idle -> is_u32 prev ->
  delta_idle idle prev = if idle <? prev then 0 else idle - prev.
Proof.
  unfold is_u32, UINT32_MAX, delta_idle. intros Hi Hp.
  destruct (Z.geb_spec idle prev); destruct (Z.ltb_spec idle prev); try lia.
  apply wrap_u32_small. lia.
Qed.

(** C1, as the code has it: on each of the two cores the idle delta is
    [idle_now - prev_idle] when the idle counter did not decrease and 0
    when it did (no modular wrap-around); the usages are computed from
    these deltas, and the idle counters read in this cycle are carried to
    the next one. *)
Theorem idle_delta_clamps_to_zero env num_returned delta_total p i0 i1 :
  is_u32 (prev_idle_ticks_0 p) -> is_u32 (prev_idle_ticks_1 p) ->
  is_u32 i0 -> is_u32 i1 ->
  idle_ticks (idle_handle_0 env) (idle_handle_1 env) num_returned (scratch p) = (i0, i1) ->
  let d0 := if i0 <? prev_idle_ticks_0 p then 0 else i0 - prev_idle_ticks_0 p in
  let d1 := if i1 <? prev_idle_ticks_1 p then 0 else i1 - prev_idle_ticks_1 p in
  delta_idle i0 (prev_idle_ticks_0 p) = d0 /\
  delta_idle i1 (prev_idle_ticks_1 p) = d1 /\
  fst (_calculate_cpu_metrics env num_returned delta_total p) =
    (core_usage d0 delta_total, core_usage d1 delta_total,
     overall_usage (core_usage d0 delta_total) (core_usage d1 delta_total)) /\
  prev_idle_ticks_0 (snd (_calculate_cpu_metrics env num_returned delta_total p)) = i0 /\
  prev_idle_ticks_1 (snd (_calculate_cpu_metrics env num_returned delta_total p)) = i1.
Proof.
  intros Hp0 Hp1 Hi0 Hi1 Hid d0 d1.
  unfold _calculate_cpu_metrics. rewrite Hid. cbn [fst snd prev_idle_ticks_0 prev_idle_ticks_1].
  rewrite (delta_idle_spec i0 _ Hi0 Hp0), (delta_idle_spec i1 _ Hi1 Hp1).
  repeat split.
Qed.

(** ** Teardown *)

(** C10: [sysmon_deinit] frees the task table and the scratch array,
    clears both pointers, the capacity and [prev_total_run_time] (and the
    task handle), and leaves every global series, the series cursor, the
    [psram_seen] latch and the carried idle counters as they were. *)
Theorem sysmon_deinit_frame p :
  let q := sysmon_deinit p in
  tasks (self q) = None /\ task_status (self q) = None /\
  task_capacity (self q) = 0 /\ prev_total_run_time (self q) = 0 /\
  heap q = free (base <$> task_status (self p)) (free (base <$> tasks (self p)) (heap p)) /\
  (forall tb, tasks (self p) = Some tb -> base tb ∉ heap q) /\
  (forall sb, task_status (self p) = Some sb -> base sb ∉ heap q) /\
  cpu_overall_percent (self q) = cpu_overall_percent (self p) /\
  cpu_core_percent_0 (self q) = cpu_core_percent_0 (self p) /\
  cpu_core_percent_1 (self q) = cpu_core_percent_1 (self p) /\
  dram_free (self q) = dram_free (self p) /\
  dram_min_free (self q) = dram_min_free (self p) /\
  dram_largest_block (self q) = dram_largest_block (self p) /\
  dram_total (self q) = dram_total (self p) /\
  dram_used_percent (self q) = dram_used_percent (self p) /\
  psram_free (self q) = psram_free (self p) /\
  psram_total (self q) = psram_total (self p) /\
  psram_used_percent (self q) = psram_used_percent (self p) /\
  series_write_index (self q) = series_write_index (self p) /\
  psram_seen (self q) = psram_seen (self p) /\
  prev_idle_ticks_0 q = prev_idle_ticks_0 p /\
  prev_idle_ticks_1 q = prev_idle_ticks_1 p.
Proof.
  cbv zeta. unfold sysmon_deinit. cbn.
  repeat (split; [reflexivity|]).
  split; [|split; [|repeat split]].
  - intros tb ->. cbn. destruct (task_status (self p)); cbn;
      rewrite ?elem_of_difference, !elem_of_singleton; tauto.
  - intros sb ->. cbn. rewrite elem_of_difference, elem_of_singleton. tauto.
Qed.

(** ** Loops, strings and the task table *)

Lemma for_loop_invariant {S : Type} (P : S -> Prop) n (body : nat -> S -> S) s :
  P s -> (forall k x, (k < n)%nat -> P x -> P (body k x)) -> P (for_loop n body s).
Proof.
  intros H0 Hstep. induction n as [|n IH]; cbn [for_loop]; [exact H0|].
  apply Hstep; [lia|]. apply IH. intros k x Hk. apply Hstep. lia.
Qed.

Lemma find_from_Some P j k i : find_from P j k = Some i ->
  (j <= i < j + k)%nat /\ P i = true /\ forall i', (j <= i' < i)%nat -> P i' = false.
Proof.
  revert j. induction k as [|k IH]; intros j H; cbn [find_from] in H; [discriminate|].
  destruct (P j) eqn:Ej.
  - injection H as <-. split; [lia|]. split; [exact Ej|]. intros i' Hi'. lia.
  - destruct (IH _ H) as (Hr & Hi & Hlt). split; [lia|]. split; [exact Hi|].
    intros i' Hi'. destruct (Nat.eq_dec i' j) as [->|Hne]; [exact Ej|]. apply Hlt. lia.
Qed.

Lemma find_from_None P j k : find_from P j k = None ->
  forall i, (j <= i < j + k)%nat -> P i = false.
Proof.
  revert j. induction k as [|k IH]; intros j H i Hi; cbn [find_from] in H; [lia|].
  destruct (P j) eqn:Ej; [discriminate|].
  destruct (Nat.eq_dec i j) as [->|Hne]; [exact Ej|]. apply (IH _ H). lia.
Qed.

Lemma find_index_Some n P i : find_index n P = Some i ->
  (i < n)%nat /\ P i = true /\ forall i', (i' < i)%nat -> P i' = false.
Proof.
  intros H. destruct (find_from_Some _ _ _ _ H) as (Hr & Hi & Hlt).
  split; [lia|]. split; [exact Hi|]. intros i' Hi'. apply Hlt. lia.
Qed.

Lemma find_index_None n P : find_index n P = None ->
  forall i, (i < n)%nat -> P i = false.
Proof. intros H i Hi. apply (find_from_None _ _ _ H). lia. Qed.

Lemma strncmp_eq_refl n a : strncmp_eq n a a = true.
Proof.
  revert a. induction n as [|n IH]; intros a; cbn [strncmp_eq]; [reflexivity|].
  destruct a as [|c a]; [reflexivity|]. rewrite Ascii.eqb_refl. apply IH.
Qed.

Lemma strncmp_eq_short n a b :
  (String.length a < n)%nat -> (String.length b < n)%nat ->
  strncmp_eq n a b = true -> a = b.
Proof.
  revert a b. induction n as [|n IH]; intros a b Ha Hb H; [lia|].
  cbn [strncmp_eq] in H. destruct a as [|x a], b as [|y b]; try discriminate; [reflexivity|].
  cbn [String.length] in Ha, Hb.
  destruct (Ascii.eqb_spec x y) as [->|]; [|discriminate].
  f_equal. apply IH; [lia|lia|exact H].
Qed.

Lemma strncpy_short n s : (String.length s <= n)%nat -> strncpy n s = s.
Proof.
  revert s. induction n as [|n IH]; intros s Hs; destruct s as [|c s]; cbn in *;
    try reflexivity; [lia|].
  f_equal. apply IH. lia.
Qed.

Lemma table_set_table l p : length l = length (table p) -> table (set_table l p) = l.
Proof.
  unfold table, set_table. destruct (tasks (self p)) as [tb|] eqn:E; cbn.
  - reflexivity.
  - rewrite E. intros H. destruct l; [reflexivity|discriminate].
Qed.

Lemma set_table_self_frame l p :
  task_status (self (set_table l p)) = task_status (self p) /\
  task_capacity (self (set_table l p)) = task_capacity (self p) /\
  psram_seen (self (set_table l p)) = psram_seen (self p) /\
  prev_total_run_time (self (set_table l p)) = prev_total_run_time (self p) /\
  heap (set_table l p) = heap p.
Proof. unfold set_table. destruct (tasks (self p)); repeat split. Qed.

Lemma set_table_capacity l p :
  task_capacity (self (set_table l p)) = task_capacity (self p).
Proof. apply set_table_self_frame. Qed.

Lemma set_table_scratch l p : scratch (set_table l p) = scratch p.
Proof. unfold scratch. destruct (set_table_self_frame l p) as [-> _]. reflexivity. Qed.

(** ** Eviction *)

Lemma evict_slot_length seen j tbl : length (evict_slot seen j tbl) = length tbl.
Proof.
  unfold evict_slot. destruct (tbl !! j) as [t|]; [|reflexivity].
  destruct (seen !! j) as [sn|]; [|reflexivity].
  destruct (is_active t && negb sn); [apply length_insert|reflexivity].
Qed.

Lemma evict_loop_length seen n tbl : length (for_loop n (evict_slot seen) tbl) = length tbl.
Proof.
  apply (for_loop_invariant (fun x => length x = length tbl)); [reflexivity|].
  intros k x _ Hx. rewrite evict_slot_length. exact Hx.
Qed.

Lemma evict_slot_lookup seen k tbl j :
  evict_slot seen k tbl !! j =
    if Nat.eq_dec j k then evicted seen k <$> tbl !! j else tbl !! j.
Proof.
  unfold evict_slot, evicted. destruct (Nat.eq_dec j k) as [->|Hne].
  - destruct (tbl !! k) as [t|] eqn:Et; [|rewrite Et; reflexivity].
    destruct (seen !! k) as [[|]|]; cbn; rewrite ?andb_false_r, ?andb_true_r, ?Et; try reflexivity.
    destruct (is_active t); [|rewrite Et; reflexivity].
    rewrite list_lookup_insert_eq; [reflexivity|]. apply lookup_lt_Some in Et. exact Et.
  - destruct (tbl !! k) as [t|]; [|reflexivity].
    destruct (seen !! k) as [sn|]; [|reflexivity].
    destruct (is_active t && negb sn); [|reflexivity].
    apply list_lookup_insert_ne. auto.
Qed.

Lemma evict_loop_lookup seen n tbl j :
  for_loop n (evict_slot seen) tbl !! j =
    if (j <? n)%nat then evicted seen j <$> tbl !! j else tbl !! j.
Proof.
  induction n as [|n IH]; cbn [for_loop]; [reflexivity|].
  rewrite evict_slot_lookup.
  destruct (Nat.eq_dec j n) as [->|Hne].
  - rewrite IH. rewrite Nat.ltb_irrefl.
    destruct (Nat.ltb_spec n (S n)); [reflexivity|lia].
  - rewrite IH. destruct (Nat.ltb_spec j n), (Nat.ltb_spec j (S n)); try reflexivity; lia.
Qed.

Lemma process_deleted_lookup seen p j :
  (j < Z.to_nat (task_capacity (self p)))%nat ->
  table (_process_deleted_tasks seen p) !! j = evicted seen j <$> table p !! j.
Proof.
  intros Hj. unfold _process_deleted_tasks.
  rewrite table_set_table by apply evict_loop_length.
  rewrite evict_loop_lookup. destruct (Nat.ltb_spec j (Z.to_nat (task_capacity (self p)))); [reflexivity|lia].
Qed.

Lemma process_deleted_capacity seen p :
  task_capacity (self (_process_deleted_tasks seen p)) = task_capacity (self p).
Proof. apply set_table_capacity. Qed.

Lemma wrap_int_small z : - 2 ^ 31 <= z < 2 ^ 31 -> wrap_int z = z.
Proof. intros H. unfold wrap_int. rewrite Z.mod_small; lia. Qed.

Lemma miss_slot_counter t :
  0 < CONFIG_SYSMON_SAMPLE_COUNT <= INT_MAX ->
  0 <= consecutive_zero_samples t < CONFIG_SYSMON_SAMPLE_COUNT ->
  is_active t = true ->
  (consecutive_zero_samples t + 1 < CONFIG_SYSMON_SAMPLE_COUNT ->
   is_active (miss_slot t) = true /\
   consecutive_zero_samples (miss_slot t) = consecutive_zero_samples t + 1) /\
  (consecutive_zero_samples t + 1 = CONFIG_SYSMON_SAMPLE_COUNT ->
   is_active (miss_slot t) = false /\ consecutive_zero_samples (miss_slot t) = 0).
Proof.
  unfold INT_MAX. intros HN Hc Ha. unfold miss_slot. cbn [is_active consecutive_zero_samples].
  rewrite wrap_int_small by lia.
  split; intros H.
  - destruct (Z.leb_spec CONFIG_SYSMON_SAMPLE_COUNT (consecutive_zero_samples t + 1)); [lia|].
    split; [exact Ha|reflexivity].
  - destruct (Z.leb_spec CONFIG_SYSMON_SAMPLE_COUNT (consecutive_zero_samples t + 1)); [|lia].
    split; reflexivity.
Qed.

(** Consecutive misses of the slot [j], counted from [k] misses so far. *)
Lemma evict_run_counter seens : forall p j t,
  0 < CONFIG_SYSMON_SAMPLE_COUNT <= INT_MAX ->
  (j < Z.to_nat (task_capacity (self p)))%nat ->
  table p !! j = Some t -> is_active t = true ->
  0 <= consecutive_zero_samples t ->
  Forall (fun seen : list bool => seen !! j = Some false) seens ->
  consecutive_zero_samples t + Z.of_nat (length seens) <= CONFIG_SYSMON_SAMPLE_COUNT ->
  exists t', table (evict_run seens p) !! j = Some t' /\
    (consecutive_zero_samples t + Z.of_nat (length seens) < CONFIG_SYSMON_SAMPLE_COUNT ->
     is_active t' = true /\
     consecutive_zero_samples t' = consecutive_zero_samples t + Z.of_nat (length seens)) /\
    (seens <> [] ->
     consecutive_zero_samples t + Z.of_nat (length seens) = CONFIG_SYSMON_SAMPLE_COUNT ->
     is_active t' = false /\ consecutive_zero_samples t' = 0).
Proof.
  induction seens as [|seen seens IH]; intros p j t HN Hj Ht Ha Hc HF Hlen.
  - exists t. cbn. split; [exact Ht|]. split; [|congruence].
    intros _. split; [exact Ha|lia].
  - inversion HF as [|? ? Hseen HF']; subst. cbn [length] in Hlen.
    cbn [evict_run fold_left]. fold (evict_run seens (_process_deleted_tasks seen p)).
    assert (Ht1 : table (_process_deleted_tasks seen p) !! j = Some (miss_slot t)).
    { rewrite process_deleted_lookup by exact Hj. rewrite Ht. cbn.
      unfold evicted. rewrite Hseen, Ha. reflexivity. }
    assert (Hj1 : (j < Z.to_nat (task_capacity (self (_process_deleted_tasks seen p))))%nat)
      by (rewrite process_deleted_capacity; exact Hj).
    destruct (miss_slot_counter t HN ltac:(lia) Ha) as [Hlt Heq].
    destruct (Z.eq_dec (consecutive_zero_samples t + 1) CONFIG_SYSMON_SAMPLE_COUNT) as [E|E].
    + destruct (Heq E) as [Hina Hzero].
      assert (seens = []) as -> by (destruct seens; [reflexivity|cbn [length] in Hlen; lia]).
      exists (miss_slot t). cbn. split; [exact Ht1|]. split; [lia|]. intros _ _. auto.
    + destruct (Hlt ltac:(lia)) as [Hact Hcnt].
      destruct (IH _ j (miss_slot t) HN Hj1 Ht1 Hact ltac:(lia) HF' ltac:(lia))
        as (t' & Ht' & Hlt' & Heq').
      exists t'. split; [exact Ht'|]. cbn [length]. split.
      * intros H. destruct (Hlt' ltac:(lia)) as [? ?]. split; [assumption|lia].
      * intros _ H. destruct seens as [|s2 seens'].
        { cbn [length] in H. lia. }
        apply Heq'; [discriminate|lia].
Qed.

Lemma advance_cursor w :
  0 < CONFIG_SYSMON_SAMPLE_COUNT <= INT_MAX -> 0 <= w < CONFIG_SYSMON_SAMPLE_COUNT ->
  Z.rem (wrap_int (w + 1)) CONFIG_SYSMON_SAMPLE_COUNT = (w + 1) mod CONFIG_SYSMON_SAMPLE_COUNT.
Proof.
  unfold INT_MAX. intros HN Hw. rewrite wrap_int_small by lia.
  apply Z.rem_mod_nonneg; lia.
Qed.

Lemma find_or_create_reuse name q j t0 q' :
  table q !! j = Some t0 -> is_active t0 = false ->
  _find_or_create_task_index name q = (Z.of_nat j, q') ->
  table q' !! j = Some (new_slot name).
Proof.
  intros Ht0 Hin H. unfold _find_or_create_task_index in H.
  destruct (find_index _ (name_matches (table q) name)) as [i|] eqn:Ef.
  - injection H as Hi _. apply Nat2Z.inj in Hi. subst i.
    apply find_index_Some in Ef. destruct Ef as (_ & Hm & _).
    unfold name_matches in Hm. rewrite Ht0, Hin in Hm. discriminate.
  - destruct (find_index _ (slot_free (table q))) as [i|] eqn:Es.
    + injection H as Hi <-. apply Nat2Z.inj in Hi. subst i.
      rewrite table_set_table by apply length_insert.
      apply list_lookup_insert_eq. apply lookup_lt_Some in Ht0. exact Ht0.
    + injection H as Hi _. lia.
Qed.

(** ** Per-task metrics *)

(** C7: for the slot that [_update_task_history] addresses, the runtime
    delta is [runtime_now - prev_run_time_ticks] when the counter did not
    decrease and 0 (no wrap) when it did; the value recorded at the write
    cursor of the CPU history is [delta_task / delta_total * 100] in
    binary32 when [delta_total > 0] and [0.0f] otherwise; the counter is
    then kept as the new [prev_run_time_ticks]. *)
Theorem update_task_history_cpu_percent env idx ts delta_total p t :
  0 < CONFIG_SYSMON_SAMPLE_COUNT <= INT_MAX ->
  0 <= idx -> table p !! Z.to_nat idx = Some t -> slot_wf t ->
  is_u32 (ulRunTimeCounter ts) -> is_u32 (prev_run_time_ticks t) ->
  let delta_task :=
    if prev_run_time_ticks t <=? ulRunTimeCounter ts
    then ulRunTimeCounter ts - prev_run_time_ticks t else 0 in
  let cpu_percent :=
    if 0 <? delta_total
    then f32_mul (f32_div (f32_of_u32 delta_task) (f32_of_u32 delta_total)) f32_100
    else f32_0 in
  delta_task_of (ulRunTimeCounter ts) (prev_run_time_ticks t) = delta_task /\
  exists t', table (_update_task_history env idx ts delta_total p) !! Z.to_nat idx = Some t' /\
    usage_percent_history t' = <[Z.to_nat (write_index t) := cpu_percent]> (usage_percent_history t) /\
    usage_percent_history t' !! Z.to_nat (write_index t) = Some cpu_percent /\
    prev_run_time_ticks t' = ulRunTimeCounter ts /\
    consecutive_zero_samples t' = 0 /\
    write_index t' = (write_index t + 1) mod CONFIG_SYSMON_SAMPLE_COUNT.
Proof.
  intros HN Hidx Ht (Hw & Hl1 & _ & _) Hnow Hprev delta_task cpu_percent.
  assert (Hd : delta_task_of (ulRunTimeCounter ts) (prev_run_time_ticks t) = delta_task).
  { unfold delta_task_of, delta_task. unfold is_u32, UINT32_MAX in *.
    destruct (Z.geb_spec (ulRunTimeCounter ts) (prev_run_time_ticks t));
      destruct (Z.leb_spec (prev_run_time_ticks t) (ulRunTimeCounter ts)); try lia.
    apply wrap_u32_small. lia. }
  split; [exact Hd|].
  exists (update_slot env ts delta_total t). split.
  { unfold _update_task_history. destruct (Z.ltb_spec idx 0); [lia|]. rewrite Ht.
    rewrite table_set_table by apply length_insert.
    apply list_lookup_insert_eq. apply lookup_lt_Some in Ht. exact Ht. }
  unfold update_slot. cbn. rewrite Hd. fold cpu_percent.
  assert (Hu : usage_of delta_task delta_total = cpu_percent) by reflexivity.
  rewrite Hu.
  split; [reflexivity|]. split; [apply list_lookup_insert_eq; lia|].
  split; [reflexivity|]. split; [reflexivity|]. apply advance_cursor; assumption.
Qed.

(** ** Capacity manager *)

Lemma alloc_free_fresh (h : gset positive) : ({[fresh h]} ∪ h) ∖ {[fresh h]} = h.
Proof.
  apply set_eq. intros x.
  rewrite elem_of_difference, elem_of_union, elem_of_singleton.
  pose proof (is_fresh h) as Hf.
  split; [intros [[->|Hx] Hne]; [contradiction|exact Hx]|].
  intros Hx. split; [right; exact Hx|]. intros ->. contradiction.
Qed.

Lemma set_heap_same p : set_heap (heap p) p = p.
Proof. destruct p; reflexivity. Qed.

Lemma required_capacity_capped a full : required_capacity a full <= SYSMON_MAX_TRACKED_TASKS.
Proof.
  unfold required_capacity. cbv zeta.
  match goal with |- (if ?c <? ?r then _ else _) <= _ => destruct (Z.ltb_spec c r) end; lia.
Qed.


Lemma grow_capacity env p a full ok p' :
  grow_task_storage env p a full = (ok, p') ->
  task_capacity (self p) <= task_capacity (self p') /\
  task_capacity (self p') <= Z.max (task_capacity (self p)) SYSMON_MAX_TRACKED_TASKS /\
  psram_seen (self p') = psram_seen (self p).
Proof.
  unfold grow_task_storage. cbv zeta.
  pose proof (required_capacity_capped a full) as Hcap.
  destruct (Z.leb_spec (required_capacity a full) (task_capacity (self p))) as [Hle|Hgt].
  { intros H. injection H as _ <-. repeat split; lia. }
  unfold alloc. destruct (calloc_tasks_ok env); cbv beta iota.
  - destruct (malloc_status_ok env); cbv beta iota.
    + intros H. injection H as _ <-. cbn. repeat split; lia.
    + intros H. injection H as _ <-. cbn. repeat split; lia.
  - intros H. injection H as _ <-. repeat split; lia.
Qed.

Lemma probe_storage_frame env p :
  tasks (self (probe_storage env p)) = tasks (self p) /\
  task_capacity (self (probe_storage env p)) = task_capacity (self p) /\
  set_storage None None 0 (self (probe_storage env p)) = set_storage None None 0 (self p) /\
  psram_seen (self (probe_storage env p)) = psram_seen (self p) /\
  prev_idle_ticks_0 (probe_storage env p) = prev_idle_ticks_0 p /\
  prev_idle_ticks_1 (probe_storage env p) = prev_idle_ticks_1 p /\
  log_counter (probe_storage env p) = log_counter p /\
  heap (probe_storage env p) = heap p.
Proof.
  unfold probe_storage. destruct (task_status (self p)); [|repeat split].
  destruct (0 <? task_capacity (self p)); repeat split.
Qed.

Lemma uxTaskGetSystemState_length k buf size :
  length buf = Z.to_nat size ->
  length (fst (uxTaskGetSystemState k buf size)) = length buf.
Proof.
  intros H. unfold uxTaskGetSystemState. cbn [fst].
  rewrite length_app, length_drop.
  pose proof (length_take_le (ka_entries k) (Z.to_nat size)) as Hle.
  assert (length (take (Z.to_nat size) (ka_entries k)) <= Z.to_nat size)%nat
    by (rewrite length_take; lia).
  lia.
Qed.

Lemma probe_storage_block env p :
  length (scratch p) = Z.to_nat (task_capacity (self p)) ->
  block_of (task_status (self (probe_storage env p))) = block_of (task_status (self p)).
Proof.
  unfold probe_storage, scratch. destruct (task_status (self p)) as [sb|] eqn:E; [|rewrite E; reflexivity].
  intros Hlen. destruct (0 <? task_capacity (self p)); [|rewrite E; reflexivity].
  unfold set_self, set_task_status, set_storage.
  cbn [self task_status block_of base cells].
  rewrite uxTaskGetSystemState_length by exact Hlen. reflexivity.
Qed.

Lemma ensure_cases env p :
  exists a full,
    (_ensure_task_storage_capacity env p = (true, probe_storage env p)) \/
    (_ensure_task_storage_capacity env p = grow_task_storage env (probe_storage env p) a full).
Proof.
  unfold _ensure_task_storage_capacity, probe_storage. cbv zeta.
  destruct (task_status (self p)) as [sb|].
  - destruct (0 <? task_capacity (self p)).
    + destruct (_ <? task_capacity (self p)).
      * exists 0, false. left. reflexivity.
      * eexists _, _. right. reflexivity.
    + eexists _, _. right. reflexivity.
  - eexists _, _. right. reflexivity.
Qed.


Lemma ensure_capacity env p :
  task_capacity (self p) <= task_capacity (self (snd (_ensure_task_storage_capacity env p))) /\
  task_capacity (self (snd (_ensure_task_storage_capacity env p)))
    <= Z.max (task_capacity (self p)) SYSMON_MAX_TRACKED_TASKS /\
  psram_seen (self (snd (_ensure_task_storage_capacity env p))) = psram_seen (self p).
Proof.
  destruct (probe_storage_frame env p) as (_ & Hc & _ & Hps & _).
  destruct (ensure_cases env p) as (a & full & [E|E]); rewrite E.
  - cbn [snd]. rewrite Hc, Hps. repeat split; lia.
  - destruct (grow_task_storage env (probe_storage env p) a full) as [ok q] eqn:G.
    apply grow_capacity in G. rewrite Hc, Hps in G. exact G.
Qed.

(** ** Frames of the operations *)

Lemma sample_frame env p :
  tasks (self (snd (_sample_task_states env p))) = tasks (self p) /\
  task_capacity (self (snd (_sample_task_states env p))) = task_capacity (self p) /\
  psram_seen (self (snd (_sample_task_states env p))) = psram_seen (self p).
Proof.
  unfold _sample_task_states. cbv zeta.
  destruct (task_status (self p)) as [sb|]; [|repeat split].
  destruct (uxTaskGetSystemState _ _ _) as [cells' num].
  destruct (num =? 0); repeat split.
Qed.

Lemma find_or_create_frame name p :
  task_status (self (snd (_find_or_create_task_index name p))) = task_status (self p) /\
  task_capacity (self (snd (_find_or_create_task_index name p))) = task_capacity (self p) /\
  psram_seen (self (snd (_find_or_create_task_index name p))) = psram_seen (self p).
Proof.
  unfold _find_or_create_task_index. cbv zeta.
  destruct (find_index _ (name_matches _ _)); [repeat split|].
  destruct (find_index _ (slot_free _)); [|repeat split].
  cbn [snd]. destruct (set_table_self_frame (<[n := new_slot name]> (table p)) p)
    as (? & ? & ? & _). auto.
Qed.

Lemma update_history_frame env idx ts delta_total p :
  task_status (self (_update_task_history env idx ts delta_total p)) = task_status (self p) /\
  task_capacity (self (_update_task_history env idx ts delta_total p)) = task_capacity (self p) /\
  psram_seen (self (_update_task_history env idx ts delta_total p)) = psram_seen (self p).
Proof.
  unfold _update_task_history. destruct (idx <? 0); [repeat split|].
  destruct (table p !! Z.to_nat idx) as [t|]; [|repeat split].
  destruct (set_table_self_frame (<[Z.to_nat idx := update_slot env ts delta_total t]> (table p)) p)
    as (? & ? & ? & _). auto.
Qed.

Lemma process_deleted_frame seen p :
  task_status (self (_process_deleted_tasks seen p)) = task_status (self p) /\
  task_capacity (self (_process_deleted_tasks seen p)) = task_capacity (self p) /\
  psram_seen (self (_process_deleted_tasks seen p)) = psram_seen (self p).
Proof.
  unfold _process_deleted_tasks.
  match goal with |- context [set_table ?l p] =>
    destruct (set_table_self_frame l p) as (? & ? & ? & _) end. auto.
Qed.

Lemma cpu_metrics_self env num_returned delta_total p :
  self (snd (_calculate_cpu_metrics env num_returned delta_total p)) = self p.
Proof.
  unfold _calculate_cpu_metrics. destruct (idle_ticks _ _ _ _). reflexivity.
Qed.

Lemma memory_stats_frame env p :
  tasks (self (snd (_collect_memory_stats env p))) = tasks (self p) /\
  task_status (self (snd (_collect_memory_stats env p))) = task_status (self p) /\
  task_capacity (self (snd (_collect_memory_stats env p))) = task_capacity (self p) /\
  psram_seen (self (snd (_collect_memory_stats env p))) =
    (0 <? spiram_total env) || psram_seen (self p).
Proof.
  unfold _collect_memory_stats. cbn [snd]. destruct (0 <? spiram_total env); repeat split.
Qed.

Lemma series_frame overall c0 c1 ms p :
  tasks (self (_update_series_buffers overall c0 c1 ms p)) = tasks (self p) /\
  task_status (self (_update_series_buffers overall c0 c1 ms p)) = task_status (self p) /\
  task_capacity (self (_update_series_buffers overall c0 c1 ms p)) = task_capacity (self p) /\
  psram_seen (self (_update_series_buffers overall c0 c1 ms p)) = psram_seen (self p).
Proof. repeat split. Qed.

Lemma init_frame e p :
  tasks (self (snd (sysmon_init e p))) = tasks (self p) /\
  task_status (self (snd (sysmon_init e p))) = task_status (self p) /\
  task_capacity (self (snd (sysmon_init e p))) = task_capacity (self p) /\
  psram_seen (self (snd (sysmon_init e p))) = psram_seen (self p).
Proof.
  unfold sysmon_init. destruct (negb _); [repeat split|].
  destruct (negb _); [repeat split|].
  destruct (monitor_task_handle (self p)); [repeat split|].
  destruct (task_create e); repeat split.
Qed.

(** An invariant of every step of an iteration is an invariant of the
    iteration. *)
Lemma iteration_invariant (P : Program -> Prop) env p :
  (forall q, P q -> P (snd (_ensure_task_storage_capacity env q))) ->
  (forall q, P q -> P (snd (_sample_task_states env q))) ->
  (forall q h lc, P q ->
     P {| self := self q; prev_idle_ticks_0 := prev_idle_ticks_0 q;
          prev_idle_ticks_1 := prev_idle_ticks_1 q; log_counter := lc; heap := h |}) ->
  (forall q i t name, scratch q !! i = Some t -> pcTaskName t = Some name ->
     P q -> P (snd (_find_or_create_task_index name q))) ->
  (forall q idx ts dt, P q -> P (_update_task_history env idx ts dt q)) ->
  (forall q seen, P q -> P (_process_deleted_tasks seen q)) ->
  (forall q num dt, P q -> P (snd (_calculate_cpu_metrics env num dt q))) ->
  (forall q, P q -> P (snd (_collect_memory_stats env q))) ->
  (forall q overall c0 c1 ms, P q -> P (_update_series_buffers overall c0 c1 ms q)) ->
  P p -> P (sysmon_monitor_iteration env p).
Proof.
  intros Hens Hsam Hstat Hres Hupd Hdel Hcpu Hmem Hser HP.
  unfold sysmon_monitor_iteration.
  pose proof (Hens p HP) as H1.
  destruct (_ensure_task_storage_capacity env p) as [ok p1]. cbn [snd] in H1.
  destruct ok; cbn [negb]; [|exact H1].
  pose proof (Hsam p1 H1) as H2.
  destruct (_sample_task_states env p1) as [[[num dt]|] p2]; cbn [snd] in H2; [|exact H2].
  pose proof (Hstat p2 (heap p2) (wrap_int (log_counter p2 + 1)) H2) as H3.
  set (p3 := {| self := self p2; prev_idle_ticks_0 := prev_idle_ticks_0 p2;
                prev_idle_ticks_1 := prev_idle_ticks_1 p2;
                log_counter := wrap_int (log_counter p2 + 1); heap := heap p2 |}) in *.
  unfold alloc. destruct (calloc_seen_ok env); cbv beta iota; [|exact H3].
  set (h1 := {[fresh (heap p3)]} ∪ heap p3).
  assert (H4 : P (fst (for_loop (Z.to_nat num) (track_task env dt)
                         (set_heap h1 p3, replicate (Z.to_nat (task_capacity (self p3))) false)))).
  { apply (for_loop_invariant (fun st => P (fst st))).
    - cbn [fst]. apply (Hstat p3 h1 (log_counter p3) H3).
    - intros k [q seen] _ Hq. cbn [fst] in Hq. unfold track_task.
      destruct (scratch q !! k) as [t|] eqn:Et; [|exact Hq].
      destruct (pcTaskName t) as [name|] eqn:En; [|exact Hq].
      pose proof (Hres q k t name Et En Hq) as Hr.
      destruct (_find_or_create_task_index name q) as [idx q1]. cbn [snd] in Hr.
      destruct (idx =? -1); cbn [fst]; [exact Hr|]. apply Hupd. exact Hr. }
  destruct (for_loop (Z.to_nat num) (track_task env dt) _) as [p4 seen]. cbn [fst] in H4.
  pose proof (Hdel p4 seen H4) as H5.
  set (p5 := _process_deleted_tasks seen p4) in *.
  pose proof (Hstat p5 (free (Some (fresh (heap p3))) (heap p5)) (log_counter p5) H5) as H6.
  change {| self := self p5; prev_idle_ticks_0 := prev_idle_ticks_0 p5;
            prev_idle_ticks_1 := prev_idle_ticks_1 p5; log_counter := log_counter p5;
            heap := free (Some (fresh (heap p3))) (heap p5) |}
    with (set_heap (free (Some (fresh (heap p3))) (heap p5)) p5) in H6.
  pose proof (Hcpu _ num dt H6) as H7.
  destruct (_calculate_cpu_metrics env num dt _) as [[[c0 c1] ov] p7]. cbn [snd] in H7.
  pose proof (Hmem _ H7) as H8.
  destruct (_collect_memory_stats env p7) as [ms p8]. cbn [snd] in H8.
  apply Hser. exact H8.
Qed.

Lemma iteration_capacity_psram env p :
  task_capacity (self p) <= task_capacity (self (sysmon_monitor_iteration env p)) /\
  task_capacity (self (sysmon_monitor_iteration env p))
    <= Z.max (task_capacity (self p)) SYSMON_MAX_TRACKED_TASKS /\
  (psram_seen (self p) = true -> psram_seen (self (sysmon_monitor_iteration env p)) = true).
Proof.
  apply (iteration_invariant
    (fun q => task_capacity (self p) <= task_capacity (self q) /\
              task_capacity (self q) <= Z.max (task_capacity (self p)) SYSMON_MAX_TRACKED_TASKS /\
              (psram_seen (self p) = true -> psram_seen (self q) = true))).
  - intros q (H1 & H2 & H3). destruct (ensure_capacity env q) as (E1 & E2 & E3).
    rewrite E3. repeat split; [lia|lia|exact H3].
  - intros q H. destruct (sample_frame env q) as (_ & -> & ->). exact H.
  - intros q h lc H. exact H.
  - intros q i t name _ _ H. destruct (find_or_create_frame name q) as (_ & -> & ->). exact H.
  - intros q idx ts dt H. destruct (update_history_frame env idx ts dt q) as (_ & -> & ->). exact H.
  - intros q seen H. destruct (process_deleted_frame seen q) as (_ & -> & ->). exact H.
  - intros q num dt H. rewrite cpu_metrics_self. exact H.
  - intros q (H1 & H2 & H3). destruct (memory_stats_frame env q) as (_ & _ & -> & ->).
    repeat split; [exact H1|exact H2|]. intros Hp. rewrite (H3 Hp). apply orb_true_r.
  - intros q overall c0 c1 ms H. exact H.
  - repeat split; [lia|lia|auto].
Qed.

Lemma monitor_capacity envs : forall p,
  task_capacity (self p) <= task_capacity (self (sysmon_monitor envs p)) /\
  task_capacity (self (sysmon_monitor envs p))
    <= Z.max (task_capacity (self p)) SYSMON_MAX_TRACKED_TASKS.
Proof.
  induction envs as [|env envs IH]; intros p; cbn [sysmon_monitor fold_left].
  - lia.
  - fold (sysmon_monitor envs (sysmon_monitor_iteration env p)).
    destruct (IH (sysmon_monitor_iteration env p)) as [I1 I2].
    destruct (iteration_capacity_psram env p) as (J1 & J2 & _). lia.
Qed.

(** C4: a successful [_ensure_task_storage_capacity] never lowers the
    capacity and leaves it at most [SYSMON_MAX_TRACKED_TASKS]; along every
    further run of the sampling loop the capacity keeps growing
    monotonically and stays at most [SYSMON_MAX_TRACKED_TASKS]. *)
Theorem ensure_capacity_monotone_and_capped env p p' envs :
  task_capacity (self p) <= SYSMON_MAX_TRACKED_TASKS ->
  _ensure_task_storage_capacity env p = (true, p') ->
  task_capacity (self p) <= task_capacity (self p') <= SYSMON_MAX_TRACKED_TASKS /\
  task_capacity (self p') <= task_capacity (self (sysmon_monitor envs p'))
    <= SYSMON_MAX_TRACKED_TASKS.
Proof.
  intros Hmax H. destruct (ensure_capacity env p) as (E1 & E2 & _).
  rewrite H in E1, E2. cbn [snd] in E1, E2.
  destruct (monitor_capacity envs p') as [M1 M2]. lia.
Qed.

(** ** The PSRAM latch *)




(** ** One active slot per name *)

Lemma slots_shrink_names_fit tbl tbl' :
  slots_shrink tbl tbl' -> names_fit tbl -> names_fit tbl'.
Proof.
  intros [_ Hs] Hn j t' Ht' Ha. destruct (Hs j t' Ht') as (t & Ht & Hname & Hact).
  rewrite Hname. apply (Hn j t Ht). auto.
Qed.

Lemma slots_shrink_unique tbl tbl' :
  slots_shrink tbl tbl' -> unique_active tbl -> unique_active tbl'.
Proof.
  intros [_ Hs] Hu i j ti tj Hi Hj Hai Haj Hname.
  destruct (Hs i ti Hi) as (ti0 & Hi0 & Hni & Hacti).
  destruct (Hs j tj Hj) as (tj0 & Hj0 & Hnj & Hactj).
  apply (Hu i j ti0 tj0 Hi0 Hj0); auto. congruence.
Qed.

Lemma table_inv_ext p q :
  tasks (self q) = tasks (self p) -> task_status (self q) = task_status (self p) ->
  task_capacity (self q) = task_capacity (self p) ->
  table_inv p -> table_inv q.
Proof.
  unfold table_inv, table, scratch. intros -> -> ->. auto.
Qed.

Lemma table_inv_set_table l p :
  slots_shrink (table p) l -> table_inv p -> table_inv (set_table l p).
Proof.
  intros Hs (Hlen & Hn & Hu & Hscr). unfold table_inv.
  rewrite table_set_table by apply Hs. rewrite set_table_capacity, set_table_scratch.
  split; [destruct Hs as [-> _]; exact Hlen|].
  split; [exact (slots_shrink_names_fit _ _ Hs Hn)|].
  split; [exact (slots_shrink_unique _ _ Hs Hu)|exact Hscr].
Qed.

Lemma slots_shrink_insert tbl i t t' :
  tbl !! i = Some t -> task_name t' = task_name t ->
  (is_active t' = true -> is_active t = true) ->
  slots_shrink tbl (<[i := t']> tbl).
Proof.
  intros Ht Hname Hact. split; [apply length_insert|].
  intros j u Hu. destruct (Nat.eq_dec i j) as [<-|Hne].
  - rewrite list_lookup_insert_eq in Hu by (apply lookup_lt_Some in Ht; exact Ht).
    injection Hu as <-. eauto.
  - rewrite list_lookup_insert_ne in Hu by exact Hne. eauto.
Qed.

Lemma update_history_table_inv env idx ts dt p :
  table_inv p -> table_inv (_update_task_history env idx ts dt p).
Proof.
  intros H. unfold _update_task_history. destruct (idx <? 0); [exact H|].
  destruct (table p !! Z.to_nat idx) as [t|] eqn:Et; [|exact H].
  apply table_inv_set_table; [|exact H].
  apply (slots_shrink_insert _ _ t); [exact Et|reflexivity|auto].
Qed.

Lemma evicted_name_active seen j t :
  task_name (evicted seen j t) = task_name t /\
  (is_active (evicted seen j t) = true -> is_active t = true).
Proof.
  unfold evicted. destruct (seen !! j) as [[|]|].
  - split; [reflexivity|auto].
  - destruct (is_active t) eqn:Ea.
    + split; [reflexivity|congruence].
    + split; [reflexivity|congruence].
  - split; [reflexivity|auto].
Qed.

Lemma process_deleted_table_inv seen p :
  table_inv p -> table_inv (_process_deleted_tasks seen p).
Proof.
  intros H. unfold _process_deleted_tasks. apply table_inv_set_table; [|exact H].
  split; [apply evict_loop_length|].
  intros j t' Ht'. rewrite evict_loop_lookup in Ht'.
  destruct (j <? Z.to_nat (task_capacity (self p)))%nat; [|eauto].
  destruct (table p !! j) as [t|]; [|discriminate]. cbn in Ht'. injection Ht' as <-.
  exists t. split; [reflexivity|]. apply evicted_name_active.
Qed.

Lemma kernel_name_fits name : kernel_name name -> name_fits name.
Proof using name_field_size. unfold kernel_name, name_fits. pose proof name_field_size. lia. Qed.

Lemma strncpy_fits name : name_fits name -> strncpy (Nat.pred TASK_NAME_SIZE) name = name.
Proof. unfold name_fits. intros H. apply strncpy_short. lia. Qed.

Lemma name_matches_iff p name j t :
  names_fit (table p) -> name_fits name ->
  table p !! j = Some t -> is_active t = true ->
  name_matches (table p) name j = true <-> task_name t = name.
Proof.
  intros Hn Hname Ht Ha. unfold name_matches. rewrite Ht, Ha. cbn [andb]. split.
  - apply (strncmp_eq_short TASK_NAME_SIZE); [apply (Hn j t Ht Ha)|exact Hname].
  - intros <-. apply strncmp_eq_refl.
Qed.

(** The resolver, on a table that satisfies the invariant. *)
Lemma find_or_create_spec name p idx p' :
  table_inv p -> name_fits name ->
  _find_or_create_task_index name p = (idx, p') ->
  (exists j t, idx = Z.of_nat j /\ p' = p /\
     table p !! j = Some t /\ is_active t = true /\ task_name t = name) \/
  ((forall j t, table p !! j = Some t -> is_active t = true -> task_name t <> name) /\
   ((exists j t0, idx = Z.of_nat j /\
       table p !! j = Some t0 /\ is_active t0 = false /\
       (forall i ti, (i < j)%nat -> table p !! i = Some ti -> is_active ti = true) /\
       table p' = <[j := new_slot name]> (table p) /\
       task_name (new_slot name) = name) \/
    (idx = -1 /\ p' = p /\
       forall j t, table p !! j = Some t -> is_active t = true))).
Proof.
  intros (Hlen & Hn & Hu & Hscr) Hname H. unfold _find_or_create_task_index in H.
  cbv zeta in H.
  destruct (find_index _ (name_matches (table p) name)) as [j|] eqn:Ef.
  - left. injection H as <- <-. apply find_index_Some in Ef. destruct Ef as (Hj & Hm & _).
    unfold name_matches in Hm. destruct (table p !! j) as [t|] eqn:Et; [|discriminate].
    apply andb_true_iff in Hm. destruct Hm as [Ha Hs].
    exists j, t. repeat split; try assumption.
    apply (strncmp_eq_short TASK_NAME_SIZE); [apply (Hn j t Et Ha)|exact Hname|exact Hs].
  - right.
    assert (Hno : forall j t, table p !! j = Some t -> is_active t = true -> task_name t <> name).
    { intros j t Ht Ha Heq.
      pose proof (find_index_None _ _ Ef j) as Hf.
      rewrite (proj2 (name_matches_iff p name j t Hn Hname Ht Ha) Heq) in Hf.
      apply lookup_lt_Some in Ht. rewrite Hlen in Ht. specialize (Hf Ht). discriminate. }
    split; [exact Hno|].
    destruct (find_index _ (slot_free (table p))) as [j|] eqn:Es.
    + left. injection H as <- <-. apply find_index_Some in Es. destruct Es as (Hj & Hfree & Hbefore).
      unfold slot_free in Hfree. destruct (table p !! j) as [t0|] eqn:Et0; [|discriminate].
      exists j, t0. split; [reflexivity|]. split; [exact Et0|].
      split; [destruct (is_active t0); [discriminate|reflexivity]|].
      split.
      { intros i ti Hi Hti. specialize (Hbefore i Hi). unfold slot_free in Hbefore.
        rewrite Hti in Hbefore. destruct (is_active ti); [reflexivity|discriminate]. }
      split; [apply table_set_table, length_insert|].
      cbn. apply strncpy_fits, Hname.
    + right. injection H as <- <-. split; [reflexivity|]. split; [reflexivity|].
      intros j t Ht. pose proof (find_index_None _ _ Es j) as Hf.
      pose proof (lookup_lt_Some _ _ _ Ht) as Hlt. rewrite Hlen in Hlt. specialize (Hf Hlt).
      unfold slot_free in Hf. rewrite Ht in Hf. destruct (is_active t); [reflexivity|discriminate].
Qed.

Lemma find_or_create_table_inv name p :
  table_inv p -> name_fits name -> table_inv (snd (_find_or_create_task_index name p)).
Proof.
  intros Hinv Hname.
  destruct (_find_or_create_task_index name p) as [idx p'] eqn:E. cbn [snd].
  destruct (find_or_create_frame name p) as (Hst & Hcap & _). rewrite E in Hst, Hcap.
  cbn [snd] in Hst, Hcap.
  destruct (find_or_create_spec name p idx p' Hinv Hname E)
    as [(j & t & _ & -> & _)|[Hno [(j & t0 & _ & Ht0 & Hin & _ & Htab & Hnew)|(_ & -> & _)]]];
    try exact Hinv.
  destruct Hinv as (Hlen & Hn & Hu & Hscr).
  unfold table_inv. rewrite Htab, Hcap, length_insert.
  unfold scratch. rewrite Hst. fold (scratch p).
  split; [exact Hlen|]. split; [|split; [|exact Hscr]].
  - intros i u Hi Ha. destruct (Nat.eq_dec j i) as [<-|Hne].
    + rewrite list_lookup_insert_eq in Hi by (apply lookup_lt_Some in Ht0; exact Ht0).
      injection Hi as <-. rewrite Hnew. exact Hname.
    + rewrite list_lookup_insert_ne in Hi by exact Hne. apply (Hn i u Hi Ha).
  - intros i1 i2 u1 u2 H1 H2 A1 A2 Heq.
    pose proof (lookup_lt_Some _ _ _ Ht0) as Hjlt.
    destruct (Nat.eq_dec j i1) as [<-|N1]; destruct (Nat.eq_dec j i2) as [<-|N2];
      try reflexivity.
    + rewrite list_lookup_insert_eq in H1 by exact Hjlt. injection H1 as <-.
      rewrite list_lookup_insert_ne in H2 by exact N2.
      exfalso. apply (Hno i2 u2 H2 A2). rewrite <- Heq. exact Hnew.
    + rewrite list_lookup_insert_eq in H2 by exact Hjlt. injection H2 as <-.
      rewrite list_lookup_insert_ne in H1 by exact N1.
      exfalso. apply (Hno i1 u1 H1 A1). rewrite Heq. exact Hnew.
    + rewrite list_lookup_insert_ne in H1 by exact N1.
      rewrite list_lookup_insert_ne in H2 by exact N2.
      apply (Hu i1 i2 u1 u2); assumption.
Qed.

Lemma copy_active_length old cap new_tasks :
  length (copy_active old cap new_tasks) = length new_tasks.
Proof.
  unfold copy_active.
  apply (for_loop_invariant (fun acc => length acc = length new_tasks)); [reflexivity|].
  intros k acc _ Hacc. destruct (old !! k) as [t|]; [|exact Hacc].
  destruct (is_active t); [rewrite length_insert|]; exact Hacc.
Qed.

Lemma copy_active_nil cap new_tasks : copy_active [] cap new_tasks = new_tasks.
Proof.
  unfold copy_active.
  apply (for_loop_invariant (fun acc => acc = new_tasks)); [reflexivity|].
  intros k acc _ ->. reflexivity.
Qed.

Lemma copy_active_lookup old cap new_tasks j :
  (Z.to_nat cap <= length new_tasks)%nat ->
  copy_active old cap new_tasks !! j =
    if (j <? Z.to_nat cap)%nat then
      match old !! j with
      | Some t => if is_active t then Some t else new_tasks !! j
      | None => new_tasks !! j
      end
    else new_tasks !! j.
Proof.
  unfold copy_active. generalize (Z.to_nat cap) as n.
  induction n as [|n IH]; intros Hn; cbn [for_loop]; [reflexivity|].
  specialize (IH ltac:(lia)).
  set (acc := for_loop n _ new_tasks) in *.
  assert (Hlen : length acc = length new_tasks).
  { unfold acc. apply (for_loop_invariant (fun a => length a = length new_tasks)); [reflexivity|].
    intros k a _ Ha. destruct (old !! k) as [t|]; [|exact Ha].
    destruct (is_active t); [rewrite length_insert|]; exact Ha. }
  destruct (Nat.eq_dec j n) as [->|Hne].
  - destruct (Nat.ltb_spec n (S n)); [|lia].
    rewrite Nat.ltb_irrefl in IH.
    destruct (old !! n) as [t|]; [|exact IH].
    destruct (is_active t); [|exact IH].
    apply list_lookup_insert_eq. lia.
  - assert (Hb : (j <? S n)%nat = (j <? n)%nat).
    { destruct (Nat.ltb_spec j (S n)), (Nat.ltb_spec j n); try reflexivity; lia. }
    rewrite Hb, <- IH.
    destruct (old !! n) as [t|]; [|reflexivity].
    destruct (is_active t); [|reflexivity].
    apply list_lookup_insert_ne. auto.
Qed.

(** The table after a growth step. *)
Lemma grown_table_spec old cap cap' :
  length old = Z.to_nat cap -> cap < cap' ->
  let tbl' := copy_active old cap (replicate (Z.to_nat cap') zero_slot) in
  length tbl' = Z.to_nat cap' /\
  (forall j t, old !! j = Some t -> is_active t = true -> tbl' !! j = Some t) /\
  (forall j t', tbl' !! j = Some t' -> is_active t' = true -> old !! j = Some t').
Proof.
  intros Hlen Hlt tbl'.
  assert (Hle : (Z.to_nat cap <= length (replicate (Z.to_nat cap') zero_slot))%nat)
    by (rewrite length_replicate; lia).
  split; [unfold tbl'; rewrite copy_active_length, length_replicate; reflexivity|].
  split.
  - intros j t Ht Ha. unfold tbl'. rewrite copy_active_lookup by exact Hle.
    pose proof (lookup_lt_Some _ _ _ Ht) as Hj. rewrite Hlen in Hj.
    destruct (Nat.ltb_spec j (Z.to_nat cap)); [|lia]. rewrite Ht, Ha. reflexivity.
  - intros j t' Ht' Ha. unfold tbl' in Ht'. rewrite copy_active_lookup in Ht' by exact Hle.
    assert (Hz : forall u, replicate (Z.to_nat cap') zero_slot !! j = Some u -> is_active u = false).
    { intros u Hu. apply lookup_replicate in Hu. destruct Hu as [-> _]. reflexivity. }
    destruct (j <? Z.to_nat cap)%nat.
    + destruct (old !! j) as [t|].
      * destruct (is_active t) eqn:Et; [exact Ht'|]. rewrite (Hz _ Ht') in Ha. discriminate.
      * rewrite (Hz _ Ht') in Ha. discriminate.
    + rewrite (Hz _ Ht') in Ha. discriminate.
Qed.

Lemma grow_cases env q a full ok p' :
  grow_task_storage env q a full = (ok, p') ->
  p' = q \/
  (ok = true /\ task_capacity (self q) < task_capacity (self p') /\
   table p' = copy_active (table q) (task_capacity (self q))
                (replicate (Z.to_nat (task_capacity (self p'))) zero_slot) /\
   scratch p' = replicate (Z.to_nat (task_capacity (self p'))) blank_status).
Proof.
  unfold grow_task_storage. cbv zeta.
  destruct (Z.leb_spec (required_capacity a full) (task_capacity (self q))) as [Hle|Hgt].
  { intros H. injection H as _ <-. left. reflexivity. }
  unfold alloc. destruct (calloc_tasks_ok env); cbv beta iota.
  - destruct (malloc_status_ok env); cbv beta iota.
    + intros H. injection H as <- <-. right. cbn.
      split; [reflexivity|]. split; [lia|]. split; [|reflexivity].
      unfold table. destruct (tasks (self q)); [reflexivity|]. rewrite copy_active_nil. reflexivity.
    + intros H. injection H as _ <-. left. rewrite alloc_free_fresh, set_heap_same. reflexivity.
  - intros H. injection H as _ <-. left. reflexivity.
Qed.

Lemma uxTaskGetSystemState_entries_ok k buf size :
  Forall entry_ok (ka_entries k) -> Forall entry_ok buf ->
  Forall entry_ok (fst (uxTaskGetSystemState k buf size)).
Proof.
  intros Hk Hb. unfold uxTaskGetSystemState. cbn [fst].
  apply Forall_app. split; [apply Forall_take, Hk|apply Forall_drop, Hb].
Qed.

Lemma probe_storage_table_inv env p :
  env_ok env -> table_inv p -> table_inv (probe_storage env p).
Proof.
  intros [Hprobe _] (Hlen & Hn & Hu & Hscr).
  destruct (probe_storage_frame env p) as (Ht & Hc & _).
  unfold table_inv, table. rewrite Ht, Hc. fold (table p).
  split; [exact Hlen|]. split; [exact Hn|]. split; [exact Hu|].
  unfold probe_storage, scratch in *. destruct (task_status (self p)) as [sb|] eqn:E.
  - destruct (0 <? task_capacity (self p)); [|rewrite E; exact Hscr].
    cbn. apply uxTaskGetSystemState_entries_ok; assumption.
  - rewrite E. exact Hscr.
Qed.

Lemma grown_table_inv q p' :
  table_inv q -> task_capacity (self q) < task_capacity (self p') ->
  table p' = copy_active (table q) (task_capacity (self q))
               (replicate (Z.to_nat (task_capacity (self p'))) zero_slot) ->
  scratch p' = replicate (Z.to_nat (task_capacity (self p'))) blank_status ->
  table_inv p'.
Proof.
  intros (Hlen & Hn & Hu & _) Hlt Htab Hscr.
  destruct (grown_table_spec (table q) _ _ Hlen Hlt) as (Hl' & _ & Hback).
  unfold table_inv. rewrite Htab, Hscr.
  split; [exact Hl'|]. split; [|split].
  - intros j t' Ht' Ha. apply (Hn j t'); [apply Hback|]; assumption.
  - intros i j ti tj Hi Hj Ai Aj Heq. apply (Hu i j ti tj); auto.
  - apply Forall_replicate. intros name Hname. discriminate.
Qed.

Lemma ensure_table_inv env p :
  env_ok env -> table_inv p -> table_inv (snd (_ensure_task_storage_capacity env p)).
Proof.
  intros Henv Hinv. pose proof (probe_storage_table_inv env p Henv Hinv) as Hq.
  destruct (ensure_cases env p) as (a & full & [E|E]); rewrite E; [exact Hq|].
  destruct (grow_task_storage env (probe_storage env p) a full) as [ok p'] eqn:G. cbn [snd].
  destruct (grow_cases _ _ _ _ _ _ G) as [->|(_ & Hlt & Htab & Hscr)]; [exact Hq|].
  exact (grown_table_inv _ _ Hq Hlt Htab Hscr).
Qed.

Lemma sample_table_inv env p :
  env_ok env -> table_inv p -> table_inv (snd (_sample_task_states env p)).
Proof.
  intros [_ Hsnap] (Hlen & Hn & Hu & Hscr).
  destruct (sample_frame env p) as (Ht & Hc & _).
  unfold table_inv, table. rewrite Ht, Hc. fold (table p).
  split; [exact Hlen|]. split; [exact Hn|]. split; [exact Hu|].
  unfold _sample_task_states, scratch in *. cbv zeta.
  destruct (task_status (self p)) as [sb|] eqn:E; [|cbn [snd]; rewrite E; exact Hscr].
  pose proof (uxTaskGetSystemState_entries_ok (snapshot env) (cells sb)
                (task_capacity (self p)) Hsnap Hscr) as Hnew.
  destruct (uxTaskGetSystemState _ _ _) as [cells' num]. cbn [fst] in Hnew.
  destruct (num =? 0); exact Hnew.
Qed.

Lemma deinit_table_inv p : table_inv (sysmon_deinit p).
Proof.
  unfold table_inv, table, scratch, sysmon_deinit. cbn.
  split; [reflexivity|]. split; [intros j t H; discriminate|].
  split; [intros i j ti tj H; discriminate|constructor].
Qed.

Lemma init_state_table_inv : table_inv program_init.
Proof.
  unfold table_inv, table, scratch, program_init. cbn.
  split; [reflexivity|]. split; [intros j t H; discriminate|].
  split; [intros i j ti tj H; discriminate|constructor].
Qed.

Lemma scratch_name_fits q i t name :
  table_inv q -> scratch q !! i = Some t -> pcTaskName t = Some name -> name_fits name.
Proof using name_field_size.
  intros (_ & _ & _ & Hscr) Ht Hname. apply kernel_name_fits.
  rewrite Forall_lookup in Hscr. exact (Hscr i t Ht name Hname).
Qed.

Lemma iteration_table_inv env p :
  env_ok env -> table_inv p -> table_inv (sysmon_monitor_iteration env p).
Proof using name_field_size.
  intros Henv. apply iteration_invariant.
  - intros q. apply ensure_table_inv, Henv.
  - intros q. apply sample_table_inv, Henv.
  - intros q h lc H. exact H.
  - intros q i t name Ht Hname H. apply find_or_create_table_inv; [exact H|].
    exact (scratch_name_fits q i t name H Ht Hname).
  - intros q idx ts dt. apply update_history_table_inv.
  - intros q seen. apply process_deleted_table_inv.
  - intros q num dt H. apply (table_inv_ext q); [| | |exact H];
      rewrite cpu_metrics_self; reflexivity.
  - intros q H. destruct (memory_stats_frame env q) as (? & ? & ? & _).
    apply (table_inv_ext q); assumption.
  - intros q overall c0 c1 ms H. exact H.
Qed.

Lemma exec_table_inv o p : op_ok o -> table_inv p -> table_inv (exec o p).
Proof using name_field_size.
  intros Hok H. destruct o; cbn [exec op_ok] in *.
  - destruct (init_frame e p) as (? & ? & ? & _). apply (table_inv_ext p); assumption.
  - apply deinit_table_inv.
  - apply iteration_table_inv; assumption.
  - apply ensure_table_inv; assumption.
  - apply sample_table_inv; assumption.
  - apply find_or_create_table_inv; [assumption|apply kernel_name_fits; assumption].
  - apply update_history_table_inv; assumption.
  - apply process_deleted_table_inv; assumption.
  - apply (table_inv_ext p); [| | |exact H]; rewrite cpu_metrics_self; reflexivity.
  - destruct (memory_stats_frame e p) as (? & ? & ? & _). apply (table_inv_ext p); assumption.
  - exact H.
Qed.

Lemma reachable_table_inv p : reachable p -> table_inv p.
Proof using name_field_size.
  induction 1 as [|o p Hok Hr IH]; [apply init_state_table_inv|].
  apply exec_table_inv; assumption.
Qed.

Lemma ensure_growth_copies env p p' :
  table_inv p -> _ensure_task_storage_capacity env p = (true, p') ->
  task_capacity (self p) < task_capacity (self p') ->
  length (table p') = Z.to_nat (task_capacity (self p')) /\
  (forall j t, table p !! j = Some t -> is_active t = true -> table p' !! j = Some t) /\
  (forall j t', table p' !! j = Some t' -> is_active t' = true -> table p !! j = Some t').
Proof.
  intros (Hlen & _) H Hlt.
  destruct (probe_storage_frame env p) as (Ht & Hc & _).
  assert (Htab : table (probe_storage env p) = table p) by (unfold table; rewrite Ht; reflexivity).
  destruct (ensure_cases env p) as (a & full & [E|E]); rewrite E in H.
  - injection H as <-. lia.
  - destruct (grow_cases _ _ _ _ _ _ H) as [->|(_ & Hlt' & Htab' & _)]; [lia|].
    rewrite Htab, Hc in Htab'. rewrite Htab'.
    exact (grown_table_spec (table p) _ _ Hlen Hlt).
Qed.

(** C5: when the name field of a slot holds every name the kernel can
    report, at most one active slot carries a given name in every state
    the program can reach.  There the resolver either returns the index of the one active
    slot that carries the name and changes nothing, or, when no active
    slot carries it, writes a fresh slot for the name into the first
    inactive position (or returns -1 when every slot is active).  When the
    capacity manager grows the table, each active slot is found at the
    same index of the new table and the new table has no other active
    slot. *)
Theorem one_active_slot_per_name p :
  reachable p ->
  unique_active (table p) /\
  (forall name idx p',
     kernel_name name -> _find_or_create_task_index name p = (idx, p') ->
     (exists j t, idx = Z.of_nat j /\ p' = p /\
        table p !! j = Some t /\ is_active t = true /\ task_name t = name) \/
     ((forall j t, table p !! j = Some t -> is_active t = true -> task_name t <> name) /\
      ((exists j t0, idx = Z.of_nat j /\
          table p !! j = Some t0 /\ is_active t0 = false /\
          (forall i ti, (i < j)%nat -> table p !! i = Some ti -> is_active ti = true) /\
          table p' = <[j := new_slot name]> (table p) /\
          task_name (new_slot name) = name) \/
       (idx = -1 /\ p' = p /\
          forall j t, table p !! j = Some t -> is_active t = true)))) /\
  (forall env p',
     _ensure_task_storage_capacity env p = (true, p') ->
     task_capacity (self p) < task_capacity (self p') ->
     length (table p') = Z.to_nat (task_capacity (self p')) /\
     (forall j t, table p !! j = Some t -> is_active t = true -> table p' !! j = Some t) /\
     (forall j t', table p' !! j = Some t' -> is_active t' = true -> table p !! j = Some t')).
Proof using name_field_size.
  intros Hr. pose proof (reachable_table_inv p Hr) as Hinv.
  split; [apply Hinv|]. split.
  - intros name idx p' Hname H.
    exact (find_or_create_spec name p idx p' Hinv (kernel_name_fits name Hname) H).
  - intros env p' H Hlt. exact (ensure_growth_copies env p p' Hinv H Hlt).
Qed.

(** ** Storage bounds in reachable states *)

Lemma scratch_wf_ext p q :
  task_status (self q) = task_status (self p) ->
  task_capacity (self q) = task_capacity (self p) ->
  scratch_wf p -> scratch_wf q.
Proof. unfold scratch_wf, scratch. intros -> ->. auto. Qed.

Lemma ensure_scratch_wf env p :
  scratch_wf p -> scratch_wf (snd (_ensure_task_storage_capacity env p)).
Proof.
  intros Hwf.
  assert (Hq : scratch_wf (probe_storage env p)).
  { pose proof (probe_storage_block env p Hwf) as Hb.
    destruct (probe_storage_frame env p) as (_ & Hc & _).
    unfold scratch_wf, scratch in *. rewrite Hc.
    destruct (task_status (self (probe_storage env p))) as [b1|],
             (task_status (self p)) as [b2|]; cbn in Hb; try discriminate; [|exact Hwf].
    injection Hb as _ Hl. rewrite Hl. exact Hwf. }
  destruct (ensure_cases env p) as (a & full & [E|E]); rewrite E; [exact Hq|].
  destruct (grow_task_storage env (probe_storage env p) a full) as [ok p'] eqn:G. cbn [snd].
  destruct (grow_cases _ _ _ _ _ _ G) as [->|(_ & _ & _ & Hscr)]; [exact Hq|].
  unfold scratch_wf. rewrite Hscr. apply length_replicate.
Qed.

Lemma sample_scratch_wf env p :
  scratch_wf p -> scratch_wf (snd (_sample_task_states env p)).
Proof.
  intros Hwf. destruct (sample_frame env p) as (_ & Hc & _).
  unfold scratch_wf in *. rewrite Hc. unfold _sample_task_states, scratch in *. cbv zeta.
  destruct (task_status (self p)) as [sb|] eqn:E; [|cbn [snd]; rewrite E; exact Hwf].
  pose proof (uxTaskGetSystemState_length (snapshot env) (cells sb) _ Hwf) as Hl.
  destruct (uxTaskGetSystemState _ _ _) as [cells' num]. cbn [fst] in Hl.
  destruct (num =? 0); cbn; rewrite Hl; exact Hwf.
Qed.

Lemma iteration_scratch_wf env p :
  scratch_wf p -> scratch_wf (sysmon_monitor_iteration env p).
Proof.
  apply iteration_invariant.
  - intros q. apply ensure_scratch_wf.
  - intros q. apply sample_scratch_wf.
  - intros q h lc H. exact H.
  - intros q i t name _ _ H. destruct (find_or_create_frame name q) as (? & ? & _).
    apply (scratch_wf_ext q); assumption.
  - intros q idx ts dt H. destruct (update_history_frame env idx ts dt q) as (? & ? & _).
    apply (scratch_wf_ext q); assumption.
  - intros q seen H. destruct (process_deleted_frame seen q) as (? & ? & _).
    apply (scratch_wf_ext q); assumption.
  - intros q num dt H. apply (scratch_wf_ext q); [| |exact H]; rewrite cpu_metrics_self; reflexivity.
  - intros q H. destruct (memory_stats_frame env q) as (_ & ? & ? & _).
    apply (scratch_wf_ext q); assumption.
  - intros q overall c0 c1 ms H. exact H.
Qed.

Lemma exec_scratch_wf o p : scratch_wf p -> scratch_wf (exec o p).
Proof.
  intros H. destruct o; cbn [exec].
  - destruct (init_frame e p) as (_ & ? & ? & _). apply (scratch_wf_ext p); assumption.
  - reflexivity.
  - apply iteration_scratch_wf, H.
  - apply ensure_scratch_wf, H.
  - apply sample_scratch_wf, H.
  - destruct (find_or_create_frame name p) as (? & ? & _). apply (scratch_wf_ext p); assumption.
  - destruct (update_history_frame e idx ts delta_total p) as (? & ? & _).
    apply (scratch_wf_ext p); assumption.
  - destruct (process_deleted_frame tasks_seen p) as (? & ? & _).
    apply (scratch_wf_ext p); assumption.
  - apply (scratch_wf_ext p); [| |exact H]; rewrite cpu_metrics_self; reflexivity.
  - destruct (memory_stats_frame e p) as (_ & ? & ? & _). apply (scratch_wf_ext p); assumption.
  - exact H.
Qed.

(** In every reachable state the scratch array has [task_capacity]
    cells: the premise of the failure theorem of the capacity manager. *)
Lemma reachable_scratch_wf p : reachable p -> scratch_wf p.
Proof.
  induction 1 as [|o p _ _ IH]; [reflexivity|]. apply exec_scratch_wf, IH.
Qed.

Lemma exec_capacity_capped o p :
  0 <= SYSMON_MAX_TRACKED_TASKS ->
  task_capacity (self p) <= SYSMON_MAX_TRACKED_TASKS ->
  task_capacity (self (exec o p)) <= SYSMON_MAX_TRACKED_TASKS.
Proof.
  intros H0 H. destruct o; cbn [exec].
  - destruct (init_frame e p) as (_ & _ & -> & _). exact H.
  - exact H0.
  - destruct (iteration_capacity_psram e p) as (_ & Hc & _). lia.
  - destruct (ensure_capacity e p) as (_ & Hc & _). lia.
  - destruct (sample_frame e p) as (_ & -> & _). exact H.
  - destruct (find_or_create_frame name p) as (_ & -> & _). exact H.
  - destruct (update_history_frame e idx ts delta_total p) as (_ & -> & _). exact H.
  - destruct (process_deleted_frame tasks_seen p) as (_ & -> & _). exact H.
  - rewrite cpu_metrics_self. exact H.
  - destruct (memory_stats_frame e p) as (_ & _ & -> & _). exact H.
  - exact H.
Qed.

(** With a nonnegative cap, the capacity of every reachable state is at
    most [SYSMON_MAX_TRACKED_TASKS]: the premise of the capacity theorem. *)
Lemma reachable_capacity_capped p :
  0 <= SYSMON_MAX_TRACKED_TASKS -> reachable p ->
  task_capacity (self p) <= SYSMON_MAX_TRACKED_TASKS.
Proof.
  intros H0. induction 1 as [|o p _ _ IH]; [exact H0|]. apply exec_capacity_capped; assumption.
Qed.

(** ** Cursors and histories in reachable states *)

Lemma cursor_in_range w :
  0 < CONFIG_SYSMON_SAMPLE_COUNT <= INT_MAX -> 0 <= w < CONFIG_SYSMON_SAMPLE_COUNT ->
  0 <= Z.rem (wrap_int (w + 1)) CONFIG_SYSMON_SAMPLE_COUNT < CONFIG_SYSMON_SAMPLE_COUNT.
Proof.
  intros HN Hw. rewrite advance_cursor by assumption. apply Z.mod_pos_bound. lia.
Qed.

Lemma slot_wf_zero : 0 < CONFIG_SYSMON_SAMPLE_COUNT -> slot_wf zero_slot.
Proof.
  intros HN. unfold slot_wf, zero_slot, zero_history. cbn.
  rewrite !length_replicate. repeat split; lia.
Qed.

Lemma slot_wf_new name : 0 < CONFIG_SYSMON_SAMPLE_COUNT -> slot_wf (new_slot name).
Proof.
  intros HN. unfold slot_wf, new_slot, zero_history. cbn.
  rewrite !length_replicate. repeat split; lia.
Qed.

Lemma slot_wf_update env ts dt t :
  0 < CONFIG_SYSMON_SAMPLE_COUNT <= INT_MAX -> slot_wf t -> slot_wf (update_slot env ts dt t).
Proof.
  intros HN (Hw & H1 & H2 & H3). unfold slot_wf, update_slot. cbn.
  rewrite !length_insert. split; [apply cursor_in_range; assumption|auto].
Qed.

Lemma slot_wf_miss t :
  0 < CONFIG_SYSMON_SAMPLE_COUNT <= INT_MAX -> slot_wf t -> slot_wf (miss_slot t).
Proof.
  intros HN (Hw & H1 & H2 & H3). unfold slot_wf, miss_slot. cbn.
  rewrite !length_insert. split; [apply cursor_in_range; assumption|auto].
Qed.

Lemma slots_wf_set_table l p :
  length l = length (table p) -> Forall slot_wf l -> slots_wf (set_table l p).
Proof. intros Hl H. unfold slots_wf. rewrite table_set_table by exact Hl. exact H. Qed.

Lemma slots_wf_ext p q : tasks (self q) = tasks (self p) -> slots_wf p -> slots_wf q.
Proof. unfold slots_wf, table. intros ->. auto. Qed.

Lemma find_or_create_slots_wf name p :
  0 < CONFIG_SYSMON_SAMPLE_COUNT ->
  slots_wf p -> slots_wf (snd (_find_or_create_task_index name p)).
Proof.
  intros HN H. unfold _find_or_create_task_index. cbv zeta.
  destruct (find_index _ (name_matches _ _)); [exact H|].
  destruct (find_index _ (slot_free _)); [|exact H]. cbn [snd].
  apply slots_wf_set_table; [apply length_insert|].
  apply Forall_insert; [exact H|apply slot_wf_new, HN].
Qed.

Lemma update_history_slots_wf env idx ts dt p :
  0 < CONFIG_SYSMON_SAMPLE_COUNT <= INT_MAX ->
  slots_wf p -> slots_wf (_update_task_history env idx ts dt p).
Proof.
  intros HN H. unfold _update_task_history. destruct (idx <? 0); [exact H|].
  destruct (table p !! Z.to_nat idx) as [t|] eqn:Et; [|exact H].
  apply slots_wf_set_table; [apply length_insert|].
  apply Forall_insert; [exact H|]. apply slot_wf_update; [exact HN|].
  unfold slots_wf in H. rewrite Forall_lookup in H. exact (H _ _ Et).
Qed.

Lemma process_deleted_slots_wf seen p :
  0 < CONFIG_SYSMON_SAMPLE_COUNT <= INT_MAX ->
  slots_wf p -> slots_wf (_process_deleted_tasks seen p).
Proof.
  intros HN H. unfold _process_deleted_tasks.
  apply slots_wf_set_table; [apply evict_loop_length|].
  apply (for_loop_invariant (Forall slot_wf)); [exact H|].
  intros k tbl _ Htbl. unfold evict_slot.
  destruct (tbl !! k) as [t|] eqn:Et; [|exact Htbl].
  destruct (seen !! k) as [sn|]; [|exact Htbl].
  destruct (is_active t && negb sn); [|exact Htbl].
  apply Forall_insert; [exact Htbl|]. apply slot_wf_miss; [exact HN|].
  rewrite Forall_lookup in Htbl. exact (Htbl _ _ Et).
Qed.

Lemma copy_active_slots_wf old cap new_tasks :
  Forall slot_wf old -> Forall slot_wf new_tasks ->
  Forall slot_wf (copy_active old cap new_tasks).
Proof.
  intros Hold Hnew. unfold copy_active.
  apply (for_loop_invariant (Forall slot_wf)); [exact Hnew|].
  intros k acc _ Hacc. destruct (old !! k) as [t|] eqn:Et; [|exact Hacc].
  destruct (is_active t); [|exact Hacc].
  apply Forall_insert; [exact Hacc|]. rewrite Forall_lookup in Hold. exact (Hold _ _ Et).
Qed.

Lemma ensure_slots_wf env p :
  0 < CONFIG_SYSMON_SAMPLE_COUNT ->
  slots_wf p -> slots_wf (snd (_ensure_task_storage_capacity env p)).
Proof.
  intros HN H.
  assert (Hq : slots_wf (probe_storage env p)).
  { apply (slots_wf_ext p); [apply probe_storage_frame|exact H]. }
  destruct (ensure_cases env p) as (a & full & [E|E]); rewrite E; [exact Hq|].
  destruct (grow_task_storage env (probe_storage env p) a full) as [ok p'] eqn:G. cbn [snd].
  destruct (grow_cases _ _ _ _ _ _ G) as [->|(_ & _ & Htab & _)]; [exact Hq|].
  unfold slots_wf. rewrite Htab. apply copy_active_slots_wf; [exact Hq|].
  apply Forall_replicate, slot_wf_zero, HN.
Qed.

Lemma iteration_slots_wf env p :
  0 < CONFIG_SYSMON_SAMPLE_COUNT <= INT_MAX ->
  slots_wf p -> slots_wf (sysmon_monitor_iteration env p).
Proof.
  intros HN. apply iteration_invariant.
  - intros q. apply ensure_slots_wf. lia.
  - intros q H. apply (slots_wf_ext q); [apply sample_frame|exact H].
  - intros q h lc H. exact H.
  - intros q i t name _ _. apply find_or_create_slots_wf. lia.
  - intros q idx ts dt. apply update_history_slots_wf, HN.
  - intros q seen. apply process_deleted_slots_wf, HN.
  - intros q num dt H. apply (slots_wf_ext q); [rewrite cpu_metrics_self; reflexivity|exact H].
  - intros q H. apply (slots_wf_ext q); [apply memory_stats_frame|exact H].
  - intros q overall c0 c1 ms H. exact H.
Qed.

Lemma exec_slots_wf o p :
  0 < CONFIG_SYSMON_SAMPLE_COUNT <= INT_MAX -> slots_wf p -> slots_wf (exec o p).
Proof.
  intros HN H. destruct o; cbn [exec].
  - apply (slots_wf_ext p); [apply init_frame|exact H].
  - constructor.
  - apply iteration_slots_wf; assumption.
  - apply ensure_slots_wf; [lia|exact H].
  - apply (slots_wf_ext p); [apply sample_frame|exact H].
  - apply find_or_create_slots_wf; [lia|exact H].
  - apply update_history_slots_wf; assumption.
  - apply process_deleted_slots_wf; assumption.
  - apply (slots_wf_ext p); [rewrite cpu_metrics_self; reflexivity|exact H].
  - apply (slots_wf_ext p); [apply memory_stats_frame|exact H].
  - exact H.
Qed.

(** In every reachable state each slot has its cursor inside its three
    histories of [CONFIG_SYSMON_SAMPLE_COUNT] entries: the premise of the
    eviction and per-task theorems on the slot they address. *)
Lemma reachable_slots_wf p :
  0 < CONFIG_SYSMON_SAMPLE_COUNT <= INT_MAX -> reachable p -> slots_wf p.
Proof.
  intros HN. induction 1 as [|o p _ _ IH]; [constructor|]. apply exec_slots_wf; assumption.
Qed.

(** ** What each helper leaves alone *)

Lemma set_table_keeps l p :
  heap (set_table l p) = heap p /\
  base <$> tasks (self (set_table l p)) = base <$> tasks (self p) /\
  series_of (self (set_table l p)) = series_of (self p) /\
  prev_total_run_time (self (set_table l p)) = prev_total_run_time (self p) /\
  monitor_task_handle (self (set_table l p)) = monitor_task_handle (self p) /\
  prev_idle_ticks_0 (set_table l p) = prev_idle_ticks_0 p /\
  prev_idle_ticks_1 (set_table l p) = prev_idle_ticks_1 p /\
  log_counter (set_table l p) = log_counter p.
Proof.
  unfold set_table. destruct (tasks (self p)) as [tb|] eqn:E; cbn; rewrite ?E; repeat split.
Qed.

Lemma find_or_create_keeps name p :
  let q := snd (_find_or_create_task_index name p) in
  heap q = heap p /\
  base <$> tasks (self q) = base <$> tasks (self p) /\
  series_of (self q) = series_of (self p) /\
  prev_total_run_time (self q) = prev_total_run_time (self p) /\
  monitor_task_handle (self q) = monitor_task_handle (self p) /\
  prev_idle_ticks_0 q = prev_idle_ticks_0 p /\
  prev_idle_ticks_1 q = prev_idle_ticks_1 p /\
  log_counter q = log_counter p.
Proof.
  unfold _find_or_create_task_index. cbv zeta.
  destruct (find_index _ (name_matches _ _)); [repeat split|].
  destruct (find_index _ (slot_free _)); [|repeat split].
  cbn [snd]. apply set_table_keeps.
Qed.

Lemma update_history_keeps env idx ts dt p :
  let q := _update_task_history env idx ts dt p in
  heap q = heap p /\
  base <$> tasks (self q) = base <$> tasks (self p) /\
  series_of (self q) = series_of (self p) /\
  prev_total_run_time (self q) = prev_total_run_time (self p) /\
  monitor_task_handle (self q) = monitor_task_handle (self p) /\
  prev_idle_ticks_0 q = prev_idle_ticks_0 p /\
  prev_idle_ticks_1 q = prev_idle_ticks_1 p /\
  log_counter q = log_counter p.
Proof.
  unfold _update_task_history. cbv zeta. destruct (idx <? 0); [repeat split|].
  destruct (table p !! Z.to_nat idx); [|repeat split]. apply set_table_keeps.
Qed.

Lemma process_deleted_keeps seen p :
  let q := _process_deleted_tasks seen p in
  heap q = heap p /\
  base <$> tasks (self q) = base <$> tasks (self p) /\
  series_of (self q) = series_of (self p) /\
  prev_total_run_time (self q) = prev_total_run_time (self p) /\
  monitor_task_handle (self q) = monitor_task_handle (self p) /\
  prev_idle_ticks_0 q = prev_idle_ticks_0 p /\
  prev_idle_ticks_1 q = prev_idle_ticks_1 p /\
  log_counter q = log_counter p.
Proof. unfold _process_deleted_tasks. cbv zeta. apply set_table_keeps. Qed.

Lemma sample_keeps env p :
  let q := snd (_sample_task_states env p) in
  heap q = heap p /\
  base <$> task_status (self q) = base <$> task_status (self p) /\
  series_of (self q) = series_of (self p) /\
  monitor_task_handle (self q) = monitor_task_handle (self p) /\
  prev_idle_ticks_0 q = prev_idle_ticks_0 p /\
  prev_idle_ticks_1 q = prev_idle_ticks_1 p /\
  log_counter q = log_counter p.
Proof.
  unfold _sample_task_states. cbv zeta.
  destruct (task_status (self p)) as [sb|] eqn:E; [|cbn; rewrite E; repeat split].
  destruct (uxTaskGetSystemState _ _ _) as [cells' num].
  destruct (num =? 0); cbn; repeat split.
Qed.

Lemma probe_storage_keeps env p :
  let q := probe_storage env p in
  base <$> task_status (self q) = base <$> task_status (self p) /\
  series_of (self q) = series_of (self p) /\
  prev_total_run_time (self q) = prev_total_run_time (self p) /\
  monitor_task_handle (self q) = monitor_task_handle (self p).
Proof.
  unfold probe_storage. cbv zeta.
  destruct (task_status (self p)) as [sb|] eqn:E; [|rewrite E; repeat split].
  destruct (0 <? task_capacity (self p)); cbn; rewrite ?E; repeat split.
Qed.

Lemma cpu_metrics_keeps env num dt p :
  let q := snd (_calculate_cpu_metrics env num dt p) in
  self q = self p /\ heap q = heap p /\ log_counter q = log_counter p.
Proof.
  unfold _calculate_cpu_metrics. destruct (idle_ticks _ _ _ _). repeat split.
Qed.

Lemma memory_stats_keeps env p :
  let q := snd (_collect_memory_stats env p) in
  heap q = heap p /\
  series_of (self q) = series_of (self p) /\
  prev_total_run_time (self q) = prev_total_run_time (self p) /\
  monitor_task_handle (self q) = monitor_task_handle (self p) /\
  prev_idle_ticks_0 q = prev_idle_ticks_0 p /\
  prev_idle_ticks_1 q = prev_idle_ticks_1 p /\
  log_counter q = log_counter p.
Proof.
  unfold _collect_memory_stats. cbn [snd]. destruct (0 <? spiram_total env); repeat split.
Qed.

Lemma init_keeps e p :
  let q := snd (sysmon_init e p) in
  heap q = heap p /\
  series_of (self q) = series_of (self p) /\
  prev_total_run_time (self q) = prev_total_run_time (self p) /\
  prev_idle_ticks_0 q = prev_idle_ticks_0 p /\
  prev_idle_ticks_1 q = prev_idle_ticks_1 p /\
  log_counter q = log_counter p.
Proof.
  unfold sysmon_init. destruct (negb _); [repeat split|].
  destruct (negb _); [repeat split|].
  destruct (monitor_task_handle (self p)); [repeat split|].
  destruct (task_create e); repeat split.
Qed.

(** What every step after the capacity step keeps, the iteration keeps
    from the state the capacity step leaves. *)
Lemma iteration_after_ensure (P : Program -> Prop) env p :
  (forall q, P q -> P (snd (_sample_task_states env q))) ->
  (forall q h lc, P q ->
     P {| self := self q; prev_idle_ticks_0 := prev_idle_ticks_0 q;
          prev_idle_ticks_1 := prev_idle_ticks_1 q; log_counter := lc; heap := h |}) ->
  (forall q name, P q -> P (snd (_find_or_create_task_index name q))) ->
  (forall q idx ts dt, P q -> P (_update_task_history env idx ts dt q)) ->
  (forall q seen, P q -> P (_process_deleted_tasks seen q)) ->
  (forall q num dt, P q -> P (snd (_calculate_cpu_metrics env num dt q))) ->
  (forall q, P q -> P (snd (_collect_memory_stats env q))) ->
  (forall q overall c0 c1 ms, P q -> P (_update_series_buffers overall c0 c1 ms q)) ->
  P (snd (_ensure_task_storage_capacity env p)) -> P (sysmon_monitor_iteration env p).
Proof.
  intros Hsam Hstat Hres Hupd Hdel Hcpu Hmem Hser H1.
  unfold sysmon_monitor_iteration.
  destruct (_ensure_task_storage_capacity env p) as [ok p1]. cbn [snd] in H1.
  destruct ok; cbn [negb]; [|exact H1].
  pose proof (Hsam p1 H1) as H2.
  destruct (_sample_task_states env p1) as [[[num dt]|] p2]; cbn [snd] in H2; [|exact H2].
  pose proof (Hstat p2 (heap p2) (wrap_int (log_counter p2 + 1)) H2) as H3.
  set (p3 := {| self := self p2; prev_idle_ticks_0 := prev_idle_ticks_0 p2;
                prev_idle_ticks_1 := prev_idle_ticks_1 p2;
                log_counter := wrap_int (log_counter p2 + 1); heap := heap p2 |}) in *.
  unfold alloc. destruct (calloc_seen_ok env); cbv beta iota; [|exact H3].
  set (h1 := {[fresh (heap p3)]} ∪ heap p3).
  assert (H4 : P (fst (for_loop (Z.to_nat num) (track_task env dt)
                         (set_heap h1 p3, replicate (Z.to_nat (task_capacity (self p3))) false)))).
  { apply (for_loop_invariant (fun st => P (fst st))).
    - cbn [fst]. apply (Hstat p3 h1 (log_counter p3) H3).
    - intros k [q seen] _ Hq. cbn [fst] in Hq. unfold track_task.
      destruct (scratch q !! k) as [t|]; [|exact Hq].
      destruct (pcTaskName t) as [name|]; [|exact Hq].
      pose proof (Hres q name Hq) as Hr.
      destruct (_find_or_create_task_index name q) as [idx q1]. cbn [snd] in Hr.
      destruct (idx =? -1); cbn [fst]; [exact Hr|]. apply Hupd. exact Hr. }
  destruct (for_loop (Z.to_nat num) (track_task env dt) _) as [p4 seen]. cbn [fst] in H4.
  pose proof (Hdel p4 seen H4) as H5.
  set (p5 := _process_deleted_tasks seen p4) in *.
  pose proof (Hstat p5 (free (Some (fresh (heap p3))) (heap p5)) (log_counter p5) H5) as H6.
  change {| self := self p5; prev_idle_ticks_0 := prev_idle_ticks_0 p5;
            prev_idle_ticks_1 := prev_idle_ticks_1 p5; log_counter := log_counter p5;
            heap := free (Some (fresh (heap p3))) (heap p5) |}
    with (set_heap (free (Some (fresh (heap p3))) (heap p5)) p5) in H6.
  pose proof (Hcpu _ num dt H6) as H7.
  destruct (_calculate_cpu_metrics env num dt _) as [[[c0 c1] ov] p7]. cbn [snd] in H7.
  pose proof (Hmem _ H7) as H8.
  destruct (_collect_memory_stats env p7) as [ms p8]. cbn [snd] in H8.
  apply Hser. exact H8.
Qed.

(** ** The heap *)

Lemma block_set_base {A : Type} (b b' : option (buffer A)) :
  base <$> b = base <$> b' -> block_set b = block_set b'.
Proof. destruct b, b'; cbn; congruence. Qed.

Lemma heap_owned_ext p q :
  heap q = heap p ->
  base <$> tasks (self q) = base <$> tasks (self p) ->
  base <$> task_status (self q) = base <$> task_status (self p) ->
  heap_owned p -> heap_owned q.
Proof.
  intros Hh Ht Hs [Heq Hne]. split.
  - rewrite Hh, Heq, (block_set_base _ _ Ht), (block_set_base _ _ Hs). reflexivity.
  - intros tb sb Et Es. rewrite Et in Ht. rewrite Es in Hs.
    destruct (tasks (self p)) as [tp|]; [|discriminate].
    destruct (task_status (self p)) as [sp|]; [|discriminate].
    cbn in Ht, Hs. injection Ht as ->. injection Hs as ->. apply Hne; reflexivity.
Qed.

Lemma grow_heap_owned env q a full :
  heap_owned q -> heap_owned (snd (grow_task_storage env q a full)).
Proof.
  intros Hq. unfold grow_task_storage. cbv zeta.
  destruct (_ <=? _); [exact Hq|].
  unfold alloc. destruct (calloc_tasks_ok env); cbv beta iota; [|exact Hq].
  destruct (malloc_status_ok env); cbv beta iota.
  - cbn [snd]. destruct Hq as [Heq Hne].
    pose proof (is_fresh (heap q)) as F1.
    pose proof (is_fresh ({[fresh (heap q)]} ∪ heap q)) as F2.
    set (a1 := fresh (heap q)) in *. set (a2 := fresh ({[a1]} ∪ heap q)) in *.
    split.
    + cbn. rewrite Heq in *. clear Heq Hne. apply set_eq. intros x.
      destruct (tasks (self q)) as [tb|], (task_status (self q)) as [sb|];
        cbn [block_set fmap option_fmap option_map free] in *;
        rewrite ?elem_of_difference, ?elem_of_union, ?elem_of_singleton, ?elem_of_empty in *;
        rewrite ?elem_of_difference, ?elem_of_union, ?elem_of_singleton, ?elem_of_empty;
        intuition congruence.
    + cbn. intros tb sb Et Es. injection Et as <-. injection Es as <-. cbn.
      intros E. apply F2. rewrite <- E. apply elem_of_union_l, elem_of_singleton. reflexivity.
  - cbn [snd]. unfold free. rewrite alloc_free_fresh, set_heap_same. exact Hq.
Qed.

Lemma ensure_heap_owned env p :
  heap_owned p -> heap_owned (snd (_ensure_task_storage_capacity env p)).
Proof.
  intros Hp.
  assert (Hq : heap_owned (probe_storage env p)).
  { apply (heap_owned_ext p); [apply probe_storage_frame| |apply probe_storage_keeps|exact Hp].
    destruct (probe_storage_frame env p) as (-> & _). reflexivity. }
  destruct (ensure_cases env p) as (a & full & [E|E]); rewrite E; [exact Hq|].
  apply grow_heap_owned, Hq.
Qed.

Lemma track_task_heap env dt k st : heap (fst (track_task env dt k st)) = heap (fst st).
Proof.
  destruct st as [q seen]. unfold track_task. cbn [fst].
  destruct (scratch q !! k) as [t|]; [|reflexivity].
  destruct (pcTaskName t) as [name|]; [|reflexivity].
  pose proof (find_or_create_keeps name q) as (Hh & _).
  destruct (_find_or_create_task_index name q) as [idx q1]. cbn [snd] in Hh.
  destruct (idx =? -1); cbn [fst]; [exact Hh|].
  pose proof (update_history_keeps env idx t dt q1) as (Hh' & _). congruence.
Qed.

(** The block of [tasks_seen] is released before the iteration ends: the
    live blocks after an iteration are those the capacity step left. *)
Lemma iteration_heap env p :
  heap (sysmon_monitor_iteration env p) = heap (snd (_ensure_task_storage_capacity env p)).
Proof.
  unfold sysmon_monitor_iteration.
  destruct (_ensure_task_storage_capacity env p) as [ok p1]. cbn [snd].
  destruct ok; cbn [negb]; [|reflexivity].
  pose proof (sample_keeps env p1) as (H2 & _).
  destruct (_sample_task_states env p1) as [[[num dt]|] p2]; cbn [snd] in H2; [|exact H2].
  set (p3 := {| self := self p2; prev_idle_ticks_0 := prev_idle_ticks_0 p2;
                prev_idle_ticks_1 := prev_idle_ticks_1 p2;
                log_counter := wrap_int (log_counter p2 + 1); heap := heap p2 |}) in *.
  unfold alloc. destruct (calloc_seen_ok env); cbv beta iota; [|exact H2].
  set (h1 := {[fresh (heap p3)]} ∪ heap p3).
  assert (H4 : heap (fst (for_loop (Z.to_nat num) (track_task env dt)
                 (set_heap h1 p3, replicate (Z.to_nat (task_capacity (self p3))) false))) = h1).
  { apply (for_loop_invariant (fun st => heap (fst st) = h1)); [reflexivity|].
    intros k st _ Hst. rewrite track_task_heap. exact Hst. }
  destruct (for_loop (Z.to_nat num) (track_task env dt) _) as [p4 seen]. cbn [fst] in H4.
  pose proof (process_deleted_keeps seen p4) as (H5 & _). cbv zeta in H5.
  set (p5 := _process_deleted_tasks seen p4) in *.
  set (p6 := set_heap (free (Some (fresh (heap p3))) (heap p5)) p5).
  assert (H6 : heap p6 = heap p1).
  { unfold p6. cbn [heap set_heap]. rewrite H5, H4. unfold h1, free.
    rewrite alloc_free_fresh. exact H2. }
  pose proof (cpu_metrics_keeps env num dt p6) as (_ & H7 & _). cbv zeta in H7.
  destruct (_calculate_cpu_metrics env num dt p6) as [[[c0 c1] ov] p7]. cbn [snd] in H7.
  pose proof (memory_stats_keeps env p7) as (H8 & _). cbv zeta in H8.
  destruct (_collect_memory_stats env p7) as [ms p8]. cbn [snd] in H8.
  unfold _update_series_buffers. cbn [heap set_self]. congruence.
Qed.

Lemma iteration_blocks env p :
  let p1 := snd (_ensure_task_storage_capacity env p) in
  base <$> tasks (self (sysmon_monitor_iteration env p)) = base <$> tasks (self p1) /\
  base <$> task_status (self (sysmon_monitor_iteration env p)) = base <$> task_status (self p1).
Proof.
  cbv zeta. set (p1 := snd (_ensure_task_storage_capacity env p)).
  apply (iteration_after_ensure
           (fun q => base <$> tasks (self q) = base <$> tasks (self p1) /\
                     base <$> task_status (self q) = base <$> task_status (self p1))).
  - intros q [Ht Hs]. destruct (sample_frame env q) as (-> & _).
    destruct (sample_keeps env q) as (_ & -> & _). auto.
  - intros q h lc H. exact H.
  - intros q name [Ht Hs]. destruct (find_or_create_frame name q) as (-> & _).
    destruct (find_or_create_keeps name q) as (_ & -> & _). auto.
  - intros q idx ts dt [Ht Hs]. destruct (update_history_frame env idx ts dt q) as (-> & _).
    destruct (update_history_keeps env idx ts dt q) as (_ & -> & _). auto.
  - intros q seen [Ht Hs]. destruct (process_deleted_frame seen q) as (-> & _).
    destruct (process_deleted_keeps seen q) as (_ & -> & _). auto.
  - intros q num dt H. rewrite cpu_metrics_self. exact H.
  - intros q [Ht Hs]. destruct (memory_stats_frame env q) as (-> & -> & _). auto.
  - intros q overall c0 c1 ms H. exact H.
  - auto.
Qed.

Lemma iteration_heap_owned env p :
  heap_owned p -> heap_owned (sysmon_monitor_iteration env p).
Proof.
  intros Hp. destruct (iteration_blocks env p) as [Ht Hs].
  apply (heap_owned_ext (snd (_ensure_task_storage_capacity env p)));
    [apply iteration_heap|exact Ht|exact Hs|apply ensure_heap_owned, Hp].
Qed.

Lemma deinit_heap p : heap_owned p -> heap (sysmon_deinit p) = ∅.
Proof.
  intros [Heq _]. unfold sysmon_deinit. cbn [heap]. rewrite Heq. apply set_eq. intros x.
  destruct (tasks (self p)) as [tb|], (task_status (self p)) as [sb|];
    cbn [block_set fmap option_fmap option_map free];
    rewrite ?elem_of_difference, ?elem_of_union, ?elem_of_singleton, ?elem_of_empty;
    intuition congruence.
Qed.

Lemma exec_heap_owned o p : heap_owned p -> heap_owned (exec o p).
Proof.
  intros H. destruct o; cbn [exec].
  - destruct (init_frame e p) as (Ht & Hs & _). destruct (init_keeps e p) as (Hh & _).
    apply (heap_owned_ext p); [exact Hh|rewrite Ht|rewrite Hs|exact H]; reflexivity.
  - split; [rewrite (deinit_heap p H); cbn; symmetry; apply union_empty_l_L|].
    cbn. intros tb sb E. discriminate.
  - apply iteration_heap_owned, H.
  - apply ensure_heap_owned, H.
  - destruct (sample_frame e p) as (Ht & _). destruct (sample_keeps e p) as (Hh & Hs & _).
    apply (heap_owned_ext p); [exact Hh|rewrite Ht; reflexivity|exact Hs|exact H].
  - destruct (find_or_create_frame name p) as (Hs & _).
    destruct (find_or_create_keeps name p) as (Hh & Ht & _).
    apply (heap_owned_ext p); [exact Hh|exact Ht|rewrite Hs; reflexivity|exact H].
  - destruct (update_history_frame e idx ts delta_total p) as (Hs & _).
    destruct (update_history_keeps e idx ts delta_total p) as (Hh & Ht & _).
    apply (heap_owned_ext p); [exact Hh|exact Ht|rewrite Hs; reflexivity|exact H].
  - destruct (process_deleted_frame tasks_seen p) as (Hs & _).
    destruct (process_deleted_keeps tasks_seen p) as (Hh & Ht & _).
    apply (heap_owned_ext p); [exact Hh|exact Ht|rewrite Hs; reflexivity|exact H].
  - destruct (cpu_metrics_keeps e num_returned delta_total p) as (Hs & Hh & _).
    cbv zeta in Hs, Hh. apply (heap_owned_ext p); [exact Hh|rewrite Hs|rewrite Hs|exact H]; reflexivity.
  - destruct (memory_stats_frame e p) as (Ht & Hs & _).
    destruct (memory_stats_keeps e p) as (Hh & _).
    apply (heap_owned_ext p); [exact Hh|rewrite Ht|rewrite Hs|exact H]; reflexivity.
  - exact H.
Qed.

Lemma reachable_heap_owned p : reachable p -> heap_owned p.
Proof.
  induction 1 as [|o p _ _ IH]; [|apply exec_heap_owned, IH].
  split; [cbn; symmetry; apply union_empty_l_L|]. cbn. intros tb sb E. discriminate.
Qed.

(** X1: the module never leaks heap memory.  In every state the program
    can reach, the live heap blocks are exactly the block of the task
    table and the block of the scratch snapshot array (none for a NULL
    pointer), and these are two different blocks: the [tasks_seen] array
    of an iteration, a table whose scratch allocation failed and the
    arrays replaced by a growth have all been released.  After
    [sysmon_deinit] no block is live. *)
Theorem heap_holds_only_the_two_arrays p :
  reachable p ->
  heap p = block_set (tasks (self p)) ∪ block_set (task_status (self p)) /\
  (forall tb sb, tasks (self p) = Some tb -> task_status (self p) = Some sb ->
     base tb <> base sb) /\
  heap (sysmon_deinit p) = ∅.
Proof.
  intros Hr. pose proof (reachable_heap_owned p Hr) as Ho.
  split; [apply Ho|]. split; [apply Ho|]. apply deinit_heap, Ho.
Qed.

(** ** Shape of the task storage *)

Lemma find_or_create_length name p :
  length (table (snd (_find_or_create_task_index name p))) = length (table p).
Proof.
  unfold _find_or_create_task_index. cbv zeta.
  destruct (find_index _ (name_matches _ _)); [reflexivity|].
  destruct (find_index _ (slot_free _)); [|reflexivity]. cbn [snd].
  rewrite table_set_table; apply length_insert.
Qed.

Lemma update_history_length env idx ts dt p :
  length (table (_update_task_history env idx ts dt p)) = length (table p).
Proof.
  unfold _update_task_history. destruct (idx <? 0); [reflexivity|].
  destruct (table p !! Z.to_nat idx); [|reflexivity].
  rewrite table_set_table; apply length_insert.
Qed.

Lemma process_deleted_length seen p :
  length (table (_process_deleted_tasks seen p)) = length (table p).
Proof.
  unfold _process_deleted_tasks. rewrite table_set_table; apply evict_loop_length.
Qed.

Lemma is_None_base {A : Type} (b b' : option (buffer A)) :
  base <$> b = base <$> b' -> (b = None <-> b' = None).
Proof. destruct b, b'; cbn; intros H; split; intros E; congruence. Qed.

Lemma storage_wf_ext p q :
  task_capacity (self q) = task_capacity (self p) ->
  length (table q) = length (table p) ->
  length (scratch q) = length (scratch p) ->
  base <$> tasks (self q) = base <$> tasks (self p) ->
  base <$> task_status (self q) = base <$> task_status (self p) ->
  storage_wf p -> storage_wf q.
Proof.
  intros Hc Ht Hs Hbt Hbs (H1 & H2 & H3 & H4 & H5). unfold storage_wf.
  rewrite Hc, Ht, Hs, (is_None_base _ _ Hbt), (is_None_base _ _ Hbs). auto.
Qed.

Lemma table_ext p q : tasks (self q) = tasks (self p) -> table q = table p.
Proof. unfold table. intros ->. reflexivity. Qed.

Lemma scratch_ext p q : task_status (self q) = task_status (self p) -> scratch q = scratch p.
Proof. unfold scratch. intros ->. reflexivity. Qed.

Lemma probe_storage_wf env p : storage_wf p -> storage_wf (probe_storage env p).
Proof.
  intros H. destruct (probe_storage_frame env p) as (Ht & Hc & _).
  destruct (probe_storage_keeps env p) as (Hbs & _). cbv zeta in Hbs.
  apply (storage_wf_ext p); [exact Hc|rewrite (table_ext _ _ Ht); reflexivity|
                             |rewrite Ht; reflexivity|exact Hbs|exact H].
  destruct H as (_ & _ & Hs & _).
  pose proof (probe_storage_block env p Hs) as Hb. unfold scratch.
  destruct (task_status (self (probe_storage env p))), (task_status (self p));
    cbn in Hb; congruence.
Qed.

Lemma grow_storage_wf env q a full :
  storage_wf q -> storage_wf (snd (grow_task_storage env q a full)).
Proof.
  intros Hq. destruct (grow_task_storage env q a full) as [ok p'] eqn:G. cbn [snd].
  destruct (grow_capacity _ _ _ _ _ _ G) as (_ & Hmax & _).
  destruct (grow_cases _ _ _ _ _ _ G) as [->|(_ & Hlt & Htab & Hscr)]; [exact Hq|].
  destruct Hq as ((H0 & Hcap) & Hlt' & _).
  assert (Hlt2 : length (table p') = Z.to_nat (task_capacity (self p')))
    by (rewrite Htab, copy_active_length; apply length_replicate).
  assert (Hls : length (scratch p') = Z.to_nat (task_capacity (self p')))
    by (rewrite Hscr; apply length_replicate).
  unfold storage_wf. split; [lia|]. split; [exact Hlt2|]. split; [exact Hls|].
  split; split; intros E; try lia; exfalso.
  - unfold table in Hlt2. rewrite E in Hlt2. cbn in Hlt2. lia.
  - unfold scratch in Hls. rewrite E in Hls. cbn in Hls. lia.
Qed.

Lemma ensure_storage_wf env p :
  storage_wf p -> storage_wf (snd (_ensure_task_storage_capacity env p)).
Proof.
  intros Hp. pose proof (probe_storage_wf env p Hp) as Hq.
  destruct (ensure_cases env p) as (a & full & [E|E]); rewrite E; [exact Hq|].
  apply grow_storage_wf, Hq.
Qed.

Lemma sample_storage_wf env p :
  storage_wf p -> storage_wf (snd (_sample_task_states env p)).
Proof.
  intros H. destruct (sample_frame env p) as (Ht & Hc & _).
  destruct (sample_keeps env p) as (_ & Hbs & _). cbv zeta in Hbs.
  apply (storage_wf_ext p); [exact Hc|rewrite (table_ext _ _ Ht); reflexivity|
                             |rewrite Ht; reflexivity|exact Hbs|exact H].
  destruct H as (_ & _ & Hs & _).
  pose proof (sample_scratch_wf env p Hs) as Hs'. unfold scratch_wf in Hs'.
  rewrite Hs', Hc. symmetry. exact Hs.
Qed.

Lemma find_or_create_storage_wf name p :
  storage_wf p -> storage_wf (snd (_find_or_create_task_index name p)).
Proof.
  intros H. destruct (find_or_create_frame name p) as (Hs & Hc & _).
  destruct (find_or_create_keeps name p) as (_ & Hbt & _).
  apply (storage_wf_ext p);
    [exact Hc|apply find_or_create_length|rewrite (scratch_ext _ _ Hs); reflexivity|
     exact Hbt|rewrite Hs; reflexivity|exact H].
Qed.

Lemma update_history_storage_wf env idx ts dt p :
  storage_wf p -> storage_wf (_update_task_history env idx ts dt p).
Proof.
  intros H. destruct (update_history_frame env idx ts dt p) as (Hs & Hc & _).
  destruct (update_history_keeps env idx ts dt p) as (_ & Hbt & _).
  apply (storage_wf_ext p);
    [exact Hc|apply update_history_length|rewrite (scratch_ext _ _ Hs); reflexivity|
     exact Hbt|rewrite Hs; reflexivity|exact H].
Qed.

Lemma process_deleted_storage_wf seen p :
  storage_wf p -> storage_wf (_process_deleted_tasks seen p).
Proof.
  intros H. destruct (process_deleted_frame seen p) as (Hs & Hc & _).
  destruct (process_deleted_keeps seen p) as (_ & Hbt & _).
  apply (storage_wf_ext p);
    [exact Hc|apply process_deleted_length|rewrite (scratch_ext _ _ Hs); reflexivity|
     exact Hbt|rewrite Hs; reflexivity|exact H].
Qed.

Lemma storage_wf_self p q : self q = self p -> storage_wf p -> storage_wf q.
Proof. unfold storage_wf, table, scratch. intros ->. auto. Qed.

Lemma memory_stats_storage_wf env p :
  storage_wf p -> storage_wf (snd (_collect_memory_stats env p)).
Proof.
  intros H. destruct (memory_stats_frame env p) as (Ht & Hs & Hc & _).
  apply (storage_wf_ext p);
    [exact Hc|rewrite (table_ext _ _ Ht); reflexivity|rewrite (scratch_ext _ _ Hs); reflexivity|
     rewrite Ht; reflexivity|rewrite Hs; reflexivity|exact H].
Qed.

Lemma iteration_storage_wf env p :
  storage_wf p -> storage_wf (sysmon_monitor_iteration env p).
Proof.
  apply iteration_invariant.
  - intros q. apply ensure_storage_wf.
  - intros q. apply sample_storage_wf.
  - intros q h lc H. exact H.
  - intros q i t name _ _. apply find_or_create_storage_wf.
  - intros q idx ts dt. apply update_history_storage_wf.
  - intros q seen. apply process_deleted_storage_wf.
  - intros q num dt. apply storage_wf_self, cpu_metrics_self.
  - intros q. apply memory_stats_storage_wf.
  - intros q overall c0 c1 ms H. exact H.
Qed.

Lemma exec_storage_wf o p :
  0 <= SYSMON_MAX_TRACKED_TASKS -> storage_wf p -> storage_wf (exec o p).
Proof.
  intros H0 H. destruct o; cbn [exec].
  - destruct (init_frame e p) as (Ht & Hs & Hc & _).
    apply (storage_wf_ext p);
      [exact Hc|rewrite (table_ext _ _ Ht); reflexivity|rewrite (scratch_ext _ _ Hs); reflexivity|
       rewrite Ht; reflexivity|rewrite Hs; reflexivity|exact H].
  - unfold storage_wf, table, scratch. cbn. split; [lia|]. repeat split; reflexivity.
  - apply iteration_storage_wf, H.
  - apply ensure_storage_wf, H.
  - apply sample_storage_wf, H.
  - apply find_or_create_storage_wf, H.
  - apply update_history_storage_wf, H.
  - apply process_deleted_storage_wf, H.
  - apply (storage_wf_self p); [apply cpu_metrics_self|exact H].
  - apply memory_stats_storage_wf, H.
  - exact H.
Qed.

(** X2: the two arrays always have the size the capacity says.  With a
    nonnegative cap, in every state the program can reach the capacity
    lies between 0 and [SYSMON_MAX_TRACKED_TASKS], the task table and the
    scratch snapshot array both have exactly [task_capacity] cells, and
    each of the two pointers is NULL exactly when the capacity is 0. *)
Theorem storage_matches_capacity p :
  0 <= SYSMON_MAX_TRACKED_TASKS -> reachable p ->
  0 <= task_capacity (self p) <= SYSMON_MAX_TRACKED_TASKS /\
  length (table p) = Z.to_nat (task_capacity (self p)) /\
  length (scratch p) = Z.to_nat (task_capacity (self p)) /\
  (tasks (self p) = None <-> task_capacity (self p) = 0) /\
  (task_status (self p) = None <-> task_capacity (self p) = 0).
Proof.
  intros H0. induction 1 as [|o p _ _ IH].
  - unfold table, scratch. cbn. split; [lia|]. repeat split; reflexivity.
  - apply (exec_storage_wf o p H0 IH).
Qed.

(** ** Invariants of the slots *)

(** A property of slots that holds of a zeroed slot and of a new slot and
    that an update (on platform answers that satisfy [EV]) and a miss of
    an active slot keep, holds of every slot after every operation on
    platform answers that satisfy [EV]. *)
Lemma exec_slots_invariant_env (EV : CycleEnv -> Prop) (Q : TaskUsageSample -> Prop) :
  Q zero_slot ->
  (forall name, Q (new_slot name)) ->
  (forall env ts dt t, EV env -> Q t -> Q (update_slot env ts dt t)) ->
  (forall t, is_active t = true -> Q t -> Q (miss_slot t)) ->
  forall o p, op_env EV o -> Forall Q (table p) -> Forall Q (table (exec o p)).
Proof.
  intros Hzero Hnew Hupd Hmiss.
  assert (Hres : forall name q, Forall Q (table q) ->
                   Forall Q (table (snd (_find_or_create_task_index name q)))).
  { intros name q H. unfold _find_or_create_task_index. cbv zeta.
    destruct (find_index _ (name_matches _ _)); [exact H|].
    destruct (find_index _ (slot_free _)); [|exact H]. cbn [snd].
    rewrite table_set_table by apply length_insert.
    apply Forall_insert; [exact H|apply Hnew]. }
  assert (Hhist : forall env idx ts dt q, EV env -> Forall Q (table q) ->
                    Forall Q (table (_update_task_history env idx ts dt q))).
  { intros env idx ts dt q He H. unfold _update_task_history. destruct (idx <? 0); [exact H|].
    destruct (table q !! Z.to_nat idx) as [t|] eqn:Et; [|exact H].
    rewrite table_set_table by apply length_insert.
    apply Forall_insert; [exact H|]. apply Hupd; [exact He|].
    rewrite Forall_lookup in H. exact (H _ _ Et). }
  assert (Hdel : forall seen q, Forall Q (table q) ->
                   Forall Q (table (_process_deleted_tasks seen q))).
  { intros seen q H. unfold _process_deleted_tasks.
    rewrite table_set_table by apply evict_loop_length.
    apply (for_loop_invariant (Forall Q)); [exact H|].
    intros k tbl _ Htbl. unfold evict_slot.
    destruct (tbl !! k) as [t|] eqn:Et; [|exact Htbl].
    destruct (seen !! k) as [sn|]; [|exact Htbl].
    destruct (is_active t) eqn:Ea; cbn [andb]; [|exact Htbl].
    destruct (negb sn); [|exact Htbl].
    apply Forall_insert; [exact Htbl|]. apply Hmiss; [exact Ea|].
    rewrite Forall_lookup in Htbl. exact (Htbl _ _ Et). }
  assert (Hens : forall env q, Forall Q (table q) ->
                   Forall Q (table (snd (_ensure_task_storage_capacity env q)))).
  { intros env q H.
    assert (Hq : Forall Q (table (probe_storage env q))).
    { rewrite (table_ext q); [exact H|apply probe_storage_frame]. }
    destruct (ensure_cases env q) as (a & full & [E|E]); rewrite E; [exact Hq|].
    destruct (grow_task_storage env (probe_storage env q) a full) as [ok p'] eqn:G. cbn [snd].
    destruct (grow_cases _ _ _ _ _ _ G) as [->|(_ & _ & Htab & _)]; [exact Hq|].
    rewrite Htab. unfold copy_active.
    apply (for_loop_invariant (Forall Q)); [apply Forall_replicate, Hzero|].
    intros k acc _ Hacc. destruct (table (probe_storage env q) !! k) as [t|] eqn:Et; [|exact Hacc].
    destruct (is_active t); [|exact Hacc].
    apply Forall_insert; [exact Hacc|]. rewrite Forall_lookup in Hq. exact (Hq _ _ Et). }
  assert (Hsam : forall env q, Forall Q (table q) ->
                   Forall Q (table (snd (_sample_task_states env q)))).
  { intros env q H. rewrite (table_ext q); [exact H|apply sample_frame]. }
  assert (Hmem : forall env q, Forall Q (table q) ->
                   Forall Q (table (snd (_collect_memory_stats env q)))).
  { intros env q H. rewrite (table_ext q); [exact H|apply memory_stats_frame]. }
  assert (Hcpu : forall env num dt q, Forall Q (table q) ->
                   Forall Q (table (snd (_calculate_cpu_metrics env num dt q)))).
  { intros env num dt q H. rewrite (table_ext q); [exact H|].
    rewrite cpu_metrics_self. reflexivity. }
  intros o p He H. destruct o; cbn [exec]; cbn [op_env] in He.
  - rewrite (table_ext p); [exact H|apply init_frame].
  - constructor.
  - apply (iteration_invariant (fun q => Forall Q (table q))); auto.
  - apply Hens, H.
  - apply Hsam, H.
  - apply Hres, H.
  - apply Hhist; [exact He|exact H].
  - apply Hdel, H.
  - apply Hcpu, H.
  - apply Hmem, H.
  - exact H.
Qed.

Lemma exec_slots_invariant (Q : TaskUsageSample -> Prop) :
  Q zero_slot ->
  (forall name, Q (new_slot name)) ->
  (forall env ts dt t, Q t -> Q (update_slot env ts dt t)) ->
  (forall t, is_active t = true -> Q t -> Q (miss_slot t)) ->
  forall o p, Forall Q (table p) -> Forall Q (table (exec o p)).
Proof.
  intros Hzero Hnew Hupd Hmiss o p.
  apply (exec_slots_invariant_env (fun _ => True) Q); auto.
  destruct o; exact I.
Qed.

Lemma counter_wf_miss t :
  0 < CONFIG_SYSMON_SAMPLE_COUNT <= INT_MAX ->
  is_active t = true -> counter_wf t -> counter_wf (miss_slot t).
Proof.
  unfold INT_MAX. intros HN Ha [Hc _]. unfold counter_wf, miss_slot. cbn.
  rewrite wrap_int_small by lia.
  destruct (Z.leb_spec CONFIG_SYSMON_SAMPLE_COUNT (consecutive_zero_samples t + 1)).
  - split; [lia|reflexivity].
  - split; [lia|]. congruence.
Qed.

(** X3: per-slot bounds.  With a history depth between 1 and [INT_MAX],
    in every state the program can reach each slot of the task table has
    its write cursor inside its three histories, each of exactly
    [CONFIG_SYSMON_SAMPLE_COUNT] entries, and a miss counter that is at
    least 0 and below [CONFIG_SYSMON_SAMPLE_COUNT] (an active slot is
    never kept beyond the eviction threshold) and is 0 in an inactive
    slot. *)
Theorem slot_cursor_and_counter_in_range p j t :
  0 < CONFIG_SYSMON_SAMPLE_COUNT <= INT_MAX ->
  reachable p -> table p !! j = Some t ->
  0 <= write_index t < CONFIG_SYSMON_SAMPLE_COUNT /\
  length (usage_percent_history t) = Z.to_nat CONFIG_SYSMON_SAMPLE_COUNT /\
  length (stack_usage_bytes_history t) = Z.to_nat CONFIG_SYSMON_SAMPLE_COUNT /\
  length (stack_usage_percent_history t) = Z.to_nat CONFIG_SYSMON_SAMPLE_COUNT /\
  0 <= consecutive_zero_samples t < CONFIG_SYSMON_SAMPLE_COUNT /\
  (is_active t = false -> consecutive_zero_samples t = 0).
Proof.
  intros HN Hr Ht.
  assert (H : Forall (fun t => slot_wf t /\ counter_wf t) (table p)).
  { clear Ht. induction Hr as [|o p _ _ IH]; [constructor|].
    apply exec_slots_invariant; [| | | |exact IH].
    - split; [apply slot_wf_zero; lia|]. unfold counter_wf. cbn. split; [lia|reflexivity].
    - intros name. split; [apply slot_wf_new; lia|]. unfold counter_wf. cbn.
      split; [lia|reflexivity].
    - intros env ts dt t0 [Hw Hc]. split; [apply slot_wf_update; assumption|].
      unfold counter_wf. cbn. split; [lia|reflexivity].
    - intros t0 Ha [Hw Hc]. split; [apply slot_wf_miss; assumption|].
      apply counter_wf_miss; assumption. }
  rewrite Forall_lookup in H. destruct (H _ _ Ht) as [(Hw & H1 & H2 & H3) [Hc Hi]].
  auto 10.
Qed.

(** ** The global series *)

Lemma grow_keeps env q a full :
  let p' := snd (grow_task_storage env q a full) in
  series_of (self p') = series_of (self q) /\
  prev_total_run_time (self p') = prev_total_run_time (self q) /\
  monitor_task_handle (self p') = monitor_task_handle (self q) /\
  prev_idle_ticks_0 p' = prev_idle_ticks_0 q /\
  prev_idle_ticks_1 p' = prev_idle_ticks_1 q /\
  log_counter p' = log_counter q.
Proof.
  unfold grow_task_storage. cbv zeta.
  destruct (_ <=? _); [repeat split|].
  unfold alloc. destruct (calloc_tasks_ok env); cbv beta iota; [|repeat split].
  destruct (malloc_status_ok env); cbv beta iota; repeat split.
Qed.

Lemma ensure_keeps env p :
  let p' := snd (_ensure_task_storage_capacity env p) in
  series_of (self p') = series_of (self p) /\
  prev_total_run_time (self p') = prev_total_run_time (self p) /\
  monitor_task_handle (self p') = monitor_task_handle (self p) /\
  prev_idle_ticks_0 p' = prev_idle_ticks_0 p /\
  prev_idle_ticks_1 p' = prev_idle_ticks_1 p /\
  log_counter p' = log_counter p.
Proof.
  cbv zeta.
  destruct (probe_storage_keeps env p) as (_ & Hs & Hp & Hm).
  destruct (probe_storage_frame env p) as (_ & _ & _ & _ & H0 & H1 & Hl & _).
  destruct (ensure_cases env p) as (a & full & [E|E]); rewrite E; [cbn [snd]; auto 10|].
  destruct (grow_keeps env (probe_storage env p) a full) as (-> & -> & -> & -> & -> & ->).
  auto 10.
Qed.

Lemma series_wf_ext s s' : series_of s' = series_of s -> series_wf s -> series_wf s'.
Proof.
  unfold series_of, series_wf. intros H.
  injection H as E0 E1 E2 E3 E4 E5 E6 E7 E8 E9 E10 E11.
  rewrite E0, E1, E2, E3, E4, E5, E6, E7, E8, E9, E10, E11. auto.
Qed.

Lemma series_wf_update overall c0 c1 ms p :
  0 < CONFIG_SYSMON_SAMPLE_COUNT <= INT_MAX ->
  series_wf (self p) -> series_wf (self (_update_series_buffers overall c0 c1 ms p)).
Proof.
  intros HN (Hw & (A1 & A2 & A3) & (B1 & B2 & B3 & B4 & B5) & (C1 & C2 & C3)).
  unfold series_wf, _update_series_buffers. cbn. rewrite !length_insert.
  split; [apply cursor_in_range; assumption|auto 15].
Qed.

Lemma exec_series_wf o p :
  0 < CONFIG_SYSMON_SAMPLE_COUNT <= INT_MAX ->
  series_wf (self p) -> series_wf (self (exec o p)).
Proof.
  intros HN.
  assert (Ext : forall q q', series_of (self q') = series_of (self q) ->
                  series_wf (self q) -> series_wf (self q'))
    by (intros q q'; apply series_wf_ext).
  assert (Hens : forall env q, series_wf (self q) ->
                   series_wf (self (snd (_ensure_task_storage_capacity env q))))
    by (intros env q; apply Ext, ensure_keeps).
  assert (Hsam : forall env q, series_wf (self q) ->
                   series_wf (self (snd (_sample_task_states env q))))
    by (intros env q; apply Ext, sample_keeps).
  assert (Hres : forall name q, series_wf (self q) ->
                   series_wf (self (snd (_find_or_create_task_index name q))))
    by (intros name q; apply Ext, find_or_create_keeps).
  assert (Hupd : forall env idx ts dt q, series_wf (self q) ->
                   series_wf (self (_update_task_history env idx ts dt q)))
    by (intros env idx ts dt q; apply Ext, update_history_keeps).
  assert (Hdel : forall seen q, series_wf (self q) ->
                   series_wf (self (_process_deleted_tasks seen q)))
    by (intros seen q; apply Ext, process_deleted_keeps).
  assert (Hcpu : forall env num dt q, series_wf (self q) ->
                   series_wf (self (snd (_calculate_cpu_metrics env num dt q))))
    by (intros env num dt q; rewrite cpu_metrics_self; auto).
  assert (Hmem : forall env q, series_wf (self q) ->
                   series_wf (self (snd (_collect_memory_stats env q))))
    by (intros env q; apply Ext, memory_stats_keeps).
  intros H. destruct o; cbn [exec]; auto.
  - revert H. apply Ext, init_keeps.
  - apply (iteration_invariant (fun q => series_wf (self q))); auto.
    intros q overall c0 c1 ms. apply series_wf_update, HN.
  - apply series_wf_update; assumption.
Qed.

(** X4: the series cursor is always a valid index.  With a history depth
    between 1 and [INT_MAX], in every state the program can reach
    [series_write_index] is at least 0 and below
    [CONFIG_SYSMON_SAMPLE_COUNT], and each of the eleven global series
    buffers has exactly [CONFIG_SYSMON_SAMPLE_COUNT] entries. *)
Theorem series_cursor_in_range p :
  0 < CONFIG_SYSMON_SAMPLE_COUNT <= INT_MAX ->
  reachable p -> series_wf (self p).
Proof.
  intros HN. induction 1 as [|o p _ _ IH]; [|apply exec_series_wf; assumption].
  unfold series_wf, program_init, zero_history. cbn. rewrite !length_replicate.
  split; [lia|auto 15].
Qed.

(** ** Ring buffers *)

Lemma ring_write_nat {A : Type} (h : list A) (w : nat) (v : A) :
  (w < length h)%nat ->
  drop (S w mod length h) (<[w := v]> h) ++ take (S w mod length h) (<[w := v]> h) =
  tail (drop w h ++ take w h) ++ [v].
Proof.
  intros Hw. destruct (lookup_lt_is_Some_2 h w Hw) as [x Hx].
  rewrite insert_take_drop by exact Hw.
  rewrite (drop_S h x w Hx). cbn [tail app].
  assert (Hlen : length (take w h) = w) by (rewrite length_take; lia).
  destruct (Nat.eq_dec (S w) (length h)) as [E|E].
  - rewrite <- E at 1 2. rewrite Nat.Div0.mod_same. cbn [drop take].
    assert (drop (S w) h = []) as -> by (apply drop_ge; lia).
    rewrite app_nil_r. reflexivity.
  - rewrite Nat.mod_small by lia.
    replace (take w h ++ v :: drop (S w) h) with ((take w h ++ [v]) ++ drop (S w) h)
      by (rewrite <- app_assoc; reflexivity).
    rewrite drop_app_length' by (rewrite length_app, Hlen; cbn; lia).
    rewrite take_app_length' by (rewrite length_app, Hlen; cbn; lia).
    rewrite app_assoc. reflexivity.
Qed.

(** Writing at the cursor and advancing it drops the oldest entry and
    appends the new one. *)
Lemma ring_write {A : Type} (h : list A) (w : Z) (v : A) :
  0 < CONFIG_SYSMON_SAMPLE_COUNT <= INT_MAX ->
  length h = Z.to_nat CONFIG_SYSMON_SAMPLE_COUNT ->
  0 <= w < CONFIG_SYSMON_SAMPLE_COUNT ->
  chronological (Z.rem (wrap_int (w + 1)) CONFIG_SYSMON_SAMPLE_COUNT) (<[Z.to_nat w := v]> h) =
  tail (chronological w h) ++ [v].
Proof.
  intros HN Hlen Hw. unfold chronological.
  rewrite advance_cursor by assumption.
  rewrite Z2Nat.inj_mod by lia.
  replace (Z.to_nat (w + 1)) with (S (Z.to_nat w)) by lia.
  rewrite <- Hlen. apply ring_write_nat. lia.
Qed.

(** X5: the three histories of a slot are ring buffers.  For a slot whose
    cursor is inside its histories, both an update of the slot
    ([_update_task_history]) and a miss ([_process_deleted_tasks]) drop
    the oldest entry of each history and append one entry as the newest,
    all other entries keeping their order: the CPU percentage of the
    cycle, the stack bytes and the stack percentage on an update, and
    [0.0], [0] and [0.0] on a miss. *)
Theorem task_histories_are_ring_buffers env ts dt t :
  0 < CONFIG_SYSMON_SAMPLE_COUNT <= INT_MAX -> slot_wf t ->
  let t1 := update_slot env ts dt t in
  let t0 := miss_slot t in
  chronological (write_index t1) (usage_percent_history t1) =
    tail (chronological (write_index t) (usage_percent_history t)) ++
    [usage_of (delta_task_of (ulRunTimeCounter ts) (prev_run_time_ticks t)) dt] /\
  (exists b, chronological (write_index t1) (stack_usage_bytes_history t1) =
     tail (chronological (write_index t) (stack_usage_bytes_history t)) ++ [b]) /\
  (exists f, chronological (write_index t1) (stack_usage_percent_history t1) =
     tail (chronological (write_index t) (stack_usage_percent_history t)) ++ [f]) /\
  chronological (write_index t0) (usage_percent_history t0) =
    tail (chronological (write_index t) (usage_percent_history t)) ++ [f32_0] /\
  chronological (write_index t0) (stack_usage_bytes_history t0) =
    tail (chronological (write_index t) (stack_usage_bytes_history t)) ++ [0] /\
  chronological (write_index t0) (stack_usage_percent_history t0) =
    tail (chronological (write_index t) (stack_usage_percent_history t)) ++ [f32_0].
Proof.
  intros HN (Hw & H1 & H2 & H3). cbv zeta. unfold update_slot, miss_slot. cbn.
  split; [apply ring_write; assumption|].
  split; [eexists; apply ring_write; assumption|].
  split; [eexists; apply ring_write; assumption|].
  split; [apply ring_write; assumption|].
  split; apply ring_write; assumption.
Qed.

(** X6: the eleven global series are ring buffers.  When the series
    cursor is inside the buffers, [_update_series_buffers] drops the
    oldest entry of each series and appends the value of the current
    cycle as the newest, all other entries keeping their order. *)
Theorem series_are_ring_buffers overall c0 c1 m p :
  0 < CONFIG_SYSMON_SAMPLE_COUNT <= INT_MAX -> series_wf (self p) ->
  let s := self p in
  let s' := self (_update_series_buffers overall c0 c1 m p) in
  let w := series_write_index s in
  let w' := series_write_index s' in
  (chronological w' (cpu_overall_percent s') = tail (chronological w (cpu_overall_percent s)) ++ [overall] /\
   chronological w' (cpu_core_percent_0 s') = tail (chronological w (cpu_core_percent_0 s)) ++ [c0] /\
   chronological w' (cpu_core_percent_1 s') = tail (chronological w (cpu_core_percent_1 s)) ++ [c1]) /\
  (chronological w' (dram_free s') = tail (chronological w (dram_free s)) ++ [ms_dram_free m] /\
   chronological w' (dram_min_free s') =
     tail (chronological w (dram_min_free s)) ++ [ms_dram_min_free m] /\
   chronological w' (dram_largest_block s') =
     tail (chronological w (dram_largest_block s)) ++ [ms_dram_largest m] /\
   chronological w' (dram_total s') = tail (chronological w (dram_total s)) ++ [ms_dram_total m] /\
   chronological w' (dram_used_percent s') =
     tail (chronological w (dram_used_percent s)) ++ [ms_dram_used_percent m]) /\
  (chronological w' (psram_free s') = tail (chronological w (psram_free s)) ++ [ms_psram_free m] /\
   chronological w' (psram_total s') = tail (chronological w (psram_total s)) ++ [ms_psram_total m] /\
   chronological w' (psram_used_percent s') =
     tail (chronological w (psram_used_percent s)) ++ [ms_psram_used_percent m]).
Proof.
  intros HN (Hw & (A1 & A2 & A3) & (B1 & B2 & B3 & B4 & B5) & (C1 & C2 & C3)).
  cbv zeta. unfold _update_series_buffers. cbn.
  repeat split; apply ring_write; assumption.
Qed.

(** ** Histories of an evicted slot *)

Lemma miss_slot_ring t :
  0 < CONFIG_SYSMON_SAMPLE_COUNT <= INT_MAX -> slot_wf t ->
  chronological (write_index (miss_slot t)) (usage_percent_history (miss_slot t)) =
    tail (chronological (write_index t) (usage_percent_history t)) ++ [f32_0] /\
  chronological (write_index (miss_slot t)) (stack_usage_bytes_history (miss_slot t)) =
    tail (chronological (write_index t) (stack_usage_bytes_history t)) ++ [0] /\
  chronological (write_index (miss_slot t)) (stack_usage_percent_history (miss_slot t)) =
    tail (chronological (write_index t) (stack_usage_percent_history t)) ++ [f32_0] /\
  write_index (miss_slot t) = (write_index t + 1) mod CONFIG_SYSMON_SAMPLE_COUNT.
Proof.
  intros HN (Hw & H1 & H2 & H3). unfold miss_slot. cbn.
  split; [apply ring_write; assumption|].
  split; [apply ring_write; assumption|].
  split; [apply ring_write; assumption|apply advance_cursor; assumption].
Qed.

Lemma tail_drop_app {A : Type} (l r : list A) (k : nat) (v : A) :
  (k < length l)%nat -> tail (drop k l ++ r) ++ [v] = drop (S k) l ++ (r ++ [v]).
Proof.
  intros Hk. destruct (lookup_lt_is_Some_2 l k Hk) as [x Hx].
  rewrite (drop_S l x k Hx). cbn [tail app]. rewrite <- app_assoc. reflexivity.
Qed.

Lemma replicate_snoc {A : Type} (k : nat) (v : A) : replicate k v ++ [v] = replicate (S k) v.
Proof. induction k as [|k IH]; cbn; [reflexivity|]. rewrite IH. reflexivity. Qed.

Lemma chronological_length {A : Type} (w : Z) (h : list A) :
  length (chronological w h) = length h.
Proof.
  unfold chronological. rewrite length_app, length_drop, length_take. lia.
Qed.

Lemma chronological_replicate {A : Type} (w : Z) (h : list A) (v : A) :
  chronological w h = replicate (length h) v -> h = replicate (length h) v.
Proof.
  intros H. symmetry. apply replicate_as_Forall. split; [reflexivity|].
  assert (HF : Forall (eq v) (chronological w h)).
  { rewrite H. apply Forall_replicate. reflexivity. }
  unfold chronological in HF. apply Forall_app in HF. destruct HF as [Hd Ht].
  rewrite <- (take_drop (Z.to_nat w) h). apply Forall_app. split; assumption.
Qed.

(** The slot after [k] misses in a row. *)
Lemma miss_iter_histories k t :
  0 < CONFIG_SYSMON_SAMPLE_COUNT <= INT_MAX -> slot_wf t ->
  (k <= Z.to_nat CONFIG_SYSMON_SAMPLE_COUNT)%nat ->
  let tk := Nat.iter k miss_slot t in
  slot_wf tk /\
  write_index tk = (write_index t + Z.of_nat k) mod CONFIG_SYSMON_SAMPLE_COUNT /\
  chronological (write_index tk) (usage_percent_history tk) =
    drop k (chronological (write_index t) (usage_percent_history t)) ++ replicate k f32_0 /\
  chronological (write_index tk) (stack_usage_bytes_history tk) =
    drop k (chronological (write_index t) (stack_usage_bytes_history t)) ++ replicate k 0 /\
  chronological (write_index tk) (stack_usage_percent_history tk) =
    drop k (chronological (write_index t) (stack_usage_percent_history t)) ++ replicate k f32_0.
Proof.
  intros HN Hwf. cbv zeta. induction k as [|k IH]; intros Hk.
  - cbn [Nat.iter drop replicate]. rewrite !app_nil_r, Z.add_0_r.
    split; [exact Hwf|]. split; [|auto].
    destruct Hwf as (Hw & _). rewrite Z.mod_small by lia. reflexivity.
  - destruct IH as (Hwk & Hik & E1 & E2 & E3); [lia|].
    change (Nat.iter (S k) miss_slot t) with (miss_slot (Nat.iter k miss_slot t)).
    set (tk := Nat.iter k miss_slot t) in *.
    split; [apply slot_wf_miss; assumption|].
    pose proof Hwk as (Hw & L1 & L2 & L3).
    destruct (miss_slot_ring tk HN Hwk) as (R1 & R2 & R3 & Rw).
    destruct Hwf as (_ & M1 & M2 & M3).
    split.
    { rewrite Rw, Hik, Nat2Z.inj_succ.
      rewrite Zplus_mod_idemp_l. f_equal. lia. }
    rewrite R1, R2, R3, E1, E2, E3.
    rewrite !tail_drop_app by (rewrite chronological_length; lia).
    rewrite !replicate_snoc. auto.
Qed.

(** Consecutive misses of the slot [j] apply [miss_slot] once per pass. *)
Lemma evict_run_iter seens : forall p j t,
  0 < CONFIG_SYSMON_SAMPLE_COUNT <= INT_MAX ->
  (j < Z.to_nat (task_capacity (self p)))%nat ->
  table p !! j = Some t -> is_active t = true ->
  0 <= consecutive_zero_samples t ->
  Forall (fun seen : list bool => seen !! j = Some false) seens ->
  consecutive_zero_samples t + Z.of_nat (length seens) <= CONFIG_SYSMON_SAMPLE_COUNT ->
  table (evict_run seens p) !! j = Some (Nat.iter (length seens) miss_slot t).
Proof.
  induction seens as [|seen seens IH]; intros p j t HN Hj Ht Ha Hc HF Hlen.
  - exact Ht.
  - inversion HF as [|? ? Hseen HF']; subst. cbn [length] in Hlen.
    cbn [evict_run fold_left]. fold (evict_run seens (_process_deleted_tasks seen p)).
    assert (Ht1 : table (_process_deleted_tasks seen p) !! j = Some (miss_slot t)).
    { rewrite process_deleted_lookup by exact Hj. rewrite Ht. cbn.
      unfold evicted. rewrite Hseen, Ha. reflexivity. }
    assert (Hj1 : (j < Z.to_nat (task_capacity (self (_process_deleted_tasks seen p))))%nat)
      by (rewrite process_deleted_capacity; exact Hj).
    cbn [length]. rewrite Nat.iter_succ_r.
    destruct (miss_slot_counter t HN ltac:(lia) Ha) as [Hlt Heq].
    destruct (Z.eq_dec (consecutive_zero_samples t + 1) CONFIG_SYSMON_SAMPLE_COUNT) as [E|E].
    + assert (seens = []) as -> by (destruct seens; [reflexivity|cbn [length] in Hlen; lia]).
      exact Ht1.
    + destruct (Hlt ltac:(lia)) as [Hact Hcnt].
      apply IH; [exact HN|exact Hj1|exact Ht1|exact Hact|lia|exact HF'|lia].
Qed.

(** X7: a task leaves the table with flat histories.  When a slot that
    was last seen (miss counter 0) is missed in
    [CONFIG_SYSMON_SAMPLE_COUNT] consecutive eviction passes, the slot is
    inactive afterwards, each of its three histories holds
    [CONFIG_SYSMON_SAMPLE_COUNT] zeros and nothing else, and its write
    cursor is back where it stood before the first miss. *)
Theorem evicted_slot_histories_are_zero p j t seens :
  0 < CONFIG_SYSMON_SAMPLE_COUNT <= INT_MAX ->
  (j < Z.to_nat (task_capacity (self p)))%nat ->
  table p !! j = Some t -> is_active t = true -> slot_wf t ->
  consecutive_zero_samples t = 0 ->
  Forall (fun seen : list bool => seen !! j = Some false) seens ->
  Z.of_nat (length seens) = CONFIG_SYSMON_SAMPLE_COUNT ->
  exists t', table (evict_run seens p) !! j = Some t' /\
    is_active t' = false /\
    usage_percent_history t' = replicate (Z.to_nat CONFIG_SYSMON_SAMPLE_COUNT) f32_0 /\
    stack_usage_bytes_history t' = replicate (Z.to_nat CONFIG_SYSMON_SAMPLE_COUNT) 0 /\
    stack_usage_percent_history t' = replicate (Z.to_nat CONFIG_SYSMON_SAMPLE_COUNT) f32_0 /\
    write_index t' = write_index t.
Proof.
  intros HN Hj Ht Ha Hwf Hc HF Hlen.
  pose proof (evict_run_iter seens p j t HN Hj Ht Ha ltac:(lia) HF ltac:(lia)) as Hit.
  destruct (evict_run_counter seens p j t HN Hj Ht Ha ltac:(lia) HF ltac:(lia))
    as (t' & Ht' & _ & Heq).
  rewrite Hit in Ht'. injection Ht' as <-.
  exists (Nat.iter (length seens) miss_slot t). split; [exact Hit|].
  split; [apply Heq; [intros ->; cbn in Hlen; lia|lia]|].
  destruct (miss_iter_histories (length seens) t HN Hwf ltac:(lia))
    as ((_ & L1 & L2 & L3) & Hw & E1 & E2 & E3).
  destruct Hwf as (Hw0 & M1 & M2 & M3).
  assert (Hn : length seens = Z.to_nat CONFIG_SYSMON_SAMPLE_COUNT) by lia.
  rewrite drop_ge, app_nil_l in E1 by (rewrite chronological_length; lia).
  rewrite drop_ge, app_nil_l in E2 by (rewrite chronological_length; lia).
  rewrite drop_ge, app_nil_l in E3 by (rewrite chronological_length; lia).
  set (tk := Nat.iter (length seens) miss_slot t) in *.
  rewrite Hn, <- L1 in E1. rewrite Hn, <- L2 in E2. rewrite Hn, <- L3 in E3.
  apply chronological_replicate in E1. apply chronological_replicate in E2.
  apply chronological_replicate in E3.
  rewrite L1 in E1. rewrite L2 in E2. rewrite L3 in E3.
  split; [exact E1|]. split; [exact E2|]. split; [exact E3|].
  rewrite Hw, Hlen. rewrite <- (Z.mul_1_l CONFIG_SYSMON_SAMPLE_COUNT) at 1.
  rewrite Z.mod_add by lia. apply Z.mod_small. lia.
Qed.

(** ** Lifecycle *)

(** X8: [sysmon_deinit] is idempotent, as its header promises, and it
    undoes [sysmon_init], but it is not a reset.  A second call in a row
    changes nothing, in any state; on the initial state the first call
    changes nothing either; a call of [sysmon_init] between two calls,
    whatever it returns, leaves no trace.  The call clears the monitor
    handle, the two array pointers, the capacity and
    [prev_total_run_time], and keeps the eleven series with their cursor,
    the PSRAM flag and the two idle counters carried between cycles. *)
Theorem sysmon_deinit_idempotent p e :
  sysmon_deinit (sysmon_deinit p) = sysmon_deinit p /\
  sysmon_deinit program_init = program_init /\
  sysmon_deinit (snd (sysmon_init e (sysmon_deinit p))) = sysmon_deinit p /\
  let q := sysmon_deinit p in
  monitor_task_handle (self q) = None /\
  tasks (self q) = None /\ task_status (self q) = None /\
  task_capacity (self q) = 0 /\ prev_total_run_time (self q) = 0 /\
  series_of (self q) = series_of (self p) /\
  psram_seen (self q) = psram_seen (self p) /\
  prev_idle_ticks_0 q = prev_idle_ticks_0 p /\
  prev_idle_ticks_1 q = prev_idle_ticks_1 p.
Proof.
  split; [reflexivity|]. split; [reflexivity|]. split; [|cbv zeta; repeat split].
  unfold sysmon_init.
  destruct (negb (wifi_err e =? ESP_OK)); [reflexivity|].
  destruct (negb (http_err e =? ESP_OK)); [reflexivity|].
  cbn [sysmon_deinit self monitor_task_handle set_monitor_task_handle set_storage
       set_prev_total_run_time].
  destruct (task_create e); reflexivity.
Qed.

(** X9: [sysmon_init] keeps the monitor a singleton and fails without
    side effects on the module state.  A monitor handle that is set is
    never replaced, whatever the platform answers; after a return of
    [ESP_OK] a monitor handle is set; a return other than [ESP_OK] is the
    WiFi error, else the HTTP error, else [ESP_FAIL] for a failed task
    creation, and leaves the whole state as it was; and in every case
    nothing but the monitor handle changes. *)
Theorem sysmon_init_singleton e p :
  let rc := fst (sysmon_init e p) in
  let p' := snd (sysmon_init e p) in
  (forall h, monitor_task_handle (self p) = Some h ->
     monitor_task_handle (self p') = Some h) /\
  (rc = ESP_OK ->
     wifi_err e = ESP_OK /\ http_err e = ESP_OK /\ monitor_task_handle (self p') <> None) /\
  (rc <> ESP_OK ->
     p' = p /\
     (rc = wifi_err e \/
      (wifi_err e = ESP_OK /\ rc = http_err e) \/
      (wifi_err e = ESP_OK /\ http_err e = ESP_OK /\ rc = ESP_FAIL /\
       monitor_task_handle (self p) = None /\ task_create e = None))) /\
  set_monitor_task_handle None (self p') = set_monitor_task_handle None (self p) /\
  prev_idle_ticks_0 p' = prev_idle_ticks_0 p /\
  prev_idle_ticks_1 p' = prev_idle_ticks_1 p /\
  log_counter p' = log_counter p /\
  heap p' = heap p.
Proof.
  cbv zeta. unfold sysmon_init.
  destruct (Z.eqb_spec (wifi_err e) ESP_OK) as [Ew|Ew]; cbn [negb fst snd].
  2:{ split; [auto|]. split; [intros E; contradiction|]. split; [auto|]. repeat split. }
  destruct (Z.eqb_spec (http_err e) ESP_OK) as [Eh|Eh]; cbn [negb fst snd].
  2:{ split; [auto|]. split; [intros E; contradiction|]. split; [auto|]. repeat split. }
  destruct (monitor_task_handle (self p)) as [h0|] eqn:Em; cbn [fst snd].
  { split; [intros h E; rewrite Em; exact E|].
    split; [intros _; rewrite Em; split; [assumption|split; [assumption|discriminate]]|].
    split; [intros E; contradiction|]. repeat split. }
  destruct (task_create e) as [h1|] eqn:Et; cbn [fst snd].
  - split; [intros h E; discriminate|].
    split; [intros _; split; [assumption|split; [assumption|cbn; discriminate]]|].
    split; [intros E; contradiction|]. repeat split.
  - split; [intros h E; discriminate|].
    split; [intros E; discriminate|].
    split; [intros _; split; [reflexivity|]; right; right; auto 10|]. repeat split.
Qed.

(** ** Skipped cycles *)

(** X10: a cycle that is cut short records nothing.  When the capacity
    step fails, or the snapshot returns no task, or [tasks_seen] cannot be
    allocated, the iteration leaves the eleven series and their cursor,
    the idle counters kept between cycles and the PSRAM flag as they were,
    the task table as the capacity step left it, and no block allocated
    beyond those the capacity step left.  In the first two cases
    [prev_total_run_time] is unchanged as well; in the third case it has
    already been advanced to the total run time of the snapshot, although
    no per-task counter was advanced. *)
Theorem skipped_cycle_records_nothing env p :
  let r1 := _ensure_task_storage_capacity env p in
  let r2 := _sample_task_states env (snd r1) in
  let q := sysmon_monitor_iteration env p in
  fst r1 = false \/ fst r2 = None \/ calloc_seen_ok env = false ->
  (series_of (self q) = series_of (self p) /\
   table q = table (snd r1) /\
   prev_idle_ticks_0 q = prev_idle_ticks_0 p /\
   prev_idle_ticks_1 q = prev_idle_ticks_1 p /\
   psram_seen (self q) = psram_seen (self p) /\
   heap q = heap (snd r1)) /\
  (fst r1 = false \/ fst r2 = None ->
   prev_total_run_time (self q) = prev_total_run_time (self p) /\
   log_counter q = log_counter p) /\
  (fst r1 = true -> fst r2 <> None -> calloc_seen_ok env = false ->
   prev_total_run_time (self q) = ka_total_run_time (snapshot env) /\
   log_counter q = wrap_int (log_counter p + 1)).
Proof.
  cbv zeta. intros Hskip.
  pose proof (ensure_keeps env p) as (Es & Ep & _ & E0 & E1 & El). cbv zeta in *.
  pose proof (ensure_capacity env p) as (_ & _ & Eps).
  unfold sysmon_monitor_iteration.
  destruct (_ensure_task_storage_capacity env p) as [ok p1]. cbn [fst snd] in *.
  destruct ok; cbn [negb].
  2:{ split; [auto 10|]. split; [auto|]. intros E; discriminate. }
  pose proof (sample_keeps env p1) as (Sh & _ & Ss & _ & S0 & S1 & Sl). cbv zeta in *.
  pose proof (sample_frame env p1) as (St & _ & Sps).
  assert (Hprev : fst (_sample_task_states env p1) = None ->
            prev_total_run_time (self (snd (_sample_task_states env p1))) =
            prev_total_run_time (self p1)).
  { unfold _sample_task_states. cbv zeta. destruct (task_status (self p1)); [|reflexivity].
    destruct (uxTaskGetSystemState _ _ _) as [cells' num].
    destruct (num =? 0); cbn; [reflexivity|discriminate]. }
  assert (Hadv : fst (_sample_task_states env p1) <> None ->
            prev_total_run_time (self (snd (_sample_task_states env p1))) =
            ka_total_run_time (snapshot env)).
  { unfold _sample_task_states. cbv zeta.
    destruct (task_status (self p1)); [|cbn; congruence].
    destruct (uxTaskGetSystemState _ _ _) as [cells' num].
    destruct (num =? 0); cbn; [congruence|reflexivity]. }
  destruct (_sample_task_states env p1) as [[[num dt]|] p2]; cbn [fst snd] in *.
  2:{ split; [|split; [intros _; split; [rewrite Hprev by reflexivity|]; congruence|congruence]].
      rewrite (table_ext p1 p2 St). repeat split; congruence. }
  destruct Hskip as [Hs|[Hs|Hs]]; try discriminate.
  unfold alloc. rewrite Hs. cbv beta iota.
  split; [|split; [intros [E|E]; discriminate|]].
  - unfold table at 1. cbn [self]. fold (table p2). rewrite (table_ext p1 p2 St).
    cbn. repeat split; congruence.
  - intros _ _ _. cbn. split; [apply Hadv; discriminate|congruence].
Qed.

(** ** What a snapshot leaves in the scratch array *)

Lemma idle_ticks_ext h0 h1 num st st' :
  (forall i, (i < Z.to_nat num)%nat -> st !! i = st' !! i) ->
  idle_ticks h0 h1 num st = idle_ticks h0 h1 num st'.
Proof.
  unfold idle_ticks. induction (Z.to_nat num) as [|n IH]; intros H; cbn [for_loop]; [reflexivity|].
  rewrite IH by (intros i Hi; apply H; lia). rewrite (H n) by lia. reflexivity.
Qed.

Lemma sample_scratch env p num dt p' :
  scratch_wf p ->
  _sample_task_states env p = (Some (num, dt), p') ->
  let written := take (Z.to_nat (task_capacity (self p))) (ka_entries (snapshot env)) in
  num = Z.of_nat (length written) /\
  0 < num <= task_capacity (self p) /\
  scratch p' = written ++ drop (length written) (scratch p).
Proof.
  unfold scratch_wf, scratch, _sample_task_states. cbv zeta. intros Hwf.
  destruct (task_status (self p)) as [sb|]; [|discriminate].
  unfold uxTaskGetSystemState.
  set (written := take (Z.to_nat (task_capacity (self p))) (ka_entries (snapshot env))).
  destruct (Z.eqb_spec (Z.of_nat (length written)) 0) as [E|E]; [discriminate|].
  intros H. injection H as <- _ <-. cbn.
  split; [reflexivity|]. split; [|reflexivity].
  assert (length written <= Z.to_nat (task_capacity (self p)))%nat
    by (unfold written; rewrite length_take; lia).
  lia.
Qed.

(** X11: the sampler never reads a stale snapshot cell.  After a snapshot
    that returned [num_returned] tasks, [num_returned] is positive and at
    most the capacity, the first [num_returned] cells of the scratch array
    are the entries the kernel reported, in order, and the cells from
    [num_returned] on still hold what they held before; the search for the
    idle tasks over the first [num_returned] cells gives the same counters
    as a search of the entries the kernel reported, whatever the other
    cells hold. *)
Theorem snapshot_fills_the_cells_that_are_read env p num_returned delta_total p' :
  scratch_wf p ->
  _sample_task_states env p = (Some (num_returned, delta_total), p') ->
  0 < num_returned <= task_capacity (self p) /\
  (forall i, (i < Z.to_nat num_returned)%nat ->
     scratch p' !! i = ka_entries (snapshot env) !! i) /\
  (forall i, (Z.to_nat num_returned <= i)%nat -> scratch p' !! i = scratch p !! i) /\
  length (scratch p') = length (scratch p) /\
  (forall h0 h1,
     idle_ticks h0 h1 num_returned (scratch p') =
     idle_ticks h0 h1 num_returned (ka_entries (snapshot env))).
Proof.
  intros Hwf H. destruct (sample_scratch env p _ _ _ Hwf H) as (Hn & Hr & Hs).
  set (written := take (Z.to_nat (task_capacity (self p))) (ka_entries (snapshot env))) in *.
  assert (Hnn : Z.to_nat num_returned = length written) by lia.
  assert (Hfront : forall i, (i < Z.to_nat num_returned)%nat ->
            scratch p' !! i = ka_entries (snapshot env) !! i).
  { intros i Hi. rewrite Hs, lookup_app_l by lia.
    unfold written. apply lookup_take_lt. unfold written in Hnn.
    rewrite length_take in Hnn. lia. }
  split; [exact Hr|]. split; [exact Hfront|]. split; [|split].
  - intros i Hi. rewrite Hs, lookup_app_r by lia. rewrite lookup_drop. f_equal. lia.
  - rewrite Hs, length_app, length_drop. unfold scratch_wf in Hwf. lia.
  - intros h0 h1. apply idle_ticks_ext. exact Hfront.
Qed.

(** ** Exact percentages at the ends of the scale *)

(** [x / x] is exactly [1.0f]. *)
Lemma SFdiv_self m e :
  SFdiv prec emax (S754_finite false m e) (S754_finite false m e) =
  S754_finite false 8388608 (-23).
Proof.
  unfold SFdiv, SFdiv_core_binary.
  replace (Zdigits2 (Zpos m) + e - (Zdigits2 (Zpos m) + e)) with 0 by lia.
  replace (e - e) with 0 by lia.
  change (Z.min (fexp prec emax 0) 0) with (-24).
  change (0 - -24) with 24. cbv beta iota zeta.
  rewrite Z.shiftl_mul_pow2 by lia.
  assert (Hd : Z.div_eucl (Zpos m * 2 ^ 24) (Zpos m) = (2 ^ 24, 0)).
  { pose proof (Z_div_mod (Zpos m * 2 ^ 24) (Zpos m) ltac:(lia)) as H.
    destruct (Z.div_eucl (Zpos m * 2 ^ 24) (Zpos m)) as [q r]. destruct H as [H1 H2].
    assert (q = 2 ^ 24) by nia. subst q. f_equal. lia. }
  rewrite Hd.
  assert (Hl : new_location (Zpos m) 0 = loc_Exact).
  { unfold new_location, new_location_even, new_location_odd.
    destruct (Z.even (Zpos m)); reflexivity. }
  rewrite Hl. vm_compute. reflexivity.
Qed.

Lemma percent_of_zero b : 0 < b < 2 ^ 32 -> percent_of 0 b = f32_0.
Proof.
  intros Hb. unfold percent_of. destruct (f32_of_u32_finite b Hb) as (m & e & ->).
  reflexivity.
Qed.

Lemma percent_of_self b : 0 < b < 2 ^ 32 -> percent_of b b = f32_100.
Proof.
  intros Hb. unfold percent_of, f32_div. destruct (f32_of_u32_finite b Hb) as (m & e & ->).
  rewrite SFdiv_self. vm_compute. reflexivity.
Qed.

Lemma core_usage_busy dt : 0 < dt < 2 ^ 32 -> core_usage 0 dt = f32_100.
Proof.
  intros Hd. unfold core_usage. destruct (Z.ltb_spec 0 dt); [|lia].
  rewrite percent_of_zero by exact Hd. vm_compute. reflexivity.
Qed.

Lemma core_usage_idle dt : 0 < dt < 2 ^ 32 -> core_usage dt dt = f32_0.
Proof.
  intros Hd. unfold core_usage. destruct (Z.ltb_spec 0 dt); [|lia].
  rewrite percent_of_self by exact Hd. vm_compute. reflexivity.
Qed.

Lemma idle_ticks_missing h0 h1 num st :
  ((forall i t, (i < Z.to_nat num)%nat -> st !! i = Some t -> xHandle t <> h0) ->
   fst (idle_ticks h0 h1 num st) = 0) /\
  ((forall i t, (i < Z.to_nat num)%nat -> st !! i = Some t -> xHandle t <> h1) ->
   snd (idle_ticks h0 h1 num st) = 0).
Proof.
  unfold idle_ticks. split; intros H.
  - apply (for_loop_invariant (fun acc : Z * Z => fst acc = 0)); [reflexivity|].
    intros k acc Hk Hacc. destruct (st !! k) as [t|] eqn:Et; [|exact Hacc].
    destruct (Z.eqb_spec (xHandle t) h0) as [E|_]; [exfalso; exact (H k t Hk Et E)|].
    destruct (xHandle t =? h1); exact Hacc.
  - apply (for_loop_invariant (fun acc : Z * Z => snd acc = 0)); [reflexivity|].
    intros k acc Hk Hacc. destruct (st !! k) as [t|] eqn:Et; [|exact Hacc].
    destruct (xHandle t =? h0); [exact Hacc|].
    destruct (Z.eqb_spec (xHandle t) h1) as [E|_]; [exfalso; exact (H k t Hk Et E)|].
    exact Hacc.
Qed.

Lemma delta_idle_none prev : 0 <= prev -> delta_idle 0 prev = 0.
Proof.
  intros Hp. unfold delta_idle. destruct (Z.geb_spec 0 prev); [|reflexivity].
  replace prev with 0 by lia. reflexivity.
Qed.

(** X12: the CPU percentages at the ends of the scale are exact.  With a
    total run-time delta of 0 the two core usages and the overall usage
    are [0.0].  With a positive delta, a core whose idle task did not run
    in the interval is reported at exactly [100.0] and a core whose idle
    task ran for the whole interval at exactly [0.0]; a core whose idle
    task is not among the entries of the snapshot is reported at [100.0];
    and the overall usage of two cores at [100.0] is [100.0], of two
    cores at [0.0] is [0.0], and of one at each end is [50.0]. *)
Theorem cpu_usage_at_the_ends_of_the_scale env num_returned delta_total p :
  let r := fst (_calculate_cpu_metrics env num_returned delta_total p) in
  let c0 := fst (fst r) in
  let c1 := snd (fst r) in
  let overall := snd r in
  let i := idle_ticks (idle_handle_0 env) (idle_handle_1 env) num_returned (scratch p) in
  (delta_total = 0 -> c0 = f32_0 /\ c1 = f32_0 /\ overall = f32_0) /\
  (0 < delta_total < 2 ^ 32 ->
   (delta_idle (fst i) (prev_idle_ticks_0 p) = 0 -> c0 = f32_100) /\
   (delta_idle (fst i) (prev_idle_ticks_0 p) = delta_total -> c0 = f32_0) /\
   (delta_idle (snd i) (prev_idle_ticks_1 p) = 0 -> c1 = f32_100) /\
   (delta_idle (snd i) (prev_idle_ticks_1 p) = delta_total -> c1 = f32_0) /\
   (0 <= prev_idle_ticks_0 p ->
    (forall k t, (k < Z.to_nat num_returned)%nat -> scratch p !! k = Some t ->
       xHandle t <> idle_handle_0 env) ->
    c0 = f32_100) /\
   (0 <= prev_idle_ticks_1 p ->
    (forall k t, (k < Z.to_nat num_returned)%nat -> scratch p !! k = Some t ->
       xHandle t <> idle_handle_1 env) ->
    c1 = f32_100) /\
   (c0 = f32_100 -> c1 = f32_100 -> overall = f32_100) /\
   (c0 = f32_0 -> c1 = f32_0 -> overall = f32_0) /\
   (c0 = f32_100 -> c1 = f32_0 -> overall = S754_finite false 13107200 (-18))).
Proof.
  cbv zeta. unfold _calculate_cpu_metrics.
  pose proof (idle_ticks_missing (idle_handle_0 env) (idle_handle_1 env) num_returned
                (scratch p)) as [M0 M1].
  destruct (idle_ticks _ _ _ _) as [i0 i1]. cbn [fst snd] in *.
  split.
  - intros ->. unfold core_usage. cbn. repeat split; reflexivity.
  - intros Hd.
    split; [intros ->; apply core_usage_busy, Hd|].
    split; [intros ->; apply core_usage_idle, Hd|].
    split; [intros ->; apply core_usage_busy, Hd|].
    split; [intros ->; apply core_usage_idle, Hd|].
    split; [intros Hp H; rewrite (M0 H), delta_idle_none by exact Hp;
            apply core_usage_busy, Hd|].
    split; [intros Hp H; rewrite (M1 H), delta_idle_none by exact Hp;
            apply core_usage_busy, Hd|].
    split; [intros -> ->; vm_compute; reflexivity|].
    split; intros -> ->; vm_compute; reflexivity.
Qed.

(** X13: the memory percentages at the ends of the scale.  For the
    internal memory and for the PSRAM alike, the used percentage is
    [0.0] when the total size is 0 (no such memory) and when the free
    size is not below the total, it is exactly [100.0] when nothing is
    free, and without PSRAM the call leaves the PSRAM flag as it was. *)
Theorem memory_percent_at_the_ends_of_the_scale env p :
  let m := fst (_collect_memory_stats env p) in
  let p' := snd (_collect_memory_stats env p) in
  (internal_total env = 0 -> ms_dram_used_percent m = f32_0) /\
  (0 < internal_total env < 2 ^ 32 -> internal_total env <= internal_free env ->
   ms_dram_used_percent m = f32_0) /\
  (0 < internal_total env < 2 ^ 32 -> internal_free env = 0 ->
   ms_dram_used_percent m = f32_100) /\
  (spiram_total env = 0 -> ms_psram_used_percent m = f32_0 /\ p' = p) /\
  (0 < spiram_total env < 2 ^ 32 -> spiram_total env <= spiram_free env ->
   ms_psram_used_percent m = f32_0) /\
  (0 < spiram_total env < 2 ^ 32 -> spiram_free env = 0 ->
   ms_psram_used_percent m = f32_100).
Proof.
  cbv zeta. unfold _collect_memory_stats. cbn [fst snd ms_dram_used_percent ms_psram_used_percent].
  assert (Hz : forall free_bytes, used_percent 0 free_bytes = f32_0).
  { intros f. unfold used_percent. cbn. destruct (f <? 0); reflexivity. }
  assert (Hfull : forall total free_bytes, 0 < total < 2 ^ 32 -> total <= free_bytes ->
            used_percent total free_bytes = f32_0).
  { intros t f Ht Hf. unfold used_percent.
    destruct (Z.ltb_spec f t); [lia|]. destruct (Z.ltb_spec 0 t); [|lia].
    apply percent_of_zero, Ht. }
  assert (Hnone : forall total, 0 < total < 2 ^ 32 -> used_percent total 0 = f32_100).
  { intros t Ht. unfold used_percent.
    destruct (Z.ltb_spec 0 t); [|lia]. rewrite Z.sub_0_r, wrap_u32_small by lia.
    apply percent_of_self, Ht. }
  split; [intros ->; apply Hz|].
  split; [intros Ht Hf; apply Hfull; assumption|].
  split; [intros Ht ->; apply Hnone, Ht|].
  split; [intros ->; split; [apply Hz|reflexivity]|].
  split; [intros Ht Hf; apply Hfull; assumption|].
  intros Ht ->. apply Hnone, Ht.
Qed.

(** ** Room left by the capacity step *)

(** The capacity asked for when the [int] arithmetic does not overflow:
    the observed count plus 50% or 20% of it (at least 1), capped. *)
Lemma required_capacity_spec a full :
  0 <= a -> a * 50 <= INT_MAX ->
  required_capacity a full =
    Z.min SYSMON_MAX_TRACKED_TASKS (a + Z.max 1 (a * (if full then 50 else 20) / 100)).
Proof.
  unfold INT_MAX. intros H0 Hmax. unfold required_capacity. cbv zeta.
  set (pc := if full then 50 else 20).
  assert (Hpc : pc = 50 \/ pc = 20) by (unfold pc; destruct full; auto).
  assert (Hq : 0 <= a * pc / 100 <= a).
  { split; [apply Z.div_pos; lia|]. apply Z.div_le_upper_bound; lia. }
  rewrite (wrap_int_small (a * pc)) by lia.
  rewrite Z.quot_div_nonneg by lia.
  destruct (Z.ltb_spec (a * pc / 100) 1).
  - rewrite Z.max_l by lia. rewrite wrap_int_small by lia.
    destruct (Z.ltb_spec SYSMON_MAX_TRACKED_TASKS (a + 1)); lia.
  - rewrite Z.max_r by lia. rewrite wrap_int_small by lia.
    destruct (Z.ltb_spec SYSMON_MAX_TRACKED_TASKS (a + a * pc / 100)); lia.
Qed.

Lemma grow_true env q a full p' :
  grow_task_storage env q a full = (true, p') ->
  task_capacity (self p') = Z.max (task_capacity (self q)) (required_capacity a full).
Proof.
  unfold grow_task_storage. cbv zeta.
  destruct (Z.leb_spec (required_capacity a full) (task_capacity (self q))) as [Hle|Hgt].
  { intros H. injection H as <-. lia. }
  unfold alloc. destruct (calloc_tasks_ok env); cbv beta iota; [|discriminate].
  destruct (malloc_status_ok env); cbv beta iota; [|discriminate].
  intros H. injection H as <-. cbn. lia.
Qed.

(** X14: a successful capacity step leaves room.  When the table has at
    most [SYSMON_MAX_TRACKED_TASKS] slots and the task counts are small
    enough for the [int] arithmetic (50 times the count fits an [int]),
    a return of [true] leaves a capacity that either equals
    [SYSMON_MAX_TRACKED_TASKS] or exceeds the task count the step
    observed: the number of entries the probe snapshot returned when a
    buffer exists, [uxTaskGetNumberOfTasks ()] otherwise. *)
Theorem ensure_capacity_leaves_room env p p' :
  0 <= task_capacity (self p) <= SYSMON_MAX_TRACKED_TASKS ->
  SYSMON_MAX_TRACKED_TASKS * 50 <= INT_MAX ->
  0 <= uxTaskGetNumberOfTasks env -> uxTaskGetNumberOfTasks env * 50 <= INT_MAX ->
  _ensure_task_storage_capacity env p = (true, p') ->
  let observed :=
    match task_status (self p) with
    | Some sb =>
        if 0 <? task_capacity (self p)
        then snd (uxTaskGetSystemState (probe env) (cells sb) (task_capacity (self p)))
        else uxTaskGetNumberOfTasks env
    | None => uxTaskGetNumberOfTasks env
    end in
  task_capacity (self p') = SYSMON_MAX_TRACKED_TASKS \/ observed < task_capacity (self p').
Proof.
  unfold INT_MAX. intros Hcap Hmax Hn0 Hn H. cbv zeta.
  assert (Hnone : forall q, task_capacity (self q) = task_capacity (self p) ->
            grow_task_storage env q (wrap_int (uxTaskGetNumberOfTasks env)) false = (true, p') ->
            task_capacity (self p') = SYSMON_MAX_TRACKED_TASKS \/
            uxTaskGetNumberOfTasks env < task_capacity (self p')).
  { intros q Hq G. apply grow_true in G. rewrite wrap_int_small in G by lia.
    rewrite required_capacity_spec in G by (unfold INT_MAX; lia). lia. }
  unfold _ensure_task_storage_capacity in H. cbv zeta in H.
  destruct (task_status (self p)) as [sb|] eqn:Es; [|apply (Hnone p); [reflexivity|exact H]].
  destruct (Z.ltb_spec 0 (task_capacity (self p))) as [Hpos|Hz];
    [|apply (Hnone p); [reflexivity|exact H]].
  set (num := snd (uxTaskGetSystemState (probe env) (cells sb) (task_capacity (self p)))) in *.
  assert (Hnum : 0 <= num <= task_capacity (self p)).
  { unfold num, uxTaskGetSystemState. cbn [snd]. rewrite length_take. lia. }
  rewrite (wrap_int_small num) in H by lia.
  destruct (Z.ltb_spec num (task_capacity (self p))) as [Hlt|Hge].
  - injection H as <-. destruct (probe_storage_frame env p) as (_ & -> & _). right. exact Hlt.
  - apply grow_true in H. destruct (probe_storage_frame env p) as (_ & Hc & _).
    rewrite Hc in H. rewrite required_capacity_spec in H by (unfold INT_MAX; lia). lia.
Qed.

(** ** Names that do not fit the name field *)

Lemma strncmp_eq_longer n a b :
  (String.length a < n)%nat -> (n <= String.length b)%nat -> strncmp_eq n a b = false.
Proof.
  revert a b. induction n as [|n IH]; intros a b Ha Hb; [lia|].
  cbn [strncmp_eq]. destruct a as [|x a], b as [|y b]; cbn [String.length] in *;
    try reflexivity; try lia.
  destruct (Ascii.eqb x y); [|reflexivity]. apply IH; lia.
Qed.

Lemma strncpy_length n s : String.length (strncpy n s) = Nat.min n (String.length s).
Proof.
  revert s. induction n as [|n IH]; intros s; destruct s as [|c s]; cbn; try reflexivity.
  rewrite IH. reflexivity.
Qed.

(** Whatever the kernel reports, the name stored in a slot fits the name
    field with its terminator. *)
Lemma reachable_stored_names_fit p :
  (0 < TASK_NAME_SIZE)%nat -> reachable p ->
  Forall (fun t => name_fits (task_name t)) (table p).
Proof.
  intros Hsz. induction 1 as [|o p _ _ IH]; [constructor|].
  apply exec_slots_invariant; [| | | |exact IH].
  - unfold name_fits. cbn. exact Hsz.
  - intros name. unfold name_fits. cbn. rewrite strncpy_length. lia.
  - intros env ts dt t H. exact H.
  - intros t _ H. exact H.
Qed.

(** X15: a task name that does not fit the name field of a slot is never
    found again.  In every state the program can reach, a name of
    [sizeof (task_name)] or more characters compares unequal to the name
    of every slot, so the resolver never returns an existing slot for it:
    it either returns -1 and changes nothing, or takes an inactive slot
    and stores the name cut to [sizeof (task_name) - 1] characters, which
    differs from the name. *)
Theorem oversized_name_is_never_found p name idx p' :
  (0 < TASK_NAME_SIZE)%nat -> reachable p ->
  (TASK_NAME_SIZE <= String.length name)%nat ->
  _find_or_create_task_index name p = (idx, p') ->
  (forall j t, table p !! j = Some t ->
     strncmp_eq TASK_NAME_SIZE (task_name t) name = false) /\
  ((idx = -1 /\ p' = p) \/
   (exists j t0, idx = Z.of_nat j /\
      table p !! j = Some t0 /\ is_active t0 = false /\
      table p' = <[j := new_slot name]> (table p) /\
      String.length (task_name (new_slot name)) = Nat.pred TASK_NAME_SIZE /\
      task_name (new_slot name) <> name)).
Proof.
  intros Hsz Hr Hlong H.
  pose proof (reachable_stored_names_fit p Hsz Hr) as Hfit. rewrite Forall_lookup in Hfit.
  assert (Hne : forall j t, table p !! j = Some t ->
            strncmp_eq TASK_NAME_SIZE (task_name t) name = false).
  { intros j t Ht. apply strncmp_eq_longer; [exact (Hfit j t Ht)|exact Hlong]. }
  split; [exact Hne|].
  unfold _find_or_create_task_index in H. cbv zeta in H.
  destruct (find_index _ (name_matches (table p) name)) as [i|] eqn:Ef.
  { exfalso. apply find_index_Some in Ef. destruct Ef as (_ & Hm & _).
    unfold name_matches in Hm. destruct (table p !! i) as [t|] eqn:Et; [|discriminate].
    rewrite (Hne i t Et), andb_false_r in Hm. discriminate. }
  destruct (find_index _ (slot_free (table p))) as [j|] eqn:Es.
  - injection H as <- <-. right.
    apply find_index_Some in Es. destruct Es as (_ & Hf & _).
    unfold slot_free in Hf. destruct (table p !! j) as [t0|] eqn:Et0; [|discriminate].
    exists j, t0. split; [reflexivity|]. split; [exact Et0|].
    split; [destruct (is_active t0); [discriminate|reflexivity]|].
    assert (Hlen : String.length (task_name (new_slot name)) = Nat.pred TASK_NAME_SIZE)
      by (cbn; rewrite strncpy_length; lia).
    split; [apply table_set_table, length_insert|]. split; [exact Hlen|].
    intros E. rewrite E in Hlen. lia.
  - injection H as <- <-. left. auto.
Qed.

(** ** The tracking loop *)

Lemma for_loop_invariant_ix {S : Type} (P : nat -> S -> Prop) n (body : nat -> S -> S) s :
  P O s -> (forall k x, (k < n)%nat -> P k x -> P (Datatypes.S k) (body k x)) ->
  P n (for_loop n body s).
Proof.
  intros H0 Hstep. induction n as [|n IH]; cbn [for_loop]; [exact H0|].
  apply Hstep; [lia|]. apply IH. intros k x Hk. apply Hstep. lia.
Qed.

Lemma update_history_table env j ts dt p t :
  table p !! j = Some t ->
  table (_update_task_history env (Z.of_nat j) ts dt p) = <[j := update_slot env ts dt t]> (table p).
Proof.
  intros Ht. unfold _update_task_history.
  destruct (Z.ltb_spec (Z.of_nat j) 0); [lia|]. rewrite Nat2Z.id, Ht.
  apply table_set_table, length_insert.
Qed.

(** One turn of the tracking loop on a named entry: either the table is
    full and nothing changes, or one slot [j] is rewritten, which carried
    the name or was inactive, and then carries the name, is active, has
    no miss counted and is marked as seen. *)
Lemma track_task_step env dt k q seen t name :
  table_inv q -> length seen = length (table q) ->
  scratch q !! k = Some t -> pcTaskName t = Some name ->
  let st := track_task env dt k (q, seen) in
  (st = (q, seen) /\ table_full (table q)) \/
  (exists j s0 s,
     table q !! j = Some s0 /\ (is_active s0 = true -> task_name s0 = name) /\
     table (fst st) = <[j := s]> (table q) /\ snd st = <[j := true]> seen /\
     is_active s = true /\ task_name s = name /\ consecutive_zero_samples s = 0).
Proof using name_field_size.
  intros Hinv Hlen Ht Hname. cbv zeta. unfold track_task. rewrite Ht, Hname.
  pose proof (scratch_name_fits q k t name Hinv Ht Hname) as Hfit.
  destruct (_find_or_create_task_index name q) as [idx q1] eqn:Ef.
  destruct (find_or_create_spec name q idx q1 Hinv Hfit Ef)
    as [(j & tj & -> & -> & Htj & Ha & Hn)
       |(_ & [(j & t0 & -> & Ht0 & Hina & _ & Htab & Hnm)|(-> & -> & Hfull)])].
  - right. destruct (Z.eqb_spec (Z.of_nat j) (-1)); [lia|]. cbn [fst snd].
    exists j, tj, (update_slot env t dt tj). rewrite Nat2Z.id.
    split; [exact Htj|]. split; [auto|].
    split; [apply update_history_table, Htj|]. split; [reflexivity|].
    cbn. auto.
  - right. destruct (Z.eqb_spec (Z.of_nat j) (-1)); [lia|]. cbn [fst snd].
    exists j, t0, (update_slot env t dt (new_slot name)). rewrite Nat2Z.id.
    split; [exact Ht0|]. split; [intros E; congruence|].
    assert (Hj : (j < length (table q))%nat) by (apply lookup_lt_Some in Ht0; exact Ht0).
    split.
    { rewrite (update_history_table env j t dt q1 (new_slot name)).
      - rewrite Htab. apply list_insert_insert_eq.
      - rewrite Htab. apply list_lookup_insert_eq. exact Hj. }
    split; [reflexivity|]. cbn. auto.
  - left. cbn. auto.
Qed.

Lemma tracked_step name0 tbl seen j s0 s name :
  tbl !! j = Some s0 -> (is_active s0 = true -> task_name s0 = name) ->
  is_active s = true -> task_name s = name -> consecutive_zero_samples s = 0 ->
  length seen = length tbl ->
  tracked name0 tbl seen -> tracked name0 (<[j := s]> tbl) (<[j := true]> seen).
Proof.
  intros Hs0 Hnm Ha Hn Hc Hlen (j0 & t0 & Ht0 & Ha0 & Hn0 & Hc0 & Hseen).
  pose proof (lookup_lt_Some _ _ _ Hs0) as Hj.
  destruct (Nat.eq_dec j0 j) as [->|Hne].
  - exists j, s. rewrite list_lookup_insert_eq by exact Hj.
    rewrite list_lookup_insert_eq by lia.
    assert (t0 = s0) by congruence. subst t0.
    split; [reflexivity|]. split; [exact Ha|]. split; [|auto].
    rewrite Hn, <- Hn0. symmetry. apply Hnm, Ha0.
  - exists j0, t0. rewrite !list_lookup_insert_ne by congruence. auto 10.
Qed.

Lemma table_full_step tbl j s : is_active s = true -> table_full tbl -> table_full (<[j := s]> tbl).
Proof.
  intros Ha Hfull i t Ht. destruct (Nat.eq_dec i j) as [->|Hne].
  - pose proof (lookup_lt_Some _ _ _ Ht) as Hj. rewrite length_insert in Hj.
    rewrite list_lookup_insert_eq in Ht by exact Hj. congruence.
  - rewrite list_lookup_insert_ne in Ht by congruence. exact (Hfull i t Ht).
Qed.

(** The state of the tracking loop after the first [k] snapshot entries. *)
Lemma track_loop_invariant env dt num p :
  table_inv p ->
  let st := for_loop (Z.to_nat num) (track_task env dt)
              (p, replicate (Z.to_nat (task_capacity (self p))) false) in
  table_inv (fst st) /\ scratch (fst st) = scratch p /\
  length (snd st) = length (table (fst st)) /\
  forall i t name, (i < Z.to_nat num)%nat ->
    scratch p !! i = Some t -> pcTaskName t = Some name ->
    tracked name (table (fst st)) (snd st) \/ table_full (table (fst st)).
Proof using name_field_size.
  intros Hinv. cbv zeta.
  apply (for_loop_invariant_ix
           (fun k st => table_inv (fst st) /\ scratch (fst st) = scratch p /\
              length (snd st) = length (table (fst st)) /\
              forall i t name, (i < k)%nat ->
                scratch p !! i = Some t -> pcTaskName t = Some name ->
                tracked name (table (fst st)) (snd st) \/ table_full (table (fst st)))).
  - cbn [fst snd]. split; [exact Hinv|]. split; [reflexivity|].
    split; [rewrite length_replicate; symmetry; apply Hinv|]. intros i t name Hi. lia.
  - intros k [q seen] Hk (Hq & Hscr & Hlen & Hall). cbn [fst snd] in *.
    destruct (scratch q !! k) as [t|] eqn:Et.
    2:{ unfold track_task. rewrite Et. cbn [fst snd].
        split; [exact Hq|]. split; [exact Hscr|]. split; [exact Hlen|].
        intros i t name Hi Ht Hn. apply (Hall i t name); [|exact Ht|exact Hn].
        destruct (Nat.eq_dec i k) as [->|]; [rewrite <- Hscr in Ht; congruence|lia]. }
    destruct (pcTaskName t) as [name|] eqn:En.
    2:{ unfold track_task. rewrite Et, En. cbn [fst snd].
        split; [exact Hq|]. split; [exact Hscr|]. split; [exact Hlen|].
        intros i t' name Hi Ht Hn. apply (Hall i t' name); [|exact Ht|exact Hn].
        destruct (Nat.eq_dec i k) as [->|]; [rewrite <- Hscr in Ht; congruence|lia]. }
    assert (Hinv' : table_inv (fst (track_task env dt k (q, seen)))).
    { unfold track_task. rewrite Et, En.
      pose proof (find_or_create_table_inv name q Hq
                    (scratch_name_fits q k t name Hq Et En)) as H1.
      destruct (_find_or_create_task_index name q) as [idx q1]. cbn [snd] in H1.
      destruct (idx =? -1); cbn [fst]; [exact H1|]. apply update_history_table_inv, H1. }
    assert (Hscr' : scratch (fst (track_task env dt k (q, seen))) = scratch p).
    { rewrite <- Hscr. unfold track_task. rewrite Et, En.
      pose proof (find_or_create_frame name q) as (H1 & _).
      destruct (_find_or_create_task_index name q) as [idx q1]. cbn [snd] in H1.
      destruct (idx =? -1); cbn [fst]; [apply scratch_ext, H1|].
      rewrite (scratch_ext q1); [apply scratch_ext, H1|apply update_history_frame]. }
    split; [exact Hinv'|]. split; [exact Hscr'|].
    destruct (track_task_step env dt k q seen t name Hq Hlen Et En)
      as [[-> Hfull]|(j & s0 & s & Hs0 & Hnm & Htab & Hseen & Ha & Hn & Hc)]; cbn [fst snd].
    + split; [exact Hlen|]. intros i t' name' Hi Ht Hn.
      destruct (Nat.eq_dec i k) as [->|]; [right; exact Hfull|].
      apply (Hall i t' name'); [lia|exact Ht|exact Hn].
    + rewrite Htab, Hseen, !length_insert. split; [exact Hlen|].
      intros i t' name' Hi Ht Hn'.
      destruct (Nat.eq_dec i k) as [->|Hne].
      * left. rewrite <- Hscr, Et in Ht. injection Ht as <-.
        assert (name' = name) by congruence. subst name'.
        pose proof (lookup_lt_Some _ _ _ Hs0) as Hj.
        exists j, s. rewrite !list_lookup_insert_eq by lia. auto 10.
      * destruct (Hall i t' name' ltac:(lia) Ht Hn') as [Htr|Hfull].
        -- left. exact (tracked_step name' _ _ j s0 s name Hs0 Hnm Ha Hn Hc Hlen Htr).
        -- right. apply table_full_step; assumption.
Qed.

(** X16: every task of the snapshot is tracked unless the table is full.
    When the name field of a slot holds every kernel name and the table
    satisfies its invariant, then after the tracking loop over the first
    [num_returned] snapshot entries and the eviction pass that follows
    it, each of these entries with a name has an active slot that
    carries its name and has no miss counted, a slot the eviction pass
    left exactly as the tracking loop wrote it; the only exception is
    that no slot of the table was free at the end of the tracking loop. *)
Theorem listed_tasks_are_tracked env delta_total num_returned p i t name :
  table_inv p ->
  (i < Z.to_nat num_returned)%nat ->
  scratch p !! i = Some t -> pcTaskName t = Some name ->
  let st := for_loop (Z.to_nat num_returned) (track_task env delta_total)
              (p, replicate (Z.to_nat (task_capacity (self p))) false) in
  let q := _process_deleted_tasks (snd st) (fst st) in
  (exists j s,
     table q !! j = Some s /\ is_active s = true /\ task_name s = name /\
     consecutive_zero_samples s = 0 /\ table (fst st) !! j = Some s) \/
  table_full (table (fst st)).
Proof using name_field_size.
  intros Hinv Hi Ht Hn. cbv zeta.
  destruct (track_loop_invariant env delta_total num_returned p Hinv)
    as (Hq & _ & _ & Hall).
  destruct (Hall i t name Hi Ht Hn) as [(j & s & Hs & Ha & Hnm & Hc & Hseen)|Hfull];
    [left|right; exact Hfull].
  exists j, s.
  assert (Hj : (j < Z.to_nat (task_capacity (self
                      (fst (for_loop (Z.to_nat num_returned) (track_task env delta_total)
                         (p, replicate (Z.to_nat (task_capacity (self p))) false))))))%nat).
  { destruct Hq as (Hlen & _). rewrite <- Hlen. exact (lookup_lt_Some _ _ _ Hs). }
  rewrite process_deleted_lookup by exact Hj. rewrite Hs. cbn.
  unfold evicted. rewrite Hseen. auto 10.
Qed.

(** ** Stack usage and the first sample of a task *)

(** X17: the stack figures [_update_task_history] records.  With a
    registered stack size that fits 32 bits, the slot gets the registered
    size (0 for a handle that is not registered) and the high-water mark
    of the entry; the bytes recorded at the write cursor are the size
    minus the high-water mark in bytes when the size is larger, and 0
    otherwise, so they never exceed the size; the percentage recorded is
    [used / size * 100] in binary32 for a positive size and [0.0] for
    size 0.  A task that is not registered is thus recorded with size 0,
    0 bytes and [0.0] percent, and a task whose free stack is not below
    its registered size with 0 bytes and [0.0] percent. *)
Theorem stack_usage_of_a_task env idx ts delta_total p t :
  0 <= idx -> table p !! Z.to_nat idx = Some t -> slot_wf t ->
  (forall v, stack_registry env (xHandle ts) = Some v -> is_u32 v) ->
  let w := Z.to_nat (write_index t) in
  let hwm_bytes := wrap_u32 (usStackHighWaterMark ts * STACK_TYPE_SIZE) in
  let size := match stack_registry env (xHandle ts) with Some v => v | None => 0 end in
  let used := if hwm_bytes <? size then size - hwm_bytes else 0 in
  exists t', table (_update_task_history env idx ts delta_total p) !! Z.to_nat idx = Some t' /\
    stack_size_bytes t' = size /\
    stack_high_water_mark t' = usStackHighWaterMark ts /\
    stack_usage_bytes_history t' !! w = Some used /\
    0 <= used <= size /\
    stack_usage_percent_history t' !! w =
      Some (if 0 <? size then percent_of used size else f32_0) /\
    (stack_registry env (xHandle ts) = None ->
     size = 0 /\ used = 0 /\ stack_usage_percent_history t' !! w = Some f32_0) /\
    (size <= hwm_bytes ->
     used = 0 /\ stack_usage_percent_history t' !! w = Some f32_0).
Proof.
  intros Hidx Ht (Hw & _ & Hl2 & Hl3) Hreg. cbv zeta.
  set (hwm_bytes := wrap_u32 (usStackHighWaterMark ts * STACK_TYPE_SIZE)).
  set (size := match stack_registry env (xHandle ts) with Some v => v | None => 0 end).
  pose proof (wrap_u32_range (usStackHighWaterMark ts * STACK_TYPE_SIZE)) as Hh.
  fold hwm_bytes in Hh.
  assert (Hsize : 0 <= size < 2 ^ 32).
  { unfold size. destruct (stack_registry env (xHandle ts)) as [v|]; [|lia].
    specialize (Hreg v eq_refl). unfold is_u32, UINT32_MAX in Hreg. lia. }
  exists (update_slot env ts delta_total t). split.
  { unfold _update_task_history. destruct (Z.ltb_spec idx 0); [lia|]. rewrite Ht.
    rewrite table_set_table by apply length_insert.
    apply list_lookup_insert_eq. apply lookup_lt_Some in Ht. exact Ht. }
  unfold update_slot. cbn. fold hwm_bytes. fold size.
  assert (Hused : (if (0 <? size) && (hwm_bytes <? size)
                   then wrap_u32 (size - hwm_bytes) else 0) =
                  (if hwm_bytes <? size then size - hwm_bytes else 0)).
  { destruct (Z.ltb_spec hwm_bytes size).
    - destruct (Z.ltb_spec 0 size); [|lia]. cbn. apply wrap_u32_small. lia.
    - rewrite andb_false_r. reflexivity. }
  rewrite Hused.
  split; [reflexivity|]. split; [reflexivity|].
  split; [apply list_lookup_insert_eq; lia|].
  split; [destruct (Z.ltb_spec hwm_bytes size); lia|].
  split; [apply list_lookup_insert_eq; lia|].
  split.
  - intros E. unfold size. rewrite E.
    destruct (Z.ltb_spec hwm_bytes 0); [lia|].
    split; [reflexivity|]. split; [reflexivity|]. cbn.
    apply list_lookup_insert_eq. lia.
  - intros Hle. destruct (Z.ltb_spec hwm_bytes size); [lia|]. split; [reflexivity|].
    rewrite list_lookup_insert_eq by lia. f_equal.
    destruct (Z.ltb_spec 0 size); [|reflexivity]. apply percent_of_zero. lia.
Qed.

(** X18: the first sample of a newly discovered task spans its whole
    life.  When no active slot matches a name and the resolver takes a
    slot for it, the update that follows in the same cycle computes the
    run-time delta against a previous counter of 0: the first entry of
    the CPU history is the task's entire run-time counter over the
    [delta_total] of this one cycle, as a percentage, and the counter is
    kept for the next cycle. *)
Theorem first_sample_of_a_new_task env delta_total name ts p j p1 :
  0 < CONFIG_SYSMON_SAMPLE_COUNT <= INT_MAX ->
  is_u32 (ulRunTimeCounter ts) ->
  (forall i ti, table p !! i = Some ti -> is_active ti = true ->
     strncmp_eq TASK_NAME_SIZE (task_name ti) name = false) ->
  _find_or_create_task_index name p = (Z.of_nat j, p1) ->
  exists t', table (_update_task_history env (Z.of_nat j) ts delta_total p1) !! j = Some t' /\
    is_active t' = true /\
    task_name t' = strncpy (Nat.pred TASK_NAME_SIZE) name /\
    usage_percent_history t' =
      <[0%nat := usage_of (ulRunTimeCounter ts) delta_total]>
        (replicate (Z.to_nat CONFIG_SYSMON_SAMPLE_COUNT) f32_0) /\
    usage_percent_history t' !! 0%nat = Some (usage_of (ulRunTimeCounter ts) delta_total) /\
    prev_run_time_ticks t' = ulRunTimeCounter ts /\
    write_index t' = 1 mod CONFIG_SYSMON_SAMPLE_COUNT.
Proof.
  intros HN Hc Hno H. unfold _find_or_create_task_index in H. cbv zeta in H.
  destruct (find_index _ (name_matches (table p) name)) as [i|] eqn:Ef.
  { exfalso. apply find_index_Some in Ef. destruct Ef as (_ & Hm & _).
    unfold name_matches in Hm. destruct (table p !! i) as [ti|] eqn:Et; [|discriminate].
    apply andb_true_iff in Hm. destruct Hm as [Ha Hs]. rewrite (Hno i ti Et Ha) in Hs.
    discriminate. }
  destruct (find_index _ (slot_free (table p))) as [j'|] eqn:Es; [|injection H as H _; lia].
  injection H as Hj <-. apply Nat2Z.inj in Hj. subst j'.
  apply find_index_Some in Es. destruct Es as (_ & Hf & _).
  unfold slot_free in Hf. destruct (table p !! j) as [t0|] eqn:Et0; [|discriminate].
  pose proof (lookup_lt_Some _ _ _ Et0) as Hlt.
  assert (Hnew : table (set_table (<[j := new_slot name]> (table p)) p) !! j =
                 Some (new_slot name)).
  { rewrite table_set_table by apply length_insert. apply list_lookup_insert_eq. exact Hlt. }
  exists (update_slot env ts delta_total (new_slot name)). split.
  { rewrite (update_history_table env j ts delta_total _ _ Hnew).
    apply list_lookup_insert_eq. rewrite table_set_table by apply length_insert.
    rewrite length_insert. exact Hlt. }
  unfold update_slot, new_slot, zero_history. cbn.
  assert (Hd : delta_task_of (ulRunTimeCounter ts) 0 = ulRunTimeCounter ts).
  { unfold delta_task_of. unfold is_u32, UINT32_MAX in Hc.
    destruct (Z.geb_spec (ulRunTimeCounter ts) 0); [|lia].
    rewrite Z.sub_0_r. apply wrap_u32_small. lia. }
  rewrite Hd. split; [reflexivity|]. split; [reflexivity|]. split; [reflexivity|].
  split; [apply list_lookup_insert_eq; rewrite length_replicate; lia|].
  split; [reflexivity|]. apply (advance_cursor 0); lia.
Qed.

(** ** Division and the percentages of a part in a whole *)

Lemma digits2_eq m k : 1 <= k -> 2 ^ (k - 1) <= Zpos m < 2 ^ k -> Zpos (digits2_pos m) = k.
Proof.
  intros Hk [Hl Hu]. pose proof (digits2_bounds m) as [Dl Du].
  assert (H1 : Zpos (digits2_pos m) <= k) by (apply digits2_le_of_lt; lia).
  destruct (Z_lt_le_dec (Zpos (digits2_pos m)) k) as [Hlt|Hge]; [exfalso|lia].
  assert (2 ^ Zpos (digits2_pos m) <= 2 ^ (k - 1)) by (apply Z.pow_le_mono_r; lia).
  lia.
Qed.

Lemma loc_of_shr_record_of_loc m l :
  shr_m (shr_record_of_loc m l) = m /\
  loc_of_shr_record (shr_record_of_loc m l) = l.
Proof. destruct l as [|[| |]]; split; reflexivity. Qed.

(** Second stage of [binary_round_aux]: a rounded mantissa that reached
    [2 ^ 24] is renormalised one exponent higher. *)
Lemma shr_fexp_second m2 e1 :
  2 ^ 23 <= Zpos m2 <= 2 ^ 24 -> -149 <= e1 ->
  exists mrs e2, shr_fexp prec emax (Zpos m2) e1 loc_Exact = (mrs, e2) /\
    ((Zpos m2 < 2 ^ 24 /\ shr_m mrs = Zpos m2 /\ e2 = e1) \/
     (Zpos m2 = 2 ^ 24 /\ shr_m mrs = 2 ^ 23 /\ e2 = e1 + 1)).
Proof.
  intros Hm He. destruct (Z.eq_dec (Zpos m2) (2 ^ 24)) as [E|E].
  - assert (m2 = 16777216%positive) as -> by lia. unfold shr_fexp. rewrite fexp_eq.
    change (Zdigits2 16777216) with 25.
    replace (Z.max (25 + e1 - 24) (-149) - e1) with 1 by lia.
    eexists _, _. split; [reflexivity|]. right. split; [reflexivity|]. split; reflexivity.
  - eexists _, _. split.
    + apply shr_fexp_noshift. cbn [Zdigits2]. rewrite fexp_eq.
      rewrite (digits2_eq m2 24) by lia. lia.
    + left. cbn. split; [lia|]. split; reflexivity.
Qed.

(** Rounding a mantissa of 24 or 25 bits with any location: the result is
    finite with the exponent of the first shift, or [2 ^ 23] one exponent
    higher. *)
Lemma bra_loc_shape M e l :
  2 ^ 23 <= Zpos M < 2 ^ 25 -> -149 <= e ->
  let e1 := if Zpos M <? 2 ^ 24 then e else e + 1 in
  exists m eo, binary_round_aux prec emax false (Zpos M) e l = fin_or_inf false m eo /\
    Zpos m < 2 ^ 24 /\
    (eo = e1 \/ (eo = e1 + 1 /\ m = (2 ^ 23)%positive)).
Proof.
  intros HM He. cbv zeta.
  assert (Hfirst : exists mrs1,
            shr_fexp prec emax (Zpos M) e l = (mrs1, if Zpos M <? 2 ^ 24 then e else e + 1) /\
            2 ^ 23 <= shr_m mrs1 < 2 ^ 24).
  { destruct (Z.ltb_spec (Zpos M) (2 ^ 24)) as [Hlt|Hge].
    - eexists. split.
      + apply shr_fexp_noshift. cbn [Zdigits2]. rewrite fexp_eq.
        rewrite (digits2_eq M 24) by lia. lia.
      + rewrite (proj1 (loc_of_shr_record_of_loc _ _)). lia.
    - unfold shr_fexp. rewrite fexp_eq. cbn [Zdigits2].
      rewrite (digits2_eq M 25) by lia.
      replace (Z.max (25 + e - 24) (-149) - e) with 1 by lia.
      cbn [shr SpecFloat.iter_pos]. eexists. split; [reflexivity|].
      destruct l as [|[| |]]; cbn [shr_record_of_loc]; rewrite shr_1_spec by lia;
        cbn [shr_m];
        (split; [apply Z.div_le_lower_bound; lia|apply Z.div_lt_upper_bound; lia]). }
  destruct Hfirst as (mrs1 & Hs1 & Hm1).
  set (e1 := if Zpos M <? 2 ^ 24 then e else e + 1) in *.
  assert (He1 : -149 <= e1) by (unfold e1; destruct (Zpos M <? 2 ^ 24); lia).
  unfold binary_round_aux. rewrite Hs1.
  destruct (round_nearest_even_cases (shr_m mrs1) (loc_of_shr_record mrs1)) as [Hc|Hc].
  - rewrite Hc. destruct (shr_m mrs1) as [|m1|m1] eqn:Em; try lia.
    destruct (shr_fexp_second m1 e1 ltac:(lia) He1) as (mrs2 & e2 & -> & [(H1 & -> & ->)|(H1 & _)]);
      [|lia].
    exists m1, e1. split; [reflexivity|]. split; [lia|]. left. reflexivity.
  - rewrite Hc. destruct (shr_m mrs1 + 1) as [|m2|m2] eqn:Em; try lia.
    destruct (shr_fexp_second m2 e1 ltac:(lia) He1)
      as (mrs2 & e2 & -> & [(H1 & -> & ->)|(H1 & -> & ->)]).
    + exists m2, e1. split; [reflexivity|]. split; [lia|]. left. reflexivity.
    + exists (2 ^ 23)%positive, (e1 + 1). split; [reflexivity|]. split; [reflexivity|].
      right. split; reflexivity.
Qed.

(** The quotient of two normal floats, the first not above the second,
    does not exceed [1.0f]. *)
Lemma SFdiv_le_1 ma ea mb eb :
  2 ^ 23 <= Zpos ma < 2 ^ 24 -> 2 ^ 23 <= Zpos mb < 2 ^ 24 ->
  -60 <= ea - eb ->
  (ea < eb \/ (ea = eb /\ Zpos ma <= Zpos mb)) ->
  pos_le (2 ^ 23) (-23)
    (SFdiv prec emax (S754_finite false ma ea) (S754_finite false mb eb)).
Proof.
  intros Ha Hb Hk Hle.
  destruct (Z.eq_dec ea eb) as [Ee|Ee];
    [destruct (Z.eq_dec (Zpos ma) (Zpos mb)) as [Em|Em]|].
  { subst eb. injection Em as ->. rewrite SFdiv_self. cbn. lia. }
  all: unfold SFdiv, SFdiv_core_binary; cbn [Zdigits2];
    rewrite (digits2_eq ma 24), (digits2_eq mb 24) by lia; rewrite fexp_eq;
    replace (Z.min (Z.max (24 + ea - (24 + eb) - 24) (-149)) (ea - eb))
      with (ea - eb - 24) by lia;
    replace (ea - eb - (ea - eb - 24)) with 24 by lia; cbv beta iota zeta;
    rewrite Z.shiftl_mul_pow2 by lia;
    pose proof (Z_div_mod (Zpos ma * 2 ^ 24) (Zpos mb) ltac:(lia)) as Hdm;
    destruct (Z.div_eucl (Zpos ma * 2 ^ 24) (Zpos mb)) as [Q r]; destruct Hdm as [Hq Hr];
    cbn [xorb];
    assert (HQl : 2 ^ 23 <= Q) by nia;
    assert (HQu : Q < 2 ^ 25) by nia;
    destruct Q as [|Q|Q]; try lia;
    destruct (bra_loc_shape Q (ea - eb - 24) (new_location (Zpos mb) r) ltac:(lia) ltac:(lia))
      as (m & eo & -> & Hm & Heo); cbv zeta in Heo.
  - assert (HQ24 : Zpos Q < 2 ^ 24) by nia.
    destruct (Z.ltb_spec (Zpos Q) (2 ^ 24)); [|lia].
    apply fin_or_inf_pos_le; [lia|exact Hm|].
    destruct Heo as [->|[-> ->]]; [left; lia|right; split; [lia|reflexivity]].
  - apply fin_or_inf_pos_le; [destruct (Zpos Q <? 2 ^ 24); lia|exact Hm|].
    destruct (Zpos Q <? 2 ^ 24);
      (destruct Heo as [->|[-> ->]]; [left; lia|]);
      (destruct (Z.eq_dec (ea - eb) (-1)); first [left; lia|right; split; [lia|reflexivity]]).
Qed.

(** *** Round and sticky bits of a shifted mantissa *)

Lemma shr_bits_step M k mrs : 0 <= M -> 0 <= k ->
  shr_bits M k mrs -> shr_bits M (k + 1) (shr_1 mrs).
Proof.
  intros HM Hk (Hm & Hr & Hs). destruct mrs as [m r s]. cbn [shr_m shr_r shr_s] in *.
  assert (H2k : 0 < 2 ^ k) by (apply Z.pow_pos_nonneg; lia).
  assert (Hm0 : 0 <= m) by (subst m; apply Z.div_pos; lia).
  rewrite shr_1_spec by exact Hm0. unfold shr_bits. cbn [shr_m shr_r shr_s].
  rewrite Z.pow_add_r, Z.pow_1_r by lia.
  rewrite Z.rem_mul_r by lia. rewrite <- Hm.
  pose proof (Z.mod_pos_bound M (2 ^ k) H2k) as Hb.
  pose proof (Z.mod_pos_bound m 2 ltac:(lia)) as Hb2.
  split; [subst m; rewrite Z.div_div by lia; reflexivity|].
  rewrite (Zmod_odd m). destruct (Z.odd m).
  - rewrite Z.mul_1_r. split.
    + symmetry. apply Z.leb_le. lia.
    + rewrite orb_false_iff, Hs, Hr, Z.leb_gt. lia.
  - rewrite Z.mul_0_r, Z.add_0_r. split.
    + symmetry. apply Z.leb_gt. lia.
    + rewrite orb_false_iff, Hs, Hr, Z.leb_gt. lia.
Qed.

Lemma shr_bits_iter M p : 0 <= M -> forall k mrs, 0 <= k ->
  shr_bits M k mrs -> shr_bits M (k + Zpos p) (SpecFloat.iter_pos shr_1 p mrs).
Proof.
  intros HM. induction p as [p IH|p IH|]; intros k mrs Hk H; simpl.
  - replace (k + Zpos p~1) with (((k + 1) + Zpos p) + Zpos p) by lia.
    apply IH; [lia|]. apply IH; [lia|]. apply shr_bits_step; assumption.
  - replace (k + Zpos p~0) with ((k + Zpos p) + Zpos p) by lia.
    apply IH; [lia|]. apply IH; assumption.
  - apply shr_bits_step; assumption.
Qed.

Lemma shr_fexp_shift_bits M e n :
  0 <= M -> n = fexp prec emax (Zdigits2 M + e) - e -> 0 < n ->
  exists mrs, shr_fexp prec emax M e loc_Exact = (mrs, e + n) /\ shr_bits M n mrs.
Proof.
  intros HM Hn Hpos. unfold shr_fexp, shr. rewrite <- Hn.
  destruct n as [|p|p]; try lia.
  eexists; split; [reflexivity|].
  change (Zpos p) with (0 + Zpos p) at 1. apply shr_bits_iter; [assumption|lia|].
  unfold shr_bits. cbn [shr_record_of_loc shr_m shr_r shr_s].
  rewrite Z.pow_0_r, Z.div_1_r, Z.mod_1_r. cbn. tauto.
Qed.

(** Round to nearest, ties to even, read off the two bits. *)
Lemma round_nearest_even_bits M n mrs : 0 <= M -> 0 < n -> shr_bits M n mrs ->
  round_nearest_even (shr_m mrs) (loc_of_shr_record mrs) =
    if (2 ^ n <? 2 * (M mod 2 ^ n)) || ((2 * (M mod 2 ^ n) =? 2 ^ n) && Z.odd (M / 2 ^ n))
    then M / 2 ^ n + 1 else M / 2 ^ n.
Proof.
  intros HM Hn (Hm & Hr & Hs). destruct mrs as [m r s]. cbn [shr_m shr_r shr_s] in *.
  assert (H2n : 0 < 2 ^ n) by (apply Z.pow_pos_nonneg; lia).
  pose proof (Z.mod_pos_bound M (2 ^ n) H2n) as Hb.
  rewrite <- Hm. set (rem := M mod 2 ^ n) in *.
  destruct r, s; cbn [loc_of_shr_record round_nearest_even].
  - symmetry in Hr. apply Z.leb_le in Hr.
    assert (2 ^ n < 2 * rem) by (destruct (Z.eq_dec (2 * rem) (2 ^ n)) as [E|E]; [|lia];
                                 assert (true = false) by (apply Hs; auto); discriminate).
    destruct (Z.ltb_spec (2 ^ n) (2 * rem)); [reflexivity|lia].
  - symmetry in Hr. apply Z.leb_le in Hr.
    assert (2 * rem = 2 ^ n) by (destruct (proj1 Hs eq_refl); lia).
    destruct (Z.ltb_spec (2 ^ n) (2 * rem)); [lia|].
    destruct (Z.eqb_spec (2 * rem) (2 ^ n)); [|lia]. cbn [orb andb].
    rewrite <- Z.negb_odd. destruct (Z.odd m); reflexivity.
  - symmetry in Hr. apply Z.leb_gt in Hr.
    destruct (Z.ltb_spec (2 ^ n) (2 * rem)); [lia|].
    destruct (Z.eqb_spec (2 * rem) (2 ^ n)); [lia|]. reflexivity.
  - symmetry in Hr. apply Z.leb_gt in Hr.
    destruct (Z.ltb_spec (2 ^ n) (2 * rem)); [lia|].
    destruct (Z.eqb_spec (2 * rem) (2 ^ n)); [lia|]. reflexivity.
Qed.

(** Rounding an exact mantissa that must lose [n] bits, with the rule that
    decides between the truncated mantissa and its successor. *)
Lemma bra_exact_rule M e n :
  n = fexp prec emax (Zpos (digits2_pos M) + e) - e -> 0 < n ->
  let q := Zpos M / 2 ^ n in
  let r := Zpos M mod 2 ^ n in
  let m2 := if (2 ^ n <? 2 * r) || ((2 * r =? 2 ^ n) && Z.odd q) then q + 1 else q in
  binary_round_aux prec emax false (Zpos M) e loc_Exact =
    match m2 with
    | Z0 => S754_zero false
    | Zpos p => if m2 =? 2 ^ 24 then fin_or_inf false (2 ^ 23) (e + n + 1)
                else fin_or_inf false p (e + n)
    | Zneg _ => S754_nan
    end.
Proof.
  intros Hn Hpos. cbv zeta.
  destruct (shr_fexp_shift_bits (Zpos M) e n ltac:(lia) Hn Hpos) as (mrs & Hshr & Hbits).
  pose proof (round_nearest_even_bits (Zpos M) n mrs ltac:(lia) Hpos Hbits) as Hrne.
  assert (H2n : 0 < 2 ^ n) by (apply Z.pow_pos_nonneg; lia).
  assert (Hlt : Zpos M / 2 ^ n < 2 ^ 24).
  { apply Z.div_lt_upper_bound; [lia|].
    pose proof (digits2_bounds M) as [_ Hu].
    rewrite <- Z.pow_add_r by lia.
    eapply Z.lt_le_trans; [exact Hu|]. apply Z.pow_le_mono_r; [lia|].
    rewrite fexp_eq in Hn. lia. }
  assert (Hge : 0 <= Zpos M / 2 ^ n) by (apply Z.div_pos; lia).
  assert (He' : -149 <= e + n) by (rewrite fexp_eq in Hn; lia).
  unfold binary_round_aux. rewrite Hshr, Hrne.
  set (m2 := if (2 ^ n <? 2 * (Zpos M mod 2 ^ n)) ||
                ((2 * (Zpos M mod 2 ^ n) =? 2 ^ n) && Z.odd (Zpos M / 2 ^ n))
             then Zpos M / 2 ^ n + 1 else Zpos M / 2 ^ n).
  assert (Hb : 0 <= m2 <= 2 ^ 24) by (unfold m2; destruct (_ || _); lia).
  destruct m2 as [|p|p] eqn:Eq; [| |lia].
  - rewrite shr_fexp_noshift; [reflexivity|]. simpl Zdigits2. rewrite fexp_eq. lia.
  - destruct (Z.eqb_spec (Zpos p) (2 ^ 24)) as [E|E].
    + assert (p = 16777216%positive) as -> by lia. unfold shr_fexp. rewrite fexp_eq.
      change (Zdigits2 16777216) with 25.
      replace (Z.max (25 + (e + n) - 24) (-149) - (e + n)) with 1 by lia.
      reflexivity.
    + rewrite shr_fexp_noshift; [reflexivity|]. simpl Zdigits2. rewrite fexp_eq.
      assert (Zpos (digits2_pos p) <= 24) by (apply digits2_le_of_lt; lia).
      lia.
Qed.

Lemma log2_digits p : Z.log2 (Zpos p) = Zpos (digits2_pos p) - 1.
Proof.
  pose proof (digits2_bounds p) as [Hl Hu]. apply Z.log2_unique; [lia|].
  replace (Z.succ (Zpos (digits2_pos p) - 1)) with (Zpos (digits2_pos p)) by lia. lia.
Qed.

(** [(float)z] is a normal float that denotes [round_u32 z]. *)
Lemma f32_of_u32_value z : 0 < z < 2 ^ 32 ->
  exists m e, f32_of_u32 z = S754_finite false m e /\
    2 ^ 23 <= Zpos m < 2 ^ 24 /\ -23 <= e <= 9 /\
    Zpos m * 2 ^ (e + 23) = round_u32 z * 2 ^ 23.
Proof.
  intros Hz. destruct z as [|p|p]; try lia.
  pose proof (digits2_bounds p) as [Hpl Hpu].
  assert (Hdp : 1 <= Zpos (digits2_pos p) <= 32).
  { split; [lia|]. apply digits2_le_of_lt; lia. }
  unfold round_u32. cbv zeta. rewrite log2_digits.
  set (d := Zpos (digits2_pos p)) in *.
  replace (d - 1 - 23) with (d - 24) by lia.
  unfold f32_of_u32. cbn [binary_normalize]. unfold binary_round.
  destruct (shl_align_spec p 0 (fexp prec emax (Zpos (digits2_pos p) + 0))) as (mz & -> & Hmz).
  fold d in Hmz |- *. rewrite fexp_eq in *.
  destruct (Z.leb_spec (d - 24) 0) as [Hsmall|Hbig].
  - replace (Z.min 0 (Z.max (d + 0 - 24) (-149))) with (d - 24) in * by lia.
    replace (0 - (d - 24)) with (24 - d) in Hmz by lia.
    assert (Hp2 : 2 ^ (d - 1) * 2 ^ (24 - d) = 2 ^ 23)
      by (rewrite <- Z.pow_add_r by lia; f_equal; lia).
    assert (Hp3 : 2 ^ d * 2 ^ (24 - d) = 2 ^ 24)
      by (rewrite <- Z.pow_add_r by lia; f_equal; lia).
    assert (H2 : 0 < 2 ^ (24 - d)) by (apply Z.pow_pos_nonneg; lia).
    assert (Hnorm : 2 ^ 23 <= Zpos mz < 2 ^ 24) by nia.
    rewrite bra_exact_small
      by (rewrite (digits2_eq mz 24) by lia; rewrite fexp_eq; lia).
    unfold fin_or_inf. change (emax - prec) with 104.
    destruct (Z.leb_spec (d - 24) 104); [|lia].
    exists mz, (d - 24). split; [reflexivity|]. split; [exact Hnorm|]. split; [lia|].
    rewrite Hmz. replace (d - 24 + 23) with (d - 1) by lia.
    rewrite <- Hp2. ring.
  - replace (Z.min 0 (Z.max (d + 0 - 24) (-149))) with 0 in * by lia.
    rewrite Z.sub_0_r, Z.pow_0_r, Z.mul_1_r in Hmz. injection Hmz as ->.
    set (n := d - 24) in *.
    assert (Hn : n = fexp prec emax (Zpos (digits2_pos p) + 0) - 0)
      by (rewrite fexp_eq; fold d; lia).
    rewrite (bra_exact_rule p 0 n Hn ltac:(lia)).
    assert (H2n : 0 < 2 ^ n) by (apply Z.pow_pos_nonneg; lia).
    assert (Hp2 : 2 ^ 23 * 2 ^ n = 2 ^ (d - 1))
      by (rewrite <- Z.pow_add_r by lia; f_equal; lia).
    assert (Hp3 : 2 ^ 24 * 2 ^ n = 2 ^ d)
      by (rewrite <- Z.pow_add_r by lia; f_equal; lia).
    assert (Hq : 2 ^ 23 <= Zpos p / 2 ^ n < 2 ^ 24).
    { split; [apply Z.div_le_lower_bound; lia|apply Z.div_lt_upper_bound; lia]. }
    set (m2 := if (2 ^ n <? 2 * (Zpos p mod 2 ^ n)) ||
                  ((2 * (Zpos p mod 2 ^ n) =? 2 ^ n) && Z.odd (Zpos p / 2 ^ n))
               then Zpos p / 2 ^ n + 1 else Zpos p / 2 ^ n).
    assert (Hm2 : 2 ^ 23 <= m2 <= 2 ^ 24) by (unfold m2; destruct (_ || _); lia).
    destruct m2 as [|q|q] eqn:Eq; try lia.
    unfold fin_or_inf. change (emax - prec) with 104.
    destruct (Z.eqb_spec (Zpos q) (2 ^ 24)) as [E|E].
    + destruct (Z.leb_spec (0 + n + 1) 104); [|lia].
      exists (2 ^ 23)%positive, (0 + n + 1). split; [reflexivity|].
      split; [change (Zpos (2 ^ 23)) with (2 ^ 23); lia|]. split; [lia|].
      rewrite E. change (Zpos (2 ^ 23)) with (2 ^ 23).
      replace (0 + n + 1 + 23) with (1 + n + 23) by lia.
      rewrite !Z.pow_add_r by lia. change (2 ^ 24) with (2 ^ 1 * 2 ^ 23). ring.
    + destruct (Z.leb_spec (0 + n) 104); [|lia].
      exists q, (0 + n). split; [reflexivity|]. split; [lia|]. split; [lia|].
      replace (0 + n + 23) with (n + 23) by lia. rewrite Z.pow_add_r by lia. ring.
Qed.

(** *** The conversion of unsigned integers is monotone *)

Lemma round_u32_big z n : 0 < z -> n = Z.log2 z - 23 -> 0 < n ->
  z = z / 2 ^ n * 2 ^ n + z mod 2 ^ n /\
  0 <= z mod 2 ^ n < 2 ^ n /\
  2 ^ 23 <= z / 2 ^ n < 2 ^ 24 /\
  round_u32 z =
    (if (2 ^ n <? 2 * (z mod 2 ^ n)) || ((2 * (z mod 2 ^ n) =? 2 ^ n) && Z.odd (z / 2 ^ n))
     then z / 2 ^ n + 1 else z / 2 ^ n) * 2 ^ n.
Proof.
  intros Hz Hn Hpos.
  assert (H2n : 0 < 2 ^ n) by (apply Z.pow_pos_nonneg; lia).
  pose proof (Z.log2_spec z Hz) as [Hl Hu].
  replace (Z.log2 z) with (n + 23) in Hl by lia.
  replace (Z.succ (Z.log2 z)) with (n + 24) in Hu by lia.
  rewrite Z.pow_add_r in Hl, Hu by lia.
  split; [rewrite Z.mul_comm; apply Z.div_mod; lia|].
  split; [apply Z.mod_pos_bound; lia|].
  split; [split; [apply Z.div_le_lower_bound; lia|apply Z.div_lt_upper_bound; lia]|].
  unfold round_u32. cbv zeta. rewrite <- Hn.
  destruct (Z.leb_spec n 0); [lia|reflexivity].
Qed.

Lemma round_u32_mono a b : 0 < a <= b -> round_u32 a <= round_u32 b.
Proof.
  intros [Ha Hab].
  pose proof (Z.log2_le_mono a b Hab) as Hlog.
  pose proof (Z.log2_spec a Ha) as [Hal Hau].
  pose proof (Z.log2_spec b ltac:(lia)) as [Hbl Hbu].
  destruct (Z_le_gt_dec (Z.log2 b - 23) 0) as [Hnb|Hnb].
  { unfold round_u32. cbv zeta.
    destruct (Z.leb_spec (Z.log2 a - 23) 0); [|lia].
    destruct (Z.leb_spec (Z.log2 b - 23) 0); [|lia]. exact Hab. }
  destruct (round_u32_big b (Z.log2 b - 23) ltac:(lia) eq_refl ltac:(lia))
    as (Eb & Hrb & Hqb & ->).
  set (nb := Z.log2 b - 23) in *.
  assert (H2nb : 0 < 2 ^ nb) by (apply Z.pow_pos_nonneg; lia).
  set (qb := b / 2 ^ nb) in *. set (rb := b mod 2 ^ nb) in *.
  assert (Hlow : 2 ^ 23 * 2 ^ nb <= (if (2 ^ nb <? 2 * rb) || ((2 * rb =? 2 ^ nb) && Z.odd qb)
                                     then qb + 1 else qb) * 2 ^ nb)
    by (destruct ((2 ^ nb <? 2 * rb) || _); nia).
  destruct (Z_le_gt_dec (Z.log2 a - 23) 0) as [Hna|Hna].
  { unfold round_u32 at 1. cbv zeta.
    destruct (Z.leb_spec (Z.log2 a - 23) 0); [|lia].
    assert (2 ^ Z.succ (Z.log2 a) <= 2 ^ 24) by (apply Z.pow_le_mono_r; lia).
    assert (2 ^ 1 <= 2 ^ nb) by (apply Z.pow_le_mono_r; lia).
    lia. }
  destruct (round_u32_big a (Z.log2 a - 23) Ha eq_refl ltac:(lia))
    as (Ea & Hra & Hqa & ->).
  set (na := Z.log2 a - 23) in *.
  assert (H2na : 0 < 2 ^ na) by (apply Z.pow_pos_nonneg; lia).
  set (qa := a / 2 ^ na) in *. set (ra := a mod 2 ^ na) in *.
  assert (Hnn : na <= nb) by (unfold na, nb; lia).
  assert (Hna0 : 0 < na) by (unfold na; lia).
  assert (Hnb0 : 0 < nb) by (unfold nb; lia).
  clearbody qa ra qb rb na nb.
  destruct (Z.eq_dec na nb) as [En|En].
  - subst na. set (P := 2 ^ nb) in *. clearbody P.
    destruct (Z_lt_le_dec qa qb) as [Hq|Hq].
    + clear Hlow. destruct ((P <? 2 * ra) || _), ((P <? 2 * rb) || _); nia.
    + assert (qa = qb) by nia. subst qa. assert (ra <= rb) by nia.
      destruct (Z.ltb_spec P (2 * ra)), (Z.ltb_spec P (2 * rb)),
               (Z.eqb_spec (2 * ra) P), (Z.eqb_spec (2 * rb) P), (Z.odd qb);
        cbn [orb andb]; nia.
  - assert (Hup : (if (2 ^ na <? 2 * ra) || ((2 * ra =? 2 ^ na) && Z.odd qa)
                   then qa + 1 else qa) * 2 ^ na <= 2 ^ 24 * 2 ^ na)
      by (destruct ((2 ^ na <? 2 * ra) || _); nia).
    assert (Hpow : 2 ^ 24 * 2 ^ na <= 2 ^ 23 * 2 ^ nb).
    { rewrite <- !Z.pow_add_r by lia. apply Z.pow_le_mono_r; lia. }
    lia.
Qed.

Lemma key_order ma ea mb eb :
  2 ^ 23 <= ma < 2 ^ 24 -> 2 ^ 23 <= mb < 2 ^ 24 -> -23 <= ea -> -23 <= eb ->
  ma * 2 ^ (ea + 23) <= mb * 2 ^ (eb + 23) ->
  ea < eb \/ (ea = eb /\ ma <= mb).
Proof.
  intros Ha Hb Hea Heb H.
  assert (HX : 0 < 2 ^ (eb + 23)) by (apply Z.pow_pos_nonneg; lia).
  destruct (Z_lt_le_dec eb ea) as [Hlt|Hle].
  - exfalso. replace (ea + 23) with ((ea - eb) + (eb + 23)) in H by lia.
    rewrite Z.pow_add_r in H by lia.
    assert (HY : 2 ^ 1 <= 2 ^ (ea - eb)) by (apply Z.pow_le_mono_r; lia).
    set (X := 2 ^ (eb + 23)) in *. set (Y := 2 ^ (ea - eb)) in *. clearbody X Y.
    assert (H1 : 2 ^ 24 <= ma * Y) by nia.
    assert (H2 : 2 ^ 24 * X <= ma * Y * X) by (apply Z.mul_le_mono_nonneg_r; lia).
    assert (H3 : mb * X < 2 ^ 24 * X) by (apply Z.mul_lt_mono_pos_r; lia).
    rewrite Z.mul_assoc in H. lia.
  - destruct (Z.eq_dec ea eb) as [->|Hne]; [right|left; lia].
    split; [reflexivity|]. apply Z.mul_le_mono_pos_r in H; assumption.
Qed.

(** A part of a whole, as a percentage, does not exceed [100.0f]. *)
Lemma percent_of_pos_le a b : 0 <= a <= b -> 0 < b < 2 ^ 32 ->
  pos_le C100 (-17) (percent_of a b).
Proof.
  intros Ha Hb. destruct (Z.eq_dec a 0) as [->|Hne].
  { rewrite percent_of_zero by exact Hb. exact I. }
  destruct (f32_of_u32_value a ltac:(lia)) as (ma & ea & Efa & Hma & Hea & Hka).
  destruct (f32_of_u32_value b Hb) as (mb & eb & Efb & Hmb & Heb & Hkb).
  pose proof (round_u32_mono a b ltac:(lia)) as Hmono.
  assert (Hord : ea < eb \/ (ea = eb /\ Zpos ma <= Zpos mb))
    by (apply key_order; lia).
  unfold percent_of, f32_div, f32_mul. rewrite Efa, Efb.
  pose proof (SFdiv_le_1 ma ea mb eb Hma Hmb ltac:(lia) Hord) as Hq.
  destruct (SFdiv prec emax _ _) as [s|s| |[|] m e]; cbn [pos_le] in Hq; try contradiction.
  - exact I.
  - destruct Hq as [Hm Hq]. unfold f32_100. cbn [SFmul xorb].
    apply bra_pos_le; [unfold C100; lia|lia|lia|].
    rewrite Pos2Z.inj_mul. change (Zpos 13107200) with (Zpos C100).
    replace (-17 - (e + -17)) with (- e) by lia.
    assert (Zpos m <= 2 ^ (- e)).
    { destruct Hq as [He|[-> Hle]].
      - assert (2 ^ 24 <= 2 ^ (- e)) by (apply Z.pow_le_mono_r; lia). lia.
      - exact Hle. }
    rewrite (Z.mul_comm (Zpos m)). apply Z.mul_le_mono_nonneg_l; [lia|assumption].
Qed.

(** ** Percentages kept in the series and the histories *)

Lemma percent_of_in_0_100 a b : 0 <= a <= b -> 0 < b < 2 ^ 32 -> in_0_100 (percent_of a b).
Proof. intros Ha Hb. apply pos_le_in_0_100, percent_of_pos_le; assumption. Qed.

Lemma in_0_100_zero : in_0_100 f32_0.
Proof. split; reflexivity. Qed.

Lemma used_percent_in_0_100 total free_bytes :
  is_u32 total -> is_u32 free_bytes -> in_0_100 (used_percent total free_bytes).
Proof.
  unfold is_u32, UINT32_MAX. intros Ht Hf. unfold used_percent. cbv zeta.
  destruct (Z.ltb_spec 0 total); [|apply in_0_100_zero].
  destruct (Z.ltb_spec free_bytes total).
  - rewrite wrap_u32_small by lia. apply percent_of_in_0_100; lia.
  - apply percent_of_in_0_100; lia.
Qed.

Lemma sample_delta_range env p num dt p2 :
  _sample_task_states env p = (Some (num, dt), p2) -> 0 <= dt < 2 ^ 32.
Proof.
  unfold _sample_task_states. cbv zeta.
  destruct (task_status (self p)); [|discriminate].
  destruct (uxTaskGetSystemState _ _ _) as [cells' n].
  destruct (n =? 0); [discriminate|]. intros H. injection H as _ <- _.
  unfold delta_total_of. destruct (_ >=? _); apply wrap_u32_range.
Qed.

(** An invariant of every step of an iteration, where the last three
    steps are taken together and see a total delta of 32 bits. *)
Lemma iteration_invariant_metrics (P : Program -> Prop) env p :
  (forall q, P q -> P (snd (_ensure_task_storage_capacity env q))) ->
  (forall q, P q -> P (snd (_sample_task_states env q))) ->
  (forall q h lc, P q ->
     P {| self := self q; prev_idle_ticks_0 := prev_idle_ticks_0 q;
          prev_idle_ticks_1 := prev_idle_ticks_1 q; log_counter := lc; heap := h |}) ->
  (forall q name, P q -> P (snd (_find_or_create_task_index name q))) ->
  (forall q idx ts dt, P q -> P (_update_task_history env idx ts dt q)) ->
  (forall q seen, P q -> P (_process_deleted_tasks seen q)) ->
  (forall q num dt, 0 <= dt < 2 ^ 32 -> P q -> P (record_metrics env num dt q)) ->
  P p -> P (sysmon_monitor_iteration env p).
Proof.
  intros Hens Hsam Hstat Hres Hupd Hdel Hrec HP.
  unfold sysmon_monitor_iteration.
  pose proof (Hens p HP) as H1.
  destruct (_ensure_task_storage_capacity env p) as [ok p1]. cbn [snd] in H1.
  destruct ok; cbn [negb]; [|exact H1].
  pose proof (Hsam p1 H1) as H2. pose proof (sample_delta_range env p1) as Hdt.
  destruct (_sample_task_states env p1) as [[[num dt]|] p2]; cbn [snd] in H2; [|exact H2].
  specialize (Hdt num dt p2 eq_refl).
  pose proof (Hstat p2 (heap p2) (wrap_int (log_counter p2 + 1)) H2) as H3.
  set (p3 := {| self := self p2; prev_idle_ticks_0 := prev_idle_ticks_0 p2;
                prev_idle_ticks_1 := prev_idle_ticks_1 p2;
                log_counter := wrap_int (log_counter p2 + 1); heap := heap p2 |}) in *.
  unfold alloc. destruct (calloc_seen_ok env); cbv beta iota; [|exact H3].
  set (h1 := {[fresh (heap p3)]} ∪ heap p3).
  assert (H4 : P (fst (for_loop (Z.to_nat num) (track_task env dt)
                         (set_heap h1 p3, replicate (Z.to_nat (task_capacity (self p3))) false)))).
  { apply (for_loop_invariant (fun st => P (fst st))).
    - cbn [fst]. apply (Hstat p3 h1 (log_counter p3) H3).
    - intros k [q seen] _ Hq. cbn [fst] in Hq. unfold track_task.
      destruct (scratch q !! k) as [t|]; [|exact Hq].
      destruct (pcTaskName t) as [name|]; [|exact Hq].
      pose proof (Hres q name Hq) as Hr.
      destruct (_find_or_create_task_index name q) as [idx q1]. cbn [snd] in Hr.
      destruct (idx =? -1); cbn [fst]; [exact Hr|]. apply Hupd. exact Hr. }
  destruct (for_loop (Z.to_nat num) (track_task env dt) _) as [p4 seen]. cbn [fst] in H4.
  pose proof (Hdel p4 seen H4) as H5.
  set (p5 := _process_deleted_tasks seen p4) in *.
  pose proof (Hstat p5 (free (Some (fresh (heap p3))) (heap p5)) (log_counter p5) H5) as H6.
  exact (Hrec _ num dt Hdt H6).
Qed.

(** What steps 5 to 7 leave in the percentage series. *)
Lemma record_metrics_series env num dt q :
  exists d0 d1,
    0 <= d0 < 2 ^ 32 /\ 0 <= d1 < 2 ^ 32 /\
    let s := self q in
    let s' := self (record_metrics env num dt q) in
    let w := Z.to_nat (series_write_index s) in
    let c0 := core_usage d0 dt in
    let c1 := core_usage d1 dt in
    cpu_overall_percent s' = <[w := overall_usage c0 c1]> (cpu_overall_percent s) /\
    cpu_core_percent_0 s' = <[w := c0]> (cpu_core_percent_0 s) /\
    cpu_core_percent_1 s' = <[w := c1]> (cpu_core_percent_1 s) /\
    dram_used_percent s' =
      <[w := used_percent (internal_total env) (internal_free env)]> (dram_used_percent s) /\
    psram_used_percent s' =
      <[w := used_percent (spiram_total env) (spiram_free env)]> (psram_used_percent s).
Proof.
  unfold record_metrics, _calculate_cpu_metrics.
  destruct (idle_ticks _ _ _ _) as [i0 i1].
  exists (delta_idle i0 (prev_idle_ticks_0 q)), (delta_idle i1 (prev_idle_ticks_1 q)).
  split; [apply delta_idle_range|]. split; [apply delta_idle_range|].
  unfold _collect_memory_stats. cbv zeta.
  destruct (0 <? spiram_total env); cbn; auto.
Qed.

Lemma cpu_series_ok_ext s s' : series_of s' = series_of s -> cpu_series_ok s -> cpu_series_ok s'.
Proof.
  unfold series_of, cpu_series_ok. intros H.
  injection H as _ E1 E2 E3 _ _ _ _ _ _ _ _. rewrite E1, E2, E3. auto.
Qed.

Lemma mem_series_ok_ext s s' : series_of s' = series_of s -> mem_series_ok s -> mem_series_ok s'.
Proof.
  unfold series_of, mem_series_ok. intros H.
  injection H as _ _ _ _ _ _ _ _ E1 _ _ E2. rewrite E1, E2. auto.
Qed.

(** A property of the series that all steps but the last three keep is
    kept by the entry points as soon as the last three steps keep it. *)
Lemma entry_points_keep_series (Q : SysMonState -> Prop) (E : CycleEnv -> Prop) :
  (forall s s', series_of s' = series_of s -> Q s -> Q s') ->
  (forall env q num dt, E env -> 0 <= dt < 2 ^ 32 ->
     Q (self q) -> Q (self (record_metrics env num dt q))) ->
  forall ops p, Forall (entry_point E) ops -> Q (self p) -> Q (self (run ops p)).
Proof.
  intros Hext Hrec. induction ops as [|o ops IH]; intros p HF HQ; [exact HQ|].
  inversion HF as [|? ? Ho HF']; subst. cbn [run fold_left]. apply (IH _ HF').
  destruct o; cbn [entry_point] in Ho; try contradiction; cbn [exec].
  - revert HQ. apply Hext, init_keeps.
  - revert HQ. apply Hext. reflexivity.
  - apply (iteration_invariant_metrics (fun q => Q (self q))); [| | | | | | |exact HQ].
    + intros q. apply Hext, ensure_keeps.
    + intros q. apply Hext, sample_keeps.
    + intros q h lc H. exact H.
    + intros q name. apply Hext, find_or_create_keeps.
    + intros q idx ts dt. apply Hext, update_history_keeps.
    + intros q seen. apply Hext, process_deleted_keeps.
    + intros q num dt Hdt. apply Hrec; assumption.
Qed.

(** X19: every CPU percentage kept in the series lies in [0, 100].  In
    every state that calls of [sysmon_init] and [sysmon_deinit] and
    iterations of the sampler lead to from the initial state, whatever the
    platform answers, each entry of the overall series and of the two
    per-core series is a binary32 value between [0.0] and [100.0]. *)
Theorem recorded_cpu_usage_within_0_100 ops :
  Forall (entry_point (fun _ => True)) ops ->
  let s := self (run ops program_init) in
  Forall in_0_100 (cpu_overall_percent s) /\
  Forall in_0_100 (cpu_core_percent_0 s) /\
  Forall in_0_100 (cpu_core_percent_1 s).
Proof.
  intros HF. cbv zeta.
  apply (entry_points_keep_series cpu_series_ok (fun _ => True)); [| |exact HF|].
  - apply cpu_series_ok_ext.
  - intros env q num dt _ Hdt (H0 & H1 & H2).
    destruct (record_metrics_series env num dt q) as (d0 & d1 & Hd0 & Hd1 & Hs).
    cbv zeta in Hs. destruct Hs as (E0 & E1 & E2 & _).
    unfold cpu_series_ok. rewrite E0, E1, E2.
    pose proof (core_usage_pos_le d0 dt Hd0 Hdt) as Hc0.
    pose proof (core_usage_pos_le d1 dt Hd1 Hdt) as Hc1.
    split; [|split]; apply Forall_insert; try assumption.
    + apply pos_le_in_0_100, overall_usage_pos_le; assumption.
    + apply pos_le_in_0_100, Hc0.
    + apply pos_le_in_0_100, Hc1.
  - unfold cpu_series_ok, program_init, zero_history. cbn.
    repeat split; apply Forall_replicate, in_0_100_zero.
Qed.

(** X20: every memory percentage lies in [0, 100].  When the heap
    figures the platform answers are unsigned 32-bit values, the two used
    percentages that [_collect_memory_stats] computes are binary32 values
    between [0.0] and [100.0], and so is each entry of the two memory
    percentage series in every state that calls of [sysmon_init] and
    [sysmon_deinit] and iterations of the sampler lead to from the initial
    state. *)
Theorem recorded_memory_usage_within_0_100 ops env p :
  Forall (entry_point heap_figures_u32) ops -> heap_figures_u32 env ->
  let s := self (run ops program_init) in
  let m := fst (_collect_memory_stats env p) in
  Forall in_0_100 (dram_used_percent s) /\
  Forall in_0_100 (psram_used_percent s) /\
  in_0_100 (ms_dram_used_percent m) /\
  in_0_100 (ms_psram_used_percent m).
Proof.
  intros HF (Ht & Hf & Hpt & Hpf). cbv zeta.
  assert (Hs : mem_series_ok (self (run ops program_init))).
  { apply (entry_points_keep_series mem_series_ok heap_figures_u32); [| |exact HF|].
    - apply mem_series_ok_ext.
    - intros env' q num dt (Ht' & Hf' & Hpt' & Hpf') Hdt (H0 & H1).
      destruct (record_metrics_series env' num dt q) as (d0 & d1 & _ & _ & Hs).
      cbv zeta in Hs. destruct Hs as (_ & _ & _ & E0 & E1).
      unfold mem_series_ok. rewrite E0, E1.
      split; apply Forall_insert; try assumption; apply used_percent_in_0_100; assumption.
    - unfold mem_series_ok, program_init, zero_history. cbn.
      split; apply Forall_replicate, in_0_100_zero. }
  destruct Hs as [H0 H1]. split; [exact H0|]. split; [exact H1|].
  unfold _collect_memory_stats. cbn [fst ms_dram_used_percent ms_psram_used_percent].
  split; apply used_percent_in_0_100; assumption.
Qed.

(** X21: every stack percentage kept in a slot lies in [0, 100].  When
    the registered stack sizes the platform answers are unsigned 32-bit
    values, then in every state the operations lead to from the initial
    state, each entry of the stack percentage history of each slot of the
    table is a binary32 value between [0.0] and [100.0]: the bytes used
    are taken as 0 when the free stack reported is not below the
    registered size, so the ratio never exceeds one. *)
Theorem recorded_stack_usage_within_0_100 ops :
  Forall (op_env stack_sizes_u32) ops ->
  Forall (fun t => Forall in_0_100 (stack_usage_percent_history t))
    (table (run ops program_init)).
Proof.
  set (Q := fun t => Forall in_0_100 (stack_usage_percent_history t)).
  assert (Hgen : forall p, Forall (op_env stack_sizes_u32) ops ->
            Forall Q (table p) -> Forall Q (table (run ops p))).
  { induction ops as [|o ops IH]; intros p HF HQ; [exact HQ|].
    inversion HF as [|? ? Ho HF']; subst. cbn [run fold_left]. apply (IH _ HF').
    revert Ho HQ. apply (exec_slots_invariant_env stack_sizes_u32 Q).
    - apply Forall_replicate, in_0_100_zero.
    - intros name. apply Forall_replicate, in_0_100_zero.
    - intros env ts dt t He Ht. unfold Q, update_slot. cbn.
      apply Forall_insert; [exact Ht|].
      set (hwm := wrap_u32 (usStackHighWaterMark ts * STACK_TYPE_SIZE)).
      pose proof (wrap_u32_range (usStackHighWaterMark ts * STACK_TYPE_SIZE)) as Hh.
      fold hwm in Hh.
      destruct (stack_registry env (xHandle ts)) as [v|] eqn:Ev; [|apply in_0_100_zero].
      specialize (He _ _ Ev). unfold is_u32, UINT32_MAX in He.
      destruct (Z.ltb_spec 0 v); [|apply in_0_100_zero]. cbn [andb].
      destruct (Z.ltb_spec hwm v).
      + rewrite wrap_u32_small by lia. apply percent_of_in_0_100; lia.
      + apply percent_of_in_0_100; lia.
    - intros t _ Ht. unfold Q, miss_slot. cbn.
      apply Forall_insert; [exact Ht|apply in_0_100_zero]. }
  intros HF. apply Hgen; [exact HF|]. constructor.
Qed.

(** X22: the CPU percentage of a task lies in [0, 100] when the task ran
    no longer than the cycle.  When the run-time counter of the entry
    exceeds the counter kept in the slot by no more than [delta_total],
    the value [_update_task_history] records at the write cursor of the
    slot is a binary32 value between [0.0] and [100.0]; when the counter
    of the entry is below the one kept (the task counter went back), the
    value is [0.0] whatever [delta_total] is. *)
Theorem task_cpu_usage_within_0_100 env idx ts delta_total p t :
  0 <= idx -> table p !! Z.to_nat idx = Some t -> slot_wf t ->
  0 <= delta_total < 2 ^ 32 ->
  0 <= prev_run_time_ticks t ->
  ulRunTimeCounter ts - prev_run_time_ticks t <= delta_total ->
  exists t' u, table (_update_task_history env idx ts delta_total p) !! Z.to_nat idx = Some t' /\
    usage_percent_history t' !! Z.to_nat (write_index t) = Some u /\
    in_0_100 u /\
    (ulRunTimeCounter ts < prev_run_time_ticks t -> u = f32_0).
Proof.
  intros Hidx Ht (Hw & Hl1 & _) Hdt Hprev Hle.
  exists (update_slot env ts delta_total t),
         (usage_of (delta_task_of (ulRunTimeCounter ts) (prev_run_time_ticks t)) delta_total).
  split.
  { unfold _update_task_history. destruct (Z.ltb_spec idx 0); [lia|]. rewrite Ht.
    rewrite table_set_table by apply length_insert.
    apply list_lookup_insert_eq. apply lookup_lt_Some in Ht. exact Ht. }
  split; [unfold update_slot; cbn; apply list_lookup_insert_eq; lia|].
  unfold usage_of, delta_task_of.
  destruct (Z.ltb_spec 0 delta_total) as [Hpos|Hz].
  - destruct (Z.geb_spec (ulRunTimeCounter ts) (prev_run_time_ticks t)) as [Hge|Hlt].
    + rewrite wrap_u32_small by lia.
      split; [apply percent_of_in_0_100; lia|]. intros H. lia.
    + split; [apply percent_of_in_0_100; lia|]. intros _. apply percent_of_zero. lia.
  - split; [apply in_0_100_zero|]. reflexivity.
Qed.

(** X23: the capacity step never loses a tracked task.  On a table of
    [task_capacity] slots, whatever [_ensure_task_storage_capacity]
    returns, every active slot is found afterwards under the same index
    with its whole record, and every slot that is active afterwards was
    the same slot before (the table and the scratch array may have moved
    to new blocks).  When the step has grown the capacity, the new table
    has exactly the new capacity and each of its inactive slots is a
    zeroed slot: what a task that has left the table had recorded is not
    carried over. *)
Theorem capacity_step_keeps_the_tracked_tasks env p :
  length (table p) = Z.to_nat (task_capacity (self p)) ->
  let p' := snd (_ensure_task_storage_capacity env p) in
  (forall j t, table p !! j = Some t -> is_active t = true -> table p' !! j = Some t) /\
  (forall j t', table p' !! j = Some t' -> is_active t' = true -> table p !! j = Some t') /\
  (task_capacity (self p) < task_capacity (self p') ->
   length (table p') = Z.to_nat (task_capacity (self p')) /\
   forall j t', table p' !! j = Some t' -> is_active t' = false -> t' = zero_slot).
Proof.
  intros Hlen. cbv zeta.
  destruct (probe_storage_frame env p) as (Ht & Hc & _).
  pose proof (table_ext p (probe_storage env p) Ht) as Htab0.
  assert (Hsame : forall q, table q = table p -> task_capacity (self q) = task_capacity (self p) ->
            (forall j t, table p !! j = Some t -> is_active t = true -> table q !! j = Some t) /\
            (forall j t', table q !! j = Some t' -> is_active t' = true -> table p !! j = Some t') /\
            (task_capacity (self p) < task_capacity (self q) ->
             length (table q) = Z.to_nat (task_capacity (self q)) /\
             forall j t', table q !! j = Some t' -> is_active t' = false -> t' = zero_slot)).
  { intros q -> ->. split; [auto|]. split; [auto|]. lia. }
  destruct (ensure_cases env p) as (a & full & [E|E]); rewrite E; cbn [snd].
  { apply Hsame; assumption. }
  destruct (grow_task_storage env (probe_storage env p) a full) as [ok p'] eqn:G. cbn [snd].
  destruct (grow_cases _ _ _ _ _ _ G) as [->|(_ & Hlt & Htab & _)].
  { apply Hsame; assumption. }
  rewrite Htab0, Hc in Htab. rewrite Hc in Hlt.
  destruct (grown_table_spec (table p) _ _ Hlen Hlt) as (Hl' & Hfwd & Hback).
  cbv zeta in Hl', Hfwd, Hback. rewrite <- Htab in Hl', Hfwd, Hback.
  split; [exact Hfwd|]. split; [exact Hback|]. intros _. split; [exact Hl'|].
  intros j t' Ht' Hi. rewrite Htab in Ht'.
  rewrite copy_active_lookup in Ht' by (rewrite length_replicate; lia).
  assert (Hz : forall u, replicate (Z.to_nat (task_capacity (self p'))) zero_slot !! j = Some u ->
                 u = zero_slot).
  { intros u Hu. apply lookup_replicate in Hu. apply Hu. }
  destruct (j <? Z.to_nat (task_capacity (self p)))%nat; [|exact (Hz _ Ht')].
  destruct (table p !! j) as [t|]; [|exact (Hz _ Ht')].
  destruct (is_active t) eqn:Ea; [|exact (Hz _ Ht')].
  injection Ht' as ->. congruence.
Qed.

(** ** Missed cycles and eviction *)

Lemma ensure_active_slots env p :
  length (table p) = Z.to_nat (task_capacity (self p)) ->
  length (table (snd (_ensure_task_storage_capacity env p))) =
    Z.to_nat (task_capacity (self (snd (_ensure_task_storage_capacity env p)))) /\
  forall j t, table p !! j = Some t -> is_active t = true ->
    table (snd (_ensure_task_storage_capacity env p)) !! j = Some t.
Proof.
  intros Hlen.
  destruct (probe_storage_frame env p) as (Ht & Hc & _).
  pose proof (table_ext p (probe_storage env p) Ht) as Htab0.
  assert (Hsame : length (table (probe_storage env p)) =
                    Z.to_nat (task_capacity (self (probe_storage env p))) /\
                  forall j t, table p !! j = Some t -> is_active t = true ->
                    table (probe_storage env p) !! j = Some t).
  { rewrite Htab0, Hc. split; [exact Hlen|auto]. }
  destruct (ensure_cases env p) as (a & full & [E|E]); rewrite E; cbn [snd]; [exact Hsame|].
  destruct (grow_task_storage env (probe_storage env p) a full) as [ok p'] eqn:G. cbn [snd].
  destruct (grow_cases _ _ _ _ _ _ G) as [->|(_ & Hlt & Htab & _)]; [exact Hsame|].
  rewrite Htab0, Hc in Htab. rewrite Hc in Hlt.
  destruct (grown_table_spec (table p) _ _ Hlen Hlt) as (Hl' & Hfwd & _).
  cbv zeta in Hl', Hfwd. rewrite <- Htab in Hl', Hfwd. split; assumption.
Qed.

Lemma iteration_table_length env p :
  length (table p) = Z.to_nat (task_capacity (self p)) ->
  length (table (sysmon_monitor_iteration env p)) =
    Z.to_nat (task_capacity (self (sysmon_monitor_iteration env p))).
Proof.
  apply (iteration_invariant (fun q => length (table q) = Z.to_nat (task_capacity (self q)))).
  - intros q H. exact (proj1 (ensure_active_slots env q H)).
  - intros q H. destruct (sample_frame env q) as (St & Sc & _).
    rewrite (table_ext q _ St), Sc. exact H.
  - intros q h lc H. exact H.
  - intros q i t name _ _ H. rewrite find_or_create_length.
    destruct (find_or_create_frame name q) as (_ & Fc & _). rewrite Fc. exact H.
  - intros q idx ts dt H. rewrite update_history_length.
    destruct (update_history_frame env idx ts dt q) as (_ & Uc & _). rewrite Uc. exact H.
  - intros q seen H. rewrite process_deleted_length, process_deleted_capacity. exact H.
  - intros q num dt H. rewrite cpu_metrics_self.
    rewrite (table_ext q) by (rewrite cpu_metrics_self; reflexivity). exact H.
  - intros q H. destruct (memory_stats_frame env q) as (Mt & _ & Mc & _).
    rewrite (table_ext q _ Mt), Mc. exact H.
  - intros q overall c0 c1 ms H. exact H.
Qed.

Lemma exec_table_length o p :
  length (table p) = Z.to_nat (task_capacity (self p)) ->
  length (table (exec o p)) = Z.to_nat (task_capacity (self (exec o p))).
Proof.
  intros H. destruct o; cbn [exec].
  - destruct (init_frame e p) as (It & _ & Ic & _). rewrite (table_ext p _ It), Ic. exact H.
  - reflexivity.
  - apply iteration_table_length, H.
  - exact (proj1 (ensure_active_slots e p H)).
  - destruct (sample_frame e p) as (St & Sc & _). rewrite (table_ext p _ St), Sc. exact H.
  - rewrite find_or_create_length.
    destruct (find_or_create_frame name p) as (_ & Fc & _). rewrite Fc. exact H.
  - rewrite update_history_length.
    destruct (update_history_frame e idx ts delta_total p) as (_ & Uc & _). rewrite Uc. exact H.
  - rewrite process_deleted_length, process_deleted_capacity. exact H.
  - rewrite cpu_metrics_self.
    rewrite (table_ext p) by (rewrite cpu_metrics_self; reflexivity). exact H.
  - destruct (memory_stats_frame e p) as (Mt & _ & Mc & _). rewrite (table_ext p _ Mt), Mc. exact H.
  - exact H.
Qed.

Lemma reachable_table_length p :
  reachable p -> length (table p) = Z.to_nat (task_capacity (self p)).
Proof.
  induction 1 as [|o p _ _ IH]; [reflexivity|]. apply exec_table_length, IH.
Qed.

(** The three outcomes of the resolver. *)
Lemma find_or_create_cases name q :
  (fst (_find_or_create_task_index name q) = -1 /\
   snd (_find_or_create_task_index name q) = q) \/
  exists i, fst (_find_or_create_task_index name q) = Z.of_nat i /\
    ((snd (_find_or_create_task_index name q) = q /\
      name_matches (table q) name i = true) \/
     (slot_free (table q) i = true /\
      table (snd (_find_or_create_task_index name q)) = <[i := new_slot name]> (table q))).
Proof.
  unfold _find_or_create_task_index. cbv zeta.
  destruct (find_index _ (name_matches (table q) name)) as [i|] eqn:Ef.
  - right. exists i. split; [reflexivity|]. left. split; [reflexivity|].
    apply find_index_Some in Ef. exact (proj1 (proj2 Ef)).
  - destruct (find_index _ (slot_free (table q))) as [i|] eqn:Es.
    + right. exists i. split; [reflexivity|]. right.
      apply find_index_Some in Es. split; [exact (proj1 (proj2 Es))|].
      cbn [snd]. apply table_set_table, length_insert.
    + left. split; reflexivity.
Qed.

(** One turn of the tracking loop leaves alone an active slot whose name
    the entry does not carry, and does not mark it as seen. *)
Lemma track_task_unlisted env dt k q seen j t :
  table q !! j = Some t -> is_active t = true -> seen !! j = Some false ->
  (forall ts nm, scratch q !! k = Some ts -> pcTaskName ts = Some nm ->
     strncmp_eq TASK_NAME_SIZE (task_name t) nm = false) ->
  table (fst (track_task env dt k (q, seen))) !! j = Some t /\
  snd (track_task env dt k (q, seen)) !! j = Some false /\
  task_status (self (fst (track_task env dt k (q, seen)))) = task_status (self q) /\
  task_capacity (self (fst (track_task env dt k (q, seen)))) = task_capacity (self q).
Proof.
  intros Ht Ha Hs Hno. unfold track_task.
  destruct (scratch q !! k) as [ts|] eqn:Ets; [|cbn; auto].
  destruct (pcTaskName ts) as [nm|] eqn:En; [|cbn; auto].
  specialize (Hno ts nm eq_refl En).
  pose proof (find_or_create_frame nm q) as (F1 & F2 & _).
  pose proof (find_or_create_cases nm q) as Hcases.
  destruct (_find_or_create_task_index nm q) as [idx q1]. cbn [fst snd] in *.
  destruct Hcases as [[-> ->]|(i & -> & Hcase)]; [cbn; auto|].
  destruct (Z.eqb_spec (Z.of_nat i) (-1)); [lia|]. cbn [fst snd].
  assert (Hij : i <> j).
  { intros ->. destruct Hcase as [[_ Hm]|[Hf _]].
    - unfold name_matches in Hm. rewrite Ht, Ha, Hno in Hm. discriminate.
    - unfold slot_free in Hf. rewrite Ht, Ha in Hf. discriminate. }
  assert (Hq1 : table q1 !! j = Some t).
  { destruct Hcase as [[-> _]|[_ ->]]; [exact Ht|].
    rewrite list_lookup_insert_ne by exact Hij. exact Ht. }
  destruct (update_history_frame env (Z.of_nat i) ts dt q1) as (U1 & U2 & _).
  rewrite Nat2Z.id.
  split; [|split; [rewrite list_lookup_insert_ne by exact Hij; exact Hs|split; congruence]].
  unfold _update_task_history. destruct (Z.ltb_spec (Z.of_nat i) 0); [lia|]. rewrite Nat2Z.id.
  destruct (table q1 !! i) as [ti|]; [|exact Hq1].
  rewrite table_set_table by apply length_insert.
  rewrite list_lookup_insert_ne by exact Hij. exact Hq1.
Qed.

Lemma track_loop_unlisted env dt n p seen0 j t :
  table p !! j = Some t -> is_active t = true -> seen0 !! j = Some false ->
  (forall k ts nm, (k < n)%nat -> scratch p !! k = Some ts -> pcTaskName ts = Some nm ->
     strncmp_eq TASK_NAME_SIZE (task_name t) nm = false) ->
  table (fst (for_loop n (track_task env dt) (p, seen0))) !! j = Some t /\
  snd (for_loop n (track_task env dt) (p, seen0)) !! j = Some false /\
  task_capacity (self (fst (for_loop n (track_task env dt) (p, seen0)))) =
    task_capacity (self p).
Proof.
  intros Ht Ha Hs Hno.
  assert (H : table (fst (for_loop n (track_task env dt) (p, seen0))) !! j = Some t /\
              snd (for_loop n (track_task env dt) (p, seen0)) !! j = Some false /\
              task_status (self (fst (for_loop n (track_task env dt) (p, seen0)))) =
                task_status (self p) /\
              task_capacity (self (fst (for_loop n (track_task env dt) (p, seen0)))) =
                task_capacity (self p)).
  { apply (for_loop_invariant
             (fun st => table (fst st) !! j = Some t /\ snd st !! j = Some false /\
                        task_status (self (fst st)) = task_status (self p) /\
                        task_capacity (self (fst st)) = task_capacity (self p))).
    - cbn [fst snd]. auto.
    - intros k [q seen] Hk (H1 & H2 & H3 & H4). cbn [fst snd] in H1, H2, H3, H4.
      destruct (track_task_unlisted env dt k q seen j t H1 Ha H2) as (G1 & G2 & G3 & G4).
      + intros ts nm Hts. apply (Hno k ts nm Hk). rewrite <- (scratch_ext p q H3). exact Hts.
      + split; [exact G1|]. split; [exact G2|]. split; congruence. }
  destruct H as (H1 & H2 & _ & H4). auto.
Qed.

(** The entries the tracking loop reads are entries the kernel listed. *)
Lemma sample_entries_listed env p num dt p' k ts :
  _sample_task_states env p = (Some (num, dt), p') ->
  (k < Z.to_nat num)%nat -> scratch p' !! k = Some ts ->
  ts ∈ ka_entries (snapshot env).
Proof.
  unfold _sample_task_states, scratch. cbv zeta.
  destruct (task_status (self p)) as [sb|]; [|discriminate].
  unfold uxTaskGetSystemState.
  set (written := take (Z.to_nat (task_capacity (self p))) (ka_entries (snapshot env))).
  destruct (Z.of_nat (length written) =? 0); [discriminate|].
  intros H. injection H as <- _ <-. cbn. rewrite Nat2Z.id. intros Hk Hts.
  rewrite lookup_app_l in Hts by exact Hk.
  unfold written in Hts. apply lookup_take_Some in Hts.
  exact (list_elem_of_lookup_2 _ _ _ (proj1 Hts)).
Qed.

Lemma not_listed_spec env name ts nm :
  not_listed env name = true -> ts ∈ ka_entries (snapshot env) ->
  pcTaskName ts = Some nm -> strncmp_eq TASK_NAME_SIZE name nm = false.
Proof.
  unfold not_listed. intros H Hin Hn. rewrite forallb_forall in H.
  apply list_elem_of_In in Hin. specialize (H ts Hin). rewrite Hn in H.
  destruct (strncmp_eq TASK_NAME_SIZE name nm); [discriminate|reflexivity].
Qed.

(** One cycle of the sampling loop that runs to its eviction pass without
    the task of an active slot in its snapshot is one miss of the slot. *)
Lemma missed_cycle_slot env p j t :
  length (table p) = Z.to_nat (task_capacity (self p)) ->
  table p !! j = Some t -> is_active t = true ->
  cycle_completes env p = true -> not_listed env (task_name t) = true ->
  table (sysmon_monitor_iteration env p) !! j = Some (miss_slot t).
Proof.
  intros Hlen Ht Ha Hc Hn.
  destruct (ensure_active_slots env p Hlen) as (Hlen1 & Hkeep).
  specialize (Hkeep j t Ht Ha).
  unfold cycle_completes in Hc. unfold sysmon_monitor_iteration.
  destruct (_ensure_task_storage_capacity env p) as [ok p1]. cbn [snd] in Hlen1, Hkeep.
  destruct ok; [|discriminate]. cbn [andb negb] in *.
  destruct (sample_frame env p1) as (St & Sc & _).
  pose proof (sample_entries_listed env p1) as Hlist.
  destruct (_sample_task_states env p1) as [[[num dt]|] p2]; cbn [fst snd] in *; [|discriminate].
  specialize (Hlist num dt p2).
  unfold alloc. rewrite Hc. cbv beta iota.
  set (p3 := {| self := self p2; prev_idle_ticks_0 := prev_idle_ticks_0 p2;
                prev_idle_ticks_1 := prev_idle_ticks_1 p2;
                log_counter := wrap_int (log_counter p2 + 1); heap := heap p2 |}).
  set (h1 := {[fresh (heap p3)]} ∪ heap p3).
  assert (Hj : (j < Z.to_nat (task_capacity (self p2)))%nat).
  { rewrite Sc, <- Hlen1. exact (lookup_lt_Some _ _ _ Hkeep). }
  pose proof (track_loop_unlisted env dt (Z.to_nat num) (set_heap h1 p3)
                (replicate (Z.to_nat (task_capacity (self p3))) false) j t) as HL.
  destruct HL as (H4 & Hs4 & Hc4).
  { change (table (set_heap h1 p3)) with (table p2). rewrite (table_ext p1 p2 St). exact Hkeep. }
  { exact Ha. }
  { apply lookup_replicate_2. exact Hj. }
  { intros k ts nm Hk Hts Hnm. change (scratch (set_heap h1 p3)) with (scratch p2) in Hts.
    apply (not_listed_spec env (task_name t) ts nm Hn); [|exact Hnm].
    apply (Hlist k ts eq_refl Hk Hts). }
  destruct (for_loop (Z.to_nat num) (track_task env dt) _) as [p4 seen].
  cbn [fst snd] in H4, Hs4, Hc4.
  change (task_capacity (self (set_heap h1 p3))) with (task_capacity (self p2)) in Hc4.
  set (p6 := set_heap (free (Some (fresh (heap p3))) (heap (_process_deleted_tasks seen p4)))
               (_process_deleted_tasks seen p4)).
  assert (H6 : table p6 !! j = Some (miss_slot t)).
  { change (table p6) with (table (_process_deleted_tasks seen p4)).
    rewrite process_deleted_lookup by (rewrite Hc4; exact Hj).
    rewrite H4. cbn. unfold evicted. rewrite Hs4, Ha. reflexivity. }
  pose proof (cpu_metrics_self env num dt p6) as Hcpu.
  destruct (_calculate_cpu_metrics env num dt p6) as [[[c0 c1] ov] p7]. cbn [snd] in Hcpu.
  destruct (memory_stats_frame env p7) as (Mt & _).
  destruct (_collect_memory_stats env p7) as [ms p8]. cbn [snd] in Mt.
  rewrite (table_ext p8) by reflexivity.
  rewrite (table_ext p7 p8 Mt).
  rewrite (table_ext p6 p7) by (rewrite Hcpu; reflexivity).
  exact H6.
Qed.

(** The miss counter and the active flag of a slot after [k] misses in a
    row. *)
Lemma miss_iter_counter k t :
  0 < CONFIG_SYSMON_SAMPLE_COUNT <= INT_MAX ->
  is_active t = true -> 0 <= consecutive_zero_samples t ->
  (consecutive_zero_samples t + Z.of_nat k < CONFIG_SYSMON_SAMPLE_COUNT ->
   is_active (Nat.iter k miss_slot t) = true /\
   consecutive_zero_samples (Nat.iter k miss_slot t) =
     consecutive_zero_samples t + Z.of_nat k) /\
  ((0 < k)%nat ->
   consecutive_zero_samples t + Z.of_nat k = CONFIG_SYSMON_SAMPLE_COUNT ->
   is_active (Nat.iter k miss_slot t) = false /\
   consecutive_zero_samples (Nat.iter k miss_slot t) = 0).
Proof.
  intros HN Ha Hc. induction k as [|k IH].
  - split; [|lia]. intros _. change (Nat.iter 0 miss_slot t) with t.
    split; [exact Ha|lia].
  - destruct IH as [IH _].
    change (Nat.iter (S k) miss_slot t) with (miss_slot (Nat.iter k miss_slot t)).
    split.
    + intros Hlt. destruct (IH ltac:(lia)) as [Hak Hck].
      destruct (miss_slot_counter (Nat.iter k miss_slot t) HN ltac:(lia) Hak) as [Hstep _].
      destruct (Hstep ltac:(lia)) as [H1 H2]. split; [exact H1|lia].
    + intros _ Heq. destruct (IH ltac:(lia)) as [Hak Hck].
      destruct (miss_slot_counter (Nat.iter k miss_slot t) HN ltac:(lia) Hak) as [_ Hstep].
      apply Hstep. lia.
Qed.

(** Consecutive missed cycles apply [miss_slot] once per cycle. *)
Lemma missed_cycles_iter envs : forall p j t,
  0 < CONFIG_SYSMON_SAMPLE_COUNT <= INT_MAX ->
  length (table p) = Z.to_nat (task_capacity (self p)) ->
  table p !! j = Some t -> is_active t = true ->
  0 <= consecutive_zero_samples t ->
  missed_cycles (task_name t) envs p = true ->
  consecutive_zero_samples t + Z.of_nat (length envs) <= CONFIG_SYSMON_SAMPLE_COUNT ->
  table (sysmon_monitor envs p) !! j = Some (Nat.iter (length envs) miss_slot t).
Proof.
  induction envs as [|env envs IH]; intros p j t HN Hlen Ht Ha Hc Hm Hn.
  - exact Ht.
  - cbn [missed_cycles] in Hm.
    apply andb_true_iff in Hm. destruct Hm as [Hm Hrest].
    apply andb_true_iff in Hm. destruct Hm as [Hcc Hnl].
    cbn [sysmon_monitor fold_left]. fold (sysmon_monitor envs (sysmon_monitor_iteration env p)).
    pose proof (missed_cycle_slot env p j t Hlen Ht Ha Hcc Hnl) as Ht1.
    cbn [length] in Hn |- *. rewrite Nat.iter_succ_r.
    destruct (miss_slot_counter t HN ltac:(lia) Ha) as [Hlt Heq].
    destruct (Z.eq_dec (consecutive_zero_samples t + 1) CONFIG_SYSMON_SAMPLE_COUNT) as [E|E].
    + assert (envs = []) as -> by (destruct envs; [reflexivity|cbn [length] in Hn; lia]).
      exact Ht1.
    + destruct (Hlt ltac:(lia)) as [Hact Hcnt].
      apply IH; [exact HN|apply iteration_table_length, Hlen|exact Ht1|exact Hact|lia
                |exact Hrest|lia].
Qed.

(** C3: for every active slot that was not seen, the eviction pass
    appends a zero to each of its three histories at its write cursor and
    advances the cursor modulo the history depth; and so does every cycle
    of the sampling loop that runs to its eviction pass from a reachable
    state, for every active slot whose task is not in the snapshot of the
    cycle.  A slot that was last seen (miss counter 0) and is then missed
    in [SAMPLE_COUNT - 1] consecutive eviction passes, or in as many
    consecutive cycles of the sampling loop, is still active, with
    [SAMPLE_COUNT - 1] misses counted; after the [SAMPLE_COUNT]-th
    consecutive miss it is inactive and its miss counter is 0 again.
    When the resolver then reuses an inactive slot for a name, the slot
    holds that name, is active, and every other field and every history
    entry is zero. *)
Theorem eviction_after_sample_count_misses :
  0 < CONFIG_SYSMON_SAMPLE_COUNT <= INT_MAX ->
  (forall p seen i ti,
     (i < Z.to_nat (task_capacity (self p)))%nat ->
     table p !! i = Some ti -> is_active ti = true -> slot_wf ti ->
     seen !! i = Some false ->
     exists t1, table (_process_deleted_tasks seen p) !! i = Some t1 /\
       usage_percent_history t1 = <[Z.to_nat (write_index ti) := f32_0]> (usage_percent_history ti) /\
       stack_usage_bytes_history t1 = <[Z.to_nat (write_index ti) := 0]> (stack_usage_bytes_history ti) /\
       stack_usage_percent_history t1 =
         <[Z.to_nat (write_index ti) := f32_0]> (stack_usage_percent_history ti) /\
       usage_percent_history t1 !! Z.to_nat (write_index ti) = Some f32_0 /\
       stack_usage_bytes_history t1 !! Z.to_nat (write_index ti) = Some 0 /\
       stack_usage_percent_history t1 !! Z.to_nat (write_index ti) = Some f32_0 /\
       write_index t1 = (write_index ti + 1) mod CONFIG_SYSMON_SAMPLE_COUNT /\
       consecutive_zero_samples t1 =
         (if CONFIG_SYSMON_SAMPLE_COUNT <=? wrap_int (consecutive_zero_samples ti + 1)
          then 0 else wrap_int (consecutive_zero_samples ti + 1))) /\
  (forall env p i ti,
     reachable p -> table p !! i = Some ti -> is_active ti = true ->
     cycle_completes env p = true -> not_listed env (task_name ti) = true ->
     exists t1, table (sysmon_monitor_iteration env p) !! i = Some t1 /\
       task_name t1 = task_name ti /\
       usage_percent_history t1 = <[Z.to_nat (write_index ti) := f32_0]> (usage_percent_history ti) /\
       stack_usage_bytes_history t1 = <[Z.to_nat (write_index ti) := 0]> (stack_usage_bytes_history ti) /\
       stack_usage_percent_history t1 =
         <[Z.to_nat (write_index ti) := f32_0]> (stack_usage_percent_history ti) /\
       usage_percent_history t1 !! Z.to_nat (write_index ti) = Some f32_0 /\
       stack_usage_bytes_history t1 !! Z.to_nat (write_index ti) = Some 0 /\
       stack_usage_percent_history t1 !! Z.to_nat (write_index ti) = Some f32_0 /\
       write_index t1 = (write_index ti + 1) mod CONFIG_SYSMON_SAMPLE_COUNT /\
       consecutive_zero_samples t1 =
         (if CONFIG_SYSMON_SAMPLE_COUNT <=? wrap_int (consecutive_zero_samples ti + 1)
          then 0 else wrap_int (consecutive_zero_samples ti + 1))) /\
  (forall p j t seens,
     (j < Z.to_nat (task_capacity (self p)))%nat ->
     table p !! j = Some t -> is_active t = true -> consecutive_zero_samples t = 0 ->
     Forall (fun seen : list bool => seen !! j = Some false) seens ->
     (Z.of_nat (length seens) = CONFIG_SYSMON_SAMPLE_COUNT - 1 ->
      exists t', table (evict_run seens p) !! j = Some t' /\ is_active t' = true /\
        consecutive_zero_samples t' = CONFIG_SYSMON_SAMPLE_COUNT - 1) /\
     (Z.of_nat (length seens) = CONFIG_SYSMON_SAMPLE_COUNT ->
      exists t', table (evict_run seens p) !! j = Some t' /\ is_active t' = false /\
        consecutive_zero_samples t' = 0)) /\
  (forall p j t envs,
     reachable p ->
     table p !! j = Some t -> is_active t = true -> consecutive_zero_samples t = 0 ->
     missed_cycles (task_name t) envs p = true ->
     (Z.of_nat (length envs) = CONFIG_SYSMON_SAMPLE_COUNT - 1 ->
      exists t', table (sysmon_monitor envs p) !! j = Some t' /\ is_active t' = true /\
        consecutive_zero_samples t' = CONFIG_SYSMON_SAMPLE_COUNT - 1) /\
     (Z.of_nat (length envs) = CONFIG_SYSMON_SAMPLE_COUNT ->
      exists t', table (sysmon_monitor envs p) !! j = Some t' /\ is_active t' = false /\
        consecutive_zero_samples t' = 0)) /\
  (forall q name q' j t0,
     table q !! j = Some t0 -> is_active t0 = false ->
     _find_or_create_task_index name q = (Z.of_nat j, q') ->
     table q' !! j = Some (new_slot name) /\
     new_slot name =
       {| task_name := strncpy (Nat.pred TASK_NAME_SIZE) name;
          is_active := true;
          consecutive_zero_samples := 0;
          prev_run_time_ticks := 0;
          usage_percent_history := replicate (Z.to_nat CONFIG_SYSMON_SAMPLE_COUNT) f32_0;
          stack_usage_bytes_history := replicate (Z.to_nat CONFIG_SYSMON_SAMPLE_COUNT) 0;
          stack_usage_percent_history := replicate (Z.to_nat CONFIG_SYSMON_SAMPLE_COUNT) f32_0;
          write_index := 0;
          stack_high_water_mark := 0;
          stack_size_bytes := 0;
          task_id := 0;
          current_priority := 0;
          base_priority := 0;
          total_run_time_ticks := 0;
          core_id := 0 |}).
Proof.
  intros HN.
  assert (Hmiss : forall ti, slot_wf ti ->
            usage_percent_history (miss_slot ti) =
              <[Z.to_nat (write_index ti) := f32_0]> (usage_percent_history ti) /\
            stack_usage_bytes_history (miss_slot ti) =
              <[Z.to_nat (write_index ti) := 0]> (stack_usage_bytes_history ti) /\
            stack_usage_percent_history (miss_slot ti) =
              <[Z.to_nat (write_index ti) := f32_0]> (stack_usage_percent_history ti) /\
            usage_percent_history (miss_slot ti) !! Z.to_nat (write_index ti) = Some f32_0 /\
            stack_usage_bytes_history (miss_slot ti) !! Z.to_nat (write_index ti) = Some 0 /\
            stack_usage_percent_history (miss_slot ti) !! Z.to_nat (write_index ti) =
              Some f32_0 /\
            write_index (miss_slot ti) = (write_index ti + 1) mod CONFIG_SYSMON_SAMPLE_COUNT /\
            consecutive_zero_samples (miss_slot ti) =
              (if CONFIG_SYSMON_SAMPLE_COUNT <=? wrap_int (consecutive_zero_samples ti + 1)
               then 0 else wrap_int (consecutive_zero_samples ti + 1))).
  { intros ti (Hw & Hl1 & Hl2 & Hl3). unfold miss_slot; cbn.
    repeat (split; [reflexivity|]).
    split; [apply list_lookup_insert_eq; lia|].
    split; [apply list_lookup_insert_eq; lia|].
    split; [apply list_lookup_insert_eq; lia|].
    split; [apply advance_cursor; assumption|reflexivity]. }
  split; [|split; [|split; [|split]]].
  - intros p seen i ti Hi Hti Hai Hwf Hseen.
    exists (miss_slot ti). split; [|exact (Hmiss ti Hwf)].
    rewrite process_deleted_lookup by exact Hi. rewrite Hti. cbn.
    unfold evicted. rewrite Hseen, Hai. reflexivity.
  - intros env p i ti Hr Hti Hai Hc Hn.
    exists (miss_slot ti).
    split; [exact (missed_cycle_slot env p i ti (reachable_table_length p Hr) Hti Hai Hc Hn)|].
    split; [reflexivity|]. apply Hmiss.
    pose proof (reachable_slots_wf p HN Hr) as Hwf. unfold slots_wf in Hwf.
    rewrite Forall_lookup in Hwf. exact (Hwf i ti Hti).
  - intros p j t seens Hj Ht Ha Hc HF. split; intros Hlen.
    + destruct (evict_run_counter seens p j t HN Hj Ht Ha ltac:(lia) HF ltac:(lia))
        as (t' & Ht' & Hlt & _).
      exists t'. split; [exact Ht'|]. destruct (Hlt ltac:(lia)) as [? ?]. split; [assumption|lia].
    + destruct (evict_run_counter seens p j t HN Hj Ht Ha ltac:(lia) HF ltac:(lia))
        as (t' & Ht' & _ & Heq).
      exists t'. split; [exact Ht'|]. apply Heq; [|lia].
      intros ->. cbn in Hlen. lia.
  - intros p j t envs Hr Ht Ha Hc Hm.
    pose proof (reachable_table_length p Hr) as Hlen.
    destruct (miss_iter_counter (length envs) t HN Ha ltac:(lia)) as [Hlt Heq].
    split; intros Hk.
    + exists (Nat.iter (length envs) miss_slot t).
      split; [apply missed_cycles_iter; try assumption; lia|].
      destruct (Hlt ltac:(lia)) as [? ?]. split; [assumption|lia].
    + exists (Nat.iter (length envs) miss_slot t).
      split; [apply missed_cycles_iter; try assumption; lia|].
      apply Heq; lia.
  - intros q name q' j t0 Ht0 Hin H.
    split; [exact (find_or_create_reuse name q j t0 q' Ht0 Hin H)|reflexivity].
Qed.

End Sysmon.

(** * The theorems on a concrete target

    History depth 5, at most 8 tracked tasks, 16-byte task names and
    one-byte stack words. *)

Lemma ex_env_ok (probe_answer snapshot_answer : KernelAnswer) (a b : bool) :
  Forall (entry_ok 16) (ka_entries probe_answer) ->
  Forall (entry_ok 16) (ka_entries snapshot_answer) ->
  env_ok 16 (ex_cycle probe_answer snapshot_answer a b).
Proof. intros H1 H2. split; assumption. Defined.

Lemma ex_answer_ok i0 i1 mn total : Forall (entry_ok 16) (ka_entries (ex_answer i0 i1 mn total)).
Proof.
  repeat (apply List.Forall_cons;
          [intros name H; injection H as <-; unfold kernel_name; cbn; lia|]).
  apply List.Forall_nil.
Defined.

Lemma idle_delta_clamps_to_zero_witness :
  let p := sysmon_monitor_iteration 5 8 16 1 ex_env_high (program_init 5) in
  let q := snd (_sample_task_states ex_env_wrapped
                  (snd (_ensure_task_storage_capacity 5 8 ex_env_wrapped p))) in
  prev_idle_ticks_0 q = 4294967293 /\
  idle_ticks 11 12 3 (scratch q) = (1, 602) /\
  delta_idle 1 (prev_idle_ticks_0 q) = 0 /\
  delta_idle 602 (prev_idle_ticks_1 q) = 2.
Proof.
  cbv zeta.
  set (q := snd (_sample_task_states ex_env_wrapped _)).
  split; [vm_compute; reflexivity|]. split; [vm_compute; reflexivity|].
  destruct (idle_delta_clamps_to_zero ex_env_wrapped 3 4 q 1 602) as (D0 & D1 & _).
  - vm_compute. split; discriminate.
  - vm_compute. split; discriminate.
  - vm_compute. split; discriminate.
  - vm_compute. split; discriminate.
  - vm_compute. reflexivity.
  - split; [rewrite D0|rewrite D1]; vm_compute; reflexivity.
Defined.

(** C1 as stated fails: after the idle counter of core 0 has wrapped from
    [UINT32_MAX - 2] to 1 (four ticks, all of them idle), the wrap-around
    rule would give an idle delta of 4; the code computes 0 and records a
    core usage of 100%. *)
Lemma idle_delta_wraparound_counterexample :
  let p := sysmon_monitor_iteration 5 8 16 1 ex_env_high (program_init 5) in
  let q := sysmon_monitor_iteration 5 8 16 1 ex_env_wrapped p in
  prev_idle_ticks_0 p = UINT32_MAX - 2 /\
  prev_idle_ticks_0 q = 1 /\
  1 < prev_idle_ticks_0 p /\
  (UINT32_MAX - prev_idle_ticks_0 p) + 1 + 1 = 4 /\
  delta_idle 1 (prev_idle_ticks_0 p) = 0 /\
  delta_idle 1 (prev_idle_ticks_0 p) <> (UINT32_MAX - prev_idle_ticks_0 p) + 1 + 1 /\
  cpu_core_percent_0 (self q) !! 1%nat = Some f32_100.
Proof.
  vm_compute. repeat split; try reflexivity; discriminate.
Qed.

Lemma sample_delta_total_wraparound_witness :
  let p := snd (_ensure_task_storage_capacity 5 8 ex_env_wrapped
                  (sysmon_monitor_iteration 5 8 16 1 ex_env_high (program_init 5))) in
  prev_total_run_time (self p) = UINT32_MAX - 2 /\
  ka_total_run_time (snapshot ex_env_wrapped) = 1 /\
  fst (_sample_task_states ex_env_wrapped p) = Some (3, 4) /\
  prev_total_run_time (self (snd (_sample_task_states ex_env_wrapped p))) = 1.
Proof.
  cbv zeta. set (p := snd (_ensure_task_storage_capacity 5 8 ex_env_wrapped _)).
  split; [vm_compute; reflexivity|]. split; [reflexivity|].
  split; [vm_compute; reflexivity|].
  destruct (sample_delta_total_wraparound ex_env_wrapped p 3 4
              (snd (_sample_task_states ex_env_wrapped p))) as (_ & _ & H & _).
  - vm_compute. split; discriminate.
  - vm_compute. split; discriminate.
  - vm_compute. reflexivity.
  - rewrite H. reflexivity.
Defined.

Lemma eviction_after_sample_count_misses_witness :
  let p := exec 5 8 16 1 (OpIteration ex_env) (program_init 5) in
  let envs := replicate 5 ex_env_main_gone in
  (task_name <$> table p !! 2%nat) = Some "main"%string /\
  missed_cycles 5 8 16 1 "main" envs p = true /\
  (exists t4, table (sysmon_monitor 5 8 16 1 (take 4 envs) p) !! 2%nat = Some t4 /\
              is_active t4 = true /\ consecutive_zero_samples t4 = 4) /\
  exists t', table (sysmon_monitor 5 8 16 1 envs p) !! 2%nat = Some t' /\
             is_active t' = false /\ consecutive_zero_samples t' = 0.
Proof.
  cbv zeta. set (p := exec 5 8 16 1 (OpIteration ex_env) (program_init 5)).
  set (t := default (zero_slot 5) (table p !! 2%nat)).
  assert (Ht : table p !! 2%nat = Some t) by (vm_compute; reflexivity).
  assert (Hr : reachable 5 8 16 16 1 p).
  { apply reachable_step; [|apply reachable_init].
    apply ex_env_ok; apply ex_answer_ok. }
  assert (HN : 0 < 5 <= INT_MAX) by (unfold INT_MAX; lia).
  destruct (eviction_after_sample_count_misses 5 8 16 16 1 HN) as (_ & _ & _ & Hcycles & _).
  split; [vm_compute; reflexivity|].
  split; [vm_compute; reflexivity|].
  split.
  - apply (Hcycles p 2%nat t (take 4 (replicate 5 ex_env_main_gone)) Hr Ht);
      vm_compute; reflexivity.
  - apply (Hcycles p 2%nat t (replicate 5 ex_env_main_gone) Hr Ht);
      vm_compute; reflexivity.
Defined.

Lemma ensure_capacity_monotone_and_capped_witness :
  let p := program_init 5 in
  let p' := snd (_ensure_task_storage_capacity 5 8 ex_env p) in
  task_capacity (self p) = 0 /\ task_capacity (self p') = 4 /\
  task_capacity (self p) <= task_capacity (self p') <= 8 /\
  task_capacity (self p') <= task_capacity (self (sysmon_monitor 5 8 16 1 [ex_env_full_nomem; ex_env] p')) <= 8.
Proof.
  cbv zeta. split; [reflexivity|]. split; [vm_compute; reflexivity|].
  apply (ensure_capacity_monotone_and_capped 5 8 16 1 ex_env).
  - vm_compute. discriminate.
  - vm_compute. reflexivity.
Defined.

Lemma one_active_slot_per_name_witness :
  let p := run 5 8 16 1 [OpIteration ex_env; OpIteration ex_env_full] (program_init 5) in
  reachable 5 8 16 16 1 p /\
  (task_name <$> table p) = ["IDLE0"; "IDLE1"; "main"; "worker"; ""; ""]%string /\
  unique_active (table p).
Proof.
  cbv zeta.
  assert (Hr : reachable 5 8 16 16 1
                 (run 5 8 16 1 [OpIteration ex_env; OpIteration ex_env_full] (program_init 5))).
  { cbn [run fold_left]. apply reachable_step.
    - apply ex_env_ok;
        repeat (apply List.Forall_cons;
                [intros name H; injection H as <-; unfold kernel_name; cbn; lia|]);
        apply List.Forall_nil.
    - apply reachable_step; [|apply reachable_init].
      apply ex_env_ok; apply ex_answer_ok. }
  split; [exact Hr|]. split; [vm_compute; reflexivity|].
  apply (one_active_slot_per_name 5 8 16 16 1 (le_n 16) _ Hr).
Defined.


Lemma update_task_history_cpu_percent_witness :
  let p := sysmon_monitor_iteration 5 8 16 1 ex_env (program_init 5) in
  let q := _update_task_history 5 1 ex_env 2 (ex_entry 13 "main" 3 500) 1000 p in
  (prev_run_time_ticks <$> table p !! 2%nat) = Some 300 /\
  delta_task_of 500 300 = 200 /\
  exists t', table q !! 2%nat = Some t' /\
    usage_percent_history t' !! 1%nat = Some (percent_of 200 1000) /\
    prev_run_time_ticks t' = 500.
Proof.
  cbv zeta. set (p := sysmon_monitor_iteration 5 8 16 1 ex_env (program_init 5)).
  split; [vm_compute; reflexivity|].
  edestruct (update_task_history_cpu_percent 5 1 ex_env 2 (ex_entry 13 "main" 3 500) 1000 p)
    as (Hd & t' & Ht' & _ & Hu & Hp & _).
  - unfold INT_MAX. lia.
  - lia.
  - vm_compute. reflexivity.
  - vm_compute. repeat split; discriminate.
  - vm_compute. split; discriminate.
  - vm_compute. split; discriminate.
  - split; [exact Hd|]. exists t'. split; [exact Ht'|]. split; [exact Hu|exact Hp].
Defined.

Lemma cpu_usage_within_0_100_witness :
  let p := snd (_sample_task_states ex_env
                  (snd (_ensure_task_storage_capacity 5 8 ex_env (program_init 5)))) in
  let r := fst (_calculate_cpu_metrics ex_env 3 1000 p) in
  r = (S754_finite false 10485760 (-19), S754_finite false 10485759 (-18),
       S754_finite false 15728639 (-19)) /\
  in_0_100 (fst (fst r)) /\ in_0_100 (snd (fst r)) /\ in_0_100 (snd r).
Proof.
  cbv zeta.
  set (p := snd (_sample_task_states ex_env _)).
  split; [vm_compute; reflexivity|].
  destruct (cpu_usage_within_0_100 ex_env 3 1000 p
              (fst (fst (fst (_calculate_cpu_metrics ex_env 3 1000 p))))
              (snd (fst (fst (_calculate_cpu_metrics ex_env 3 1000 p))))
              (snd (fst (_calculate_cpu_metrics ex_env 3 1000 p)))
              (snd (_calculate_cpu_metrics ex_env 3 1000 p)))
    as (H0 & H1 & _ & _ & H2).
  - vm_compute. split; discriminate.
  - vm_compute. reflexivity.
  - auto.
Defined.



(** ** Further properties on the concrete target *)

(** Two cycles from the initial state: three tasks, then a fourth one
    that makes the table grow from four to six slots. *)
Lemma ex_two_cycles_reachable :
  reachable 5 8 16 16 1
    (run 5 8 16 1 [OpIteration ex_env; OpIteration ex_env_full] (program_init 5)).
Proof.
  cbn [run fold_left]. apply reachable_step.
  - apply ex_env_ok;
      repeat (apply List.Forall_cons;
              [intros name H; injection H as <-; unfold kernel_name; cbn; lia|]);
      apply List.Forall_nil.
  - apply reachable_step; [|apply reachable_init].
    apply ex_env_ok; apply ex_answer_ok.
Qed.

Lemma heap_holds_only_the_two_arrays_witness :
  let p := run 5 8 16 1 [OpIteration ex_env; OpIteration ex_env_full] (program_init 5) in
  size (heap p) = 2%nat /\
  heap p = block_set (tasks (self p)) ∪ block_set (task_status (self p)) /\
  heap (sysmon_deinit p) = ∅.
Proof.
  cbv zeta. split; [vm_compute; reflexivity|].
  destruct (heap_holds_only_the_two_arrays 5 8 16 16 1 _ ex_two_cycles_reachable)
    as (H1 & _ & H3).
  split; [exact H1|exact H3].
Defined.

Lemma storage_matches_capacity_witness :
  let p := run 5 8 16 1 [OpIteration ex_env; OpIteration ex_env_full] (program_init 5) in
  task_capacity (self p) = 6 /\
  length (table p) = Z.to_nat (task_capacity (self p)) /\
  length (scratch p) = Z.to_nat (task_capacity (self p)).
Proof.
  cbv zeta. split; [vm_compute; reflexivity|].
  destruct (storage_matches_capacity 5 8 16 16 1 _ ltac:(lia) ex_two_cycles_reachable)
    as (_ & H1 & H2 & _).
  split; [exact H1|exact H2].
Defined.

Lemma slot_cursor_and_counter_in_range_witness :
  let p := run 5 8 16 1 [OpIteration ex_env; OpIteration ex_env_full] (program_init 5) in
  exists t, table p !! 2%nat = Some t /\ task_name t = "main"%string /\
    write_index t = 2 /\ 0 <= write_index t < 5 /\
    0 <= consecutive_zero_samples t < 5.
Proof.
  cbv zeta.
  set (p := run 5 8 16 1 [OpIteration ex_env; OpIteration ex_env_full] (program_init 5)).
  set (t := default (zero_slot 5) (table p !! 2%nat)).
  assert (Ht : table p !! 2%nat = Some t) by (vm_compute; reflexivity).
  exists t. split; [exact Ht|]. split; [vm_compute; reflexivity|].
  split; [vm_compute; reflexivity|].
  destruct (slot_cursor_and_counter_in_range 5 8 16 16 1 p 2 t) as (Hw & _ & _ & _ & Hc & _).
  - unfold INT_MAX. lia.
  - exact ex_two_cycles_reachable.
  - exact Ht.
  - split; [exact Hw|exact Hc].
Defined.

Lemma series_cursor_in_range_witness :
  let p := run 5 8 16 1 [OpIteration ex_env; OpIteration ex_env_full] (program_init 5) in
  series_write_index (self p) = 2 /\ series_wf 5 (self p).
Proof.
  cbv zeta. split; [vm_compute; reflexivity|].
  apply (series_cursor_in_range 5 8 16 16 1).
  - unfold INT_MAX. lia.
  - exact ex_two_cycles_reachable.
Defined.

Lemma task_histories_are_ring_buffers_witness :
  let p := run 5 8 16 1 [OpIteration ex_env; OpIteration ex_env_full] (program_init 5) in
  exists t, table p !! 2%nat = Some t /\ slot_wf 5 t /\
    let t1 := update_slot 5 1 ex_env (ex_entry 13 "main" 3 500) 1000 t in
    chronological (write_index t1) (usage_percent_history t1) =
      tail (chronological (write_index t) (usage_percent_history t)) ++
      [usage_of (delta_task_of 500 (prev_run_time_ticks t)) 1000].
Proof.
  cbv zeta.
  set (p := run 5 8 16 1 [OpIteration ex_env; OpIteration ex_env_full] (program_init 5)).
  set (t := default (zero_slot 5) (table p !! 2%nat)).
  assert (Ht : table p !! 2%nat = Some t) by (vm_compute; reflexivity).
  assert (Hwf : slot_wf 5 t).
  { unfold slot_wf. split; [vm_compute; split; [discriminate|reflexivity]|].
    repeat split; vm_compute; reflexivity. }
  exists t. split; [exact Ht|]. split; [exact Hwf|].
  apply (task_histories_are_ring_buffers 5 1 ex_env (ex_entry 13 "main" 3 500) 1000 t);
    [unfold INT_MAX; lia|exact Hwf].
Defined.

Lemma series_are_ring_buffers_witness :
  let p := run 5 8 16 1 [OpIteration ex_env; OpIteration ex_env_full] (program_init 5) in
  let m := fst (_collect_memory_stats ex_env p) in
  let q := _update_series_buffers 5 f32_100 f32_0 f32_100 m p in
  series_write_index (self p) = 2 /\ series_write_index (self q) = 3 /\
  chronological 3 (cpu_overall_percent (self q)) =
    tail (chronological 2 (cpu_overall_percent (self p))) ++ [f32_100] /\
  chronological 3 (dram_free (self q)) =
    tail (chronological 2 (dram_free (self p))) ++ [150000].
Proof.
  cbv zeta.
  set (p := run 5 8 16 1 [OpIteration ex_env; OpIteration ex_env_full] (program_init 5)).
  assert (Hwf : series_wf 5 (self p)).
  { unfold series_wf. cbv zeta. split; [vm_compute; split; [discriminate|reflexivity]|].
    repeat split; vm_compute; reflexivity. }
  assert (H2 : series_write_index (self p) = 2) by (vm_compute; reflexivity).
  assert (H3 : series_write_index
                 (self (_update_series_buffers 5 f32_100 f32_0 f32_100
                          (fst (_collect_memory_stats ex_env p)) p)) = 3)
    by (vm_compute; reflexivity).
  split; [exact H2|]. split; [exact H3|].
  destruct (series_are_ring_buffers 5 f32_100 f32_0 f32_100
              (fst (_collect_memory_stats ex_env p)) p ltac:(unfold INT_MAX; lia) Hwf)
    as ((Ha & _) & (Hb & _) & _).
  cbv zeta in Ha, Hb. rewrite H2, H3 in Ha, Hb. split; [exact Ha|exact Hb].
Defined.

Lemma evicted_slot_histories_are_zero_witness :
  let p := sysmon_monitor_iteration 5 8 16 1 ex_env (program_init 5) in
  let seens := replicate 5 [true; true; false; false] in
  (task_name <$> table p !! 2%nat) = Some "main"%string /\
  exists t', table (evict_run 5 seens p) !! 2%nat = Some t' /\
    is_active t' = false /\
    usage_percent_history t' = replicate 5 f32_0 /\
    stack_usage_bytes_history t' = replicate 5 0.
Proof.
  cbv zeta. set (p := sysmon_monitor_iteration 5 8 16 1 ex_env (program_init 5)).
  set (t := default (zero_slot 5) (table p !! 2%nat)).
  assert (Ht : table p !! 2%nat = Some t) by (vm_compute; reflexivity).
  split; [vm_compute; reflexivity|].
  destruct (evicted_slot_histories_are_zero 5 p 2 t (replicate 5 [true; true; false; false]))
    as (t' & Ht' & Ha & H1 & H2 & _).
  - unfold INT_MAX. lia.
  - vm_compute. lia.
  - exact Ht.
  - vm_compute. reflexivity.
  - unfold slot_wf. split; [vm_compute; split; [discriminate|reflexivity]|].
    repeat split; vm_compute; reflexivity.
  - vm_compute. reflexivity.
  - repeat constructor.
  - reflexivity.
  - exists t'. auto.
Defined.

Lemma skipped_cycle_records_nothing_witness :
  let q := sysmon_monitor_iteration 5 8 16 1 ex_env_noseen (program_init 5) in
  calloc_seen_ok ex_env_noseen = false /\
  prev_total_run_time (self q) = 1000 /\
  log_counter q = 1 /\
  series_of (self q) = series_of (self (program_init 5)) /\
  (is_active <$> table q) = [false; false; false; false].
Proof.
  cbv zeta. split; [reflexivity|].
  destruct (skipped_cycle_records_nothing 5 8 16 1 ex_env_noseen (program_init 5))
    as ((Hs & _) & _ & Hadv).
  - right. right. reflexivity.
  - destruct Hadv as [Hp Hl].
    + vm_compute. reflexivity.
    + vm_compute. discriminate.
    + reflexivity.
    + split; [rewrite Hp; reflexivity|]. split; [rewrite Hl; reflexivity|].
      split; [exact Hs|]. vm_compute. reflexivity.
Defined.

Lemma snapshot_fills_the_cells_that_are_read_witness :
  let p := snd (_ensure_task_storage_capacity 5 8 ex_env (program_init 5)) in
  let r := _sample_task_states ex_env p in
  fst r = Some (3, 1000) /\
  scratch (snd r) !! 0%nat = Some (ex_entry 11 "IDLE0" 1 800) /\
  scratch (snd r) !! 3%nat = Some blank_status /\
  idle_ticks 11 12 3 (scratch (snd r)) = idle_ticks 11 12 3 (ka_entries (snapshot ex_env)).
Proof.
  cbv zeta. set (p := snd (_ensure_task_storage_capacity 5 8 ex_env (program_init 5))).
  assert (E : _sample_task_states ex_env p = (Some (3, 1000), snd (_sample_task_states ex_env p)))
    by (vm_compute; reflexivity).
  destruct (snapshot_fills_the_cells_that_are_read ex_env p 3 1000 _ ltac:(reflexivity) E)
    as (_ & Hfront & Hback & _ & Hidle).
  split; [rewrite E; reflexivity|].
  split; [rewrite (Hfront 0%nat) by (vm_compute; lia); reflexivity|].
  split; [rewrite (Hback 3%nat) by (vm_compute; lia); vm_compute; reflexivity|].
  apply Hidle.
Defined.

Lemma ensure_capacity_leaves_room_witness :
  let r := _ensure_task_storage_capacity 5 8 ex_env (program_init 5) in
  uxTaskGetNumberOfTasks ex_env = 3 /\ fst r = true /\
  task_capacity (self (snd r)) = 4 /\
  (task_capacity (self (snd r)) = 8 \/ 3 < task_capacity (self (snd r))).
Proof.
  cbv zeta. split; [reflexivity|]. split; [vm_compute; reflexivity|].
  split; [vm_compute; reflexivity|].
  apply (ensure_capacity_leaves_room 5 8 ex_env (program_init 5)).
  - cbn. lia.
  - unfold INT_MAX. lia.
  - cbn. lia.
  - unfold INT_MAX. cbn. lia.
  - vm_compute. reflexivity.
Defined.

(** A target whose slots have a 4-byte name field while the kernel
    reports names of up to 15 characters. *)
Lemma oversized_name_is_never_found_witness :
  let p := run 5 8 4 1 [OpIteration ex_env] (program_init 5) in
  let r := _find_or_create_task_index 5 4 "IDLE0" p in
  (task_name <$> table p) = ["IDL"; "IDL"; "mai"; ""]%string /\
  (is_active <$> table p) = [true; true; true; false] /\
  fst r = 3 /\
  (task_name <$> table (snd r)) = ["IDL"; "IDL"; "mai"; "IDL"]%string /\
  (forall j t, table p !! j = Some t -> strncmp_eq 4 (task_name t) "IDLE0" = false).
Proof.
  cbv zeta. set (p := run 5 8 4 1 [OpIteration ex_env] (program_init 5)).
  split; [vm_compute; reflexivity|]. split; [vm_compute; reflexivity|].
  split; [vm_compute; reflexivity|]. split; [vm_compute; reflexivity|].
  apply (oversized_name_is_never_found 5 8 4 16 1 p "IDLE0"
           (fst (_find_or_create_task_index 5 4 "IDLE0" p))
           (snd (_find_or_create_task_index 5 4 "IDLE0" p))).
  - lia.
  - unfold p. cbn [run fold_left]. apply reachable_step; [|apply reachable_init].
    apply ex_env_ok; apply ex_answer_ok.
  - cbn. lia.
  - vm_compute. reflexivity.
Defined.

Lemma listed_tasks_are_tracked_witness :
  let p := snd (_sample_task_states ex_env
                  (snd (_ensure_task_storage_capacity 5 8 ex_env (program_init 5)))) in
  let st := for_loop 3 (track_task 5 16 1 ex_env 1000) (p, replicate 4 false) in
  let q := _process_deleted_tasks 5 (snd st) (fst st) in
  scratch p !! 2%nat = Some (ex_entry 13 "main" 3 300) /\
  (task_name <$> table q) = ["IDLE0"; "IDLE1"; "main"; ""]%string /\
  ((exists j s,
      table q !! j = Some s /\ is_active s = true /\ task_name s = "main"%string /\
      consecutive_zero_samples s = 0 /\ table (fst st) !! j = Some s) \/
   table_full (table (fst st))).
Proof.
  cbv zeta.
  set (p := snd (_sample_task_states ex_env
                   (snd (_ensure_task_storage_capacity 5 8 ex_env (program_init 5))))).
  assert (Hr : reachable 5 8 16 16 1 p).
  { unfold p. apply (reachable_step 5 8 16 16 1 (OpSample ex_env)).
    - apply ex_env_ok; apply ex_answer_ok.
    - apply (reachable_step 5 8 16 16 1 (OpEnsureCapacity ex_env)); [|apply reachable_init].
      apply ex_env_ok; apply ex_answer_ok. }
  assert (Hs : scratch p !! 2%nat = Some (ex_entry 13 "main" 3 300))
    by (vm_compute; reflexivity).
  split; [exact Hs|]. split; [vm_compute; reflexivity|].
  apply (listed_tasks_are_tracked 5 16 16 1 (le_n 16) ex_env 1000 3 p 2
           (ex_entry 13 "main" 3 300) "main").
  - apply (reachable_table_inv 5 8 16 16 1 (le_n 16) p Hr).
  - cbn. lia.
  - exact Hs.
  - reflexivity.
Defined.

Lemma stack_usage_of_a_task_witness :
  let p := sysmon_monitor_iteration 5 8 16 1 ex_env (program_init 5) in
  let q := _update_task_history 5 1 ex_env 2 (ex_entry 13 "main" 3 500) 1000 p in
  stack_registry ex_env 13 = Some 4096 /\
  exists t', table q !! 2%nat = Some t' /\
    stack_size_bytes t' = 4096 /\ stack_high_water_mark t' = 1024 /\
    stack_usage_bytes_history t' !! 1%nat = Some 3072.
Proof.
  cbv zeta. set (p := sysmon_monitor_iteration 5 8 16 1 ex_env (program_init 5)).
  set (t := default (zero_slot 5) (table p !! 2%nat)).
  assert (Ht : table p !! 2%nat = Some t) by (vm_compute; reflexivity).
  split; [reflexivity|].
  destruct (stack_usage_of_a_task 5 1 ex_env 2 (ex_entry 13 "main" 3 500) 1000 p t)
    as (t' & Ht' & Hsz & Hh & Hu & _).
  - lia.
  - exact Ht.
  - unfold slot_wf. split; [vm_compute; split; [discriminate|reflexivity]|].
    repeat split; vm_compute; reflexivity.
  - intros v Hv. vm_compute in Hv. injection Hv as <-. vm_compute. split; discriminate.
  - exists t'. split; [exact Ht'|]. split; [exact Hsz|]. split; [exact Hh|exact Hu].
Defined.

Lemma first_sample_of_a_new_task_witness :
  let p := snd (_sample_task_states ex_env
                  (snd (_ensure_task_storage_capacity 5 8 ex_env (program_init 5)))) in
  let r := _find_or_create_task_index 5 16 "main" p in
  table p = replicate 4 (zero_slot 5) /\ fst r = 0 /\
  exists t', table (_update_task_history 5 1 ex_env 0 (ex_entry 13 "main" 3 300) 1000 (snd r))
               !! 0%nat = Some t' /\
    task_name t' = "main"%string /\
    usage_percent_history t' !! 0%nat = Some (usage_of 300 1000) /\
    prev_run_time_ticks t' = 300.
Proof.
  cbv zeta.
  set (p := snd (_sample_task_states ex_env
                   (snd (_ensure_task_storage_capacity 5 8 ex_env (program_init 5))))).
  assert (Htab : table p = replicate 4 (zero_slot 5)) by (vm_compute; reflexivity).
  split; [exact Htab|]. split; [vm_compute; reflexivity|].
  destruct (first_sample_of_a_new_task 5 16 1 ex_env 1000 "main" (ex_entry 13 "main" 3 300) p 0
              (snd (_find_or_create_task_index 5 16 "main" p)))
    as (t' & Ht' & _ & Hn & _ & Hu & Hp & _).
  - unfold INT_MAX. lia.
  - vm_compute. split; discriminate.
  - intros i ti Hi Ha. rewrite Htab in Hi. apply lookup_replicate in Hi.
    destruct Hi as [-> _]. discriminate.
  - vm_compute. reflexivity.
  - exists t'. split; [exact Ht'|]. split; [exact Hn|]. split; [exact Hu|exact Hp].
Defined.

Lemma recorded_cpu_usage_within_0_100_witness :
  let ops := [OpInit ex_init; OpIteration ex_env; OpIteration ex_env_full; OpDeinit] in
  let s := self (run 5 8 16 1 ops (program_init 5)) in
  Forall (entry_point (fun _ => True)) ops /\
  Forall in_0_100 (cpu_overall_percent s) /\
  Forall in_0_100 (cpu_core_percent_0 s) /\
  Forall in_0_100 (cpu_core_percent_1 s).
Proof.
  cbv zeta.
  assert (HF : Forall (entry_point (fun _ => True))
                 [OpInit ex_init; OpIteration ex_env; OpIteration ex_env_full; OpDeinit])
    by (repeat constructor).
  split; [exact HF|]. exact (recorded_cpu_usage_within_0_100 5 8 16 1 _ HF).
Defined.

Lemma recorded_memory_usage_within_0_100_witness :
  let ops := [OpInit ex_init; OpIteration ex_env; OpIteration ex_env_full; OpDeinit] in
  let s := self (run 5 8 16 1 ops (program_init 5)) in
  let m := fst (_collect_memory_stats ex_env (program_init 5)) in
  heap_figures_u32 ex_env /\
  Forall in_0_100 (dram_used_percent s) /\
  Forall in_0_100 (psram_used_percent s) /\
  in_0_100 (ms_dram_used_percent m) /\
  in_0_100 (ms_psram_used_percent m).
Proof.
  cbv zeta.
  assert (HE : forall a b c d, heap_figures_u32 (ex_cycle a b c d)).
  { intros a b c d. unfold heap_figures_u32, is_u32, UINT32_MAX. cbn. lia. }
  split; [apply HE|].
  apply (recorded_memory_usage_within_0_100 5 8 16 1); [|apply HE].
  apply List.Forall_cons; [exact I|]. repeat (apply List.Forall_cons; [apply HE|]).
  apply List.Forall_cons; [exact I|]. apply List.Forall_nil.
Defined.

Lemma recorded_stack_usage_within_0_100_witness :
  let ops := [OpIteration ex_env; OpUpdateHistory ex_env 2 (ex_entry 13 "main" 3 500) 1000;
              OpIteration ex_env_full] in
  Forall (op_env stack_sizes_u32) ops /\
  Forall (fun t => Forall in_0_100 (stack_usage_percent_history t))
    (table (run 5 8 16 1 ops (program_init 5))).
Proof.
  cbv zeta.
  assert (HE : forall a b c d, stack_sizes_u32 (ex_cycle a b c d)).
  { intros a b c d h v. cbn. destruct (h =? 13); [|discriminate].
    intros Hv. injection Hv as <-. unfold is_u32, UINT32_MAX. lia. }
  assert (HF : Forall (op_env stack_sizes_u32)
                 [OpIteration ex_env; OpUpdateHistory ex_env 2 (ex_entry 13 "main" 3 500) 1000;
                  OpIteration ex_env_full])
    by (repeat (apply List.Forall_cons; [apply HE|]); apply List.Forall_nil).
  split; [exact HF|]. exact (recorded_stack_usage_within_0_100 5 8 16 1 _ HF).
Defined.

Lemma task_cpu_usage_within_0_100_witness :
  let p := sysmon_monitor_iteration 5 8 16 1 ex_env (program_init 5) in
  let q := _update_task_history 5 1 ex_env 2 (ex_entry 13 "main" 3 500) 1000 p in
  exists t t' u, table p !! 2%nat = Some t /\ prev_run_time_ticks t = 300 /\
    table q !! 2%nat = Some t' /\
    usage_percent_history t' !! 1%nat = Some u /\ in_0_100 u.
Proof.
  cbv zeta. set (p := sysmon_monitor_iteration 5 8 16 1 ex_env (program_init 5)).
  set (t := default (zero_slot 5) (table p !! 2%nat)).
  assert (Ht : table p !! 2%nat = Some t) by (vm_compute; reflexivity).
  destruct (task_cpu_usage_within_0_100 5 1 ex_env 2 (ex_entry 13 "main" 3 500) 1000 p t)
    as (t' & u & Ht' & Hu & Hin & _).
  - lia.
  - exact Ht.
  - unfold slot_wf. split; [vm_compute; split; [discriminate|reflexivity]|].
    repeat split; vm_compute; reflexivity.
  - lia.
  - vm_compute. discriminate.
  - vm_compute. discriminate.
  - exists t, t', u. split; [exact Ht|]. split; [vm_compute; reflexivity|].
    split; [exact Ht'|]. split; [exact Hu|exact Hin].
Defined.

Lemma capacity_step_keeps_the_tracked_tasks_witness :
  let p := sysmon_monitor_iteration 5 8 16 1 ex_env (program_init 5) in
  let p' := snd (_ensure_task_storage_capacity 5 8 ex_env_full p) in
  task_capacity (self p) = 4 /\ task_capacity (self p') = 6 /\
  (forall j t, table p !! j = Some t -> is_active t = true -> table p' !! j = Some t) /\
  (forall j t', table p' !! j = Some t' -> is_active t' = false -> t' = zero_slot 5).
Proof.
  cbv zeta. set (p := sysmon_monitor_iteration 5 8 16 1 ex_env (program_init 5)).
  assert (Hc : task_capacity (self p) = 4) by (vm_compute; reflexivity).
  assert (Hc' : task_capacity (self (snd (_ensure_task_storage_capacity 5 8 ex_env_full p))) = 6)
    by (vm_compute; reflexivity).
  destruct (capacity_step_keeps_the_tracked_tasks 5 8 ex_env_full p) as (Hfwd & _ & Hz).
  - vm_compute. reflexivity.
  - split; [exact Hc|]. split; [exact Hc'|]. split; [exact Hfwd|].
    apply Hz. rewrite Hc, Hc'. lia.
Defined.
